(** * svg-fixer: class-based SVG styles to inline styles, optional tag renaming

    A shallow embedding of [index.js] (the version with the textual
    fallback) and the properties of its specification.

    Strings are Rocq [string]s read as sequences of code units in the range
    U+0000..U+00FF.  The services the program obtains from its platform
    (jsdom's XML loader, selector engine and style objects, the
    regular-expression compiler) are gathered in the [Platform] class
    below; the program's own logic is translated function by function. *)

From Stdlib Require Import String Ascii List Bool Arith NArith Lia.
Import ListNotations.
Local Open Scope list_scope.
Local Open Scope string_scope.

(* ================================================================== *)
(** ** JavaScript string primitives *)
(* ================================================================== *)

Module Js.

(** White space as [String.prototype.trim] and the regex class [\s] see it,
    restricted to code units below 256: TAB, LF, VT, FF, CR, SPACE, NBSP. *)
Definition isSpace (c : ascii) : bool :=
  let n := nat_of_ascii c in
  (((9 <=? n) && (n <=? 13)) || (n =? 32) || (n =? 160))%nat.

(** The regex class [\w]: ASCII letters, digits and the underscore. *)
Definition isWordChar (c : ascii) : bool :=
  let n := nat_of_ascii c in
  (((48 <=? n) && (n <=? 57)) || ((65 <=? n) && (n <=? 90))
   || ((97 <=? n) && (n <=? 122)) || (n =? 95))%nat.

Fixpoint trimStart (s : string) : string :=
  match s with
  | String c r => if isSpace c then trimStart r else s
  | EmptyString => EmptyString
  end.

Fixpoint trimEnd (s : string) : string :=
  match s with
  | String c r =>
      match trimEnd r with
      | EmptyString => if isSpace c then EmptyString else String c EmptyString
      | r' => String c r'
      end
  | EmptyString => EmptyString
  end.

(** [s.trim()] *)
Definition trim (s : string) : string := trimEnd (trimStart s).

(** [s.split(sep)] for a one-character separator: the result always has at
    least one piece, and an empty piece stands between adjacent separators
    and after a trailing one. *)
Fixpoint split (sep : ascii) (s : string) : list string :=
  match s with
  | EmptyString => [EmptyString]
  | String c r =>
      if Ascii.eqb c sep then EmptyString :: split sep r
      else match split sep r with
           | piece :: pieces => String c piece :: pieces
           | [] => [String c EmptyString]
           end
  end.

(** [pieces.join(sep)] *)
Definition join (sep : string) (pieces : list string) : string :=
  String.concat sep pieces.

(** [s.startsWith(p)], returning what follows the prefix. *)
Fixpoint stripPrefix (p s : string) : option string :=
  match p, s with
  | EmptyString, _ => Some s
  | String a p', String b s' =>
      if Ascii.eqb a b then stripPrefix p' s' else None
  | String _ _, EmptyString => None
  end.

(** The longest run of characters different from [stop], and what follows
    the first [stop]; [None] when [stop] does not occur.  This is how a
    greedy negated class followed by the excluded character ([[^x]*x])
    matches: backtracking cannot shorten the run. *)
Fixpoint upTo (stop : ascii) (s : string) : option (string * string) :=
  match s with
  | EmptyString => None
  | String c r =>
      if Ascii.eqb c stop then Some (EmptyString, r)
      else match upTo stop r with
           | Some (run, rest) => Some (String c run, rest)
           | None => None
           end
  end.

(** [s.replace(re, replacer)] for a global regular expression [re] none of
    whose matches is empty.  [matchAt t] says whether [re] matches at the
    start of the remaining text [t]: it returns the replacement text and the
    number of characters the match consumes.  Matches are taken leftmost
    first and do not overlap; [skip] counts the characters of the current
    match that are still to be dropped. *)
Fixpoint replaceFrom (matchAt : string -> option (string * nat))
         (skip : nat) (s : string) : string :=
  match s with
  | EmptyString => EmptyString
  | String c r =>
      match skip with
      | S k => replaceFrom matchAt k r
      | O =>
          match matchAt s with
          | Some (replacement, n) =>
              replacement ++ replaceFrom matchAt (Nat.pred n) r
          | None => String c (replaceFrom matchAt 0 r)
          end
      end
  end.

Definition replaceAll (matchAt : string -> option (string * nat))
  (s : string) : string := replaceFrom matchAt 0 s.

(** [el.charAt(0).toUpperCase() + el.slice(1)] on ASCII letters. *)
Definition toUpperAscii (c : ascii) : ascii :=
  let n := nat_of_ascii c in
  if ((97 <=? n) && (n <=? 122))%nat then ascii_of_nat (n - 32) else c.

Definition capitalize (s : string) : string :=
  match s with
  | String c r => String (toUpperAscii c) r
  | EmptyString => EmptyString
  end.

End Js.

(* ================================================================== *)
(** ** Plain JavaScript objects used as maps *)
(* ================================================================== *)

Module Obj.

(** An object with string keys and string values, kept in the order in
    which its keys were first assigned. *)
Definition t := list (string * string).

(** [o[k]] *)
Fixpoint get (k : string) (o : t) : option string :=
  match o with
  | [] => None
  | (k', v) :: r => if String.eqb k k' then Some v else get k r
  end.

(** Writing an own property: an existing key keeps its place and takes the
    new value, a new key goes to the end. *)
Fixpoint put (k v : string) (o : t) : t :=
  match o with
  | [] => [(k, v)]
  | (k', v') :: r =>
      if String.eqb k k' then (k, v) :: r else (k', v') :: put k v r
  end.

(** [o[k] = v] for a string [v] on an object created by [{}].  The key
    [__proto__] is the prototype accessor the object inherits: assigning a
    string to it is ignored and creates no property. *)
Definition set (k v : string) (o : t) : t :=
  if String.eqb k "__proto__" then o else put k v o.

Definition isDigit (c : ascii) : bool :=
  let n := nat_of_ascii c in ((48 <=? n) && (n <=? 57))%nat.

Fixpoint digitsValue (acc : N) (s : string) : option N :=
  match s with
  | EmptyString => Some acc
  | String c r =>
      if isDigit c then digitsValue (10 * acc + (N_of_ascii c - 48))%N r
      else None
  end.

(** A key is an array index when it is the canonical decimal form of an
    integer below 2^32 - 1. *)
Definition arrayIndex (k : string) : option N :=
  match k with
  | EmptyString => None
  | String c r =>
      if Ascii.eqb c "0" then
        match r with EmptyString => Some 0%N | _ => None end
      else match digitsValue 0%N k with
           | Some n => if (n <=? 4294967294)%N then Some n else None
           | None => None
           end
  end.

Fixpoint insertIndex (i : N) (k : string) (l : list (N * string))
  : list (N * string) :=
  match l with
  | [] => [(i, k)]
  | (j, k') :: r =>
      if (i <=? j)%N then (i, k) :: l else (j, k') :: insertIndex i k r
  end.

Fixpoint indexKeys (ks : list string) : list (N * string) :=
  match ks with
  | [] => []
  | k :: r =>
      match arrayIndex k with
      | Some i => insertIndex i k (indexKeys r)
      | None => indexKeys r
      end
  end.

Definition isNamedKey (k : string) : bool :=
  match arrayIndex k with Some _ => false | None => true end.

(** [Object.keys(o)]: array-index keys in ascending numeric order, then the
    other keys in insertion order. *)
Definition keys (o : t) : list string :=
  (map snd (indexKeys (map fst o)) ++ filter isNamedKey (map fst o))%list.

End Obj.

(* ================================================================== *)
(** ** The declaration parser shared by both pipelines *)
(* ================================================================== *)

Module Css.

(** One match of [/\.([^{]+){([^}]+)}/] read from just after its dot: the
    two captures and the number of characters consumed after the dot.
    Both negated classes are greedy and stop at the first brace of their
    kind; each needs at least one character. *)
Definition matchRule (afterDot : string) : option (string * string * nat) :=
  match Js.upTo "{" afterDot with
  | Some (String c sel, afterOpen) =>
      match Js.upTo "}" afterOpen with
      | Some (String d body, _) =>
          Some (String c sel, String d body,
                String.length sel + String.length body + 4)
      | _ => None
      end
  | _ => None
  end.

(** The [while ((match = styleRegex.exec(text)) !== null)] loop: all
    matches of the global regex, left to right, without overlap. *)
Fixpoint execRules (skip : nat) (text : string) : list (string * string) :=
  match text with
  | EmptyString => []
  | String c r =>
      match skip with
      | S k => execRules k r
      | O =>
          if Ascii.eqb c "." then
            match matchRule r with
            | Some (sel, body, n) => (sel, body) :: execRules n r
            | None => execRules 0 r
            end
          else execRules 0 r
      end
  end.

(** The matches with [className = match[1].trim()] and
    [styleDeclaration = match[2].trim()]. *)
Definition rules (styleText : string) : list (string * string) :=
  map (fun m => (Js.trim (fst m), Js.trim (snd m))) (execRules 0 styleText).

(** [classStyles] after the loop of index.js:50-54. *)
Definition classStyles (styleText : string) : Obj.t :=
  fold_left (fun o r => Obj.set (fst r) (snd r) o) (rules styleText) [].

Definition nonEmpty (s : string) : bool :=
  match s with EmptyString => false | _ => true end.

(** [decl.split(";").map(p => p.trim()).filter(p => p.length > 0)] *)
Definition styleProps (styleDeclaration : string) : list string :=
  filter nonEmpty (map Js.trim (Js.split ";" styleDeclaration)).

(** [const [name, value] = prop.split(":").map(part => part.trim())]:
    the first two pieces of the split; [value] is [undefined] ([None]) when
    the fragment has no colon. *)
Definition nameValue (prop : string) : string * option string :=
  match map Js.trim (Js.split ":" prop) with
  | name :: value :: _ => (name, Some value)
  | name :: [] => (name, None)
  | [] => (EmptyString, None)
  end.

(** The (property, value) pairs the structured path writes for a
    declaration, in order. *)
Definition declarations (styleDeclaration : string)
  : list (string * option string) :=
  map nameValue (styleProps styleDeclaration).

(** A template literal prints [undefined] for a missing value. *)
Definition showValue (v : option string) : string :=
  match v with Some s => s | None => "undefined" end.

(** [inlineStyle] of the fallback, index.js:134-141. *)
Definition inlineStyle (styleDeclaration : string) : string :=
  Js.join ";"
    (map (fun prop => let nv := nameValue prop in
                      fst nv ++ ":" ++ showValue (snd nv))
         (filter (fun prop => nonEmpty (Js.trim prop))
                 (Js.split ";" styleDeclaration))).

End Css.

(* ================================================================== *)
(** ** The document model *)
(* ================================================================== *)

Module Dom.

(** Inline style mapping of an element: property to value, insertion order
    kept, the last write to a property wins (spec section 3). *)
Definition StyleMap := list (string * string).

Fixpoint setProperty (name value : string) (m : StyleMap) : StyleMap :=
  match m with
  | [] => [(name, value)]
  | (n, v) :: r =>
      if String.eqb name n then (name, value) :: r
      else (n, v) :: setProperty name value r
  end.

Fixpoint getProperty (name : string) (m : StyleMap) : option string :=
  match m with
  | [] => None
  | (n, v) :: r => if String.eqb name n then Some v else getProperty name r
  end.

(** An attribute value is its text, or, for a [style] attribute the program
    has written through [element.style], the declaration block behind it. *)
Inductive AttrValue : Type :=
| Plain (text : string)
| Block (decls : StyleMap).

Definition Attrs := list (string * AttrValue).

Inductive Node : Type :=
| Element (tagName : string) (attributes : Attrs) (childNodes : list Node)
| Text (data : string).

(** The children of the document node. *)
Definition Document := list Node.

(** An element handle: the child indices leading to it from the document. *)
Definition Path := list nat.

(** *** Attributes *)

Fixpoint getAttribute (name : string) (a : Attrs) : option AttrValue :=
  match a with
  | [] => None
  | (n, v) :: r => if String.eqb name n then Some v else getAttribute name r
  end.

(** [setAttribute]: an existing attribute keeps its place, a new one is
    appended. *)
Fixpoint setAttribute (name : string) (v : AttrValue) (a : Attrs) : Attrs :=
  match a with
  | [] => [(name, v)]
  | (n, w) :: r =>
      if String.eqb name n then (n, v) :: r else (n, w) :: setAttribute name v r
  end.

Definition removeAttribute (name : string) (a : Attrs) : Attrs :=
  filter (fun nv => negb (String.eqb name (fst nv))) a.

(** The text of a declaration block as a style object serialises it:
    [property: value;] for each declaration, one space between them. *)
Definition cssText (m : StyleMap) : string :=
  Js.join " " (map (fun pv => fst pv ++ ": " ++ snd pv ++ ";") m).

Definition attrText (v : AttrValue) : string :=
  match v with Plain s => s | Block m => cssText m end.

(** Reading the text of a [style] attribute that came with the input into
    a mapping: [;]-separated fragments, each cut at its first colon, both
    sides trimmed, later duplicates overwriting.  (What a style object makes
    of such a text is its own business; the properties proved below are
    about elements that come without a [style] attribute.) *)
Definition parseStyleAttribute (s : string) : StyleMap :=
  fold_left
    (fun m prop =>
       match Js.upTo ":" prop with
       | Some (n, v) => setProperty (Js.trim n) (Js.trim v) m
       | None => m
       end)
    (Css.styleProps s) [].

(** The mapping behind a [style] attribute. *)
Definition styleBlock (s : option AttrValue) : StyleMap :=
  match s with
  | Some (Block m) => m
  | Some (Plain t) => parseStyleAttribute t
  | None => []
  end.

(** The mapping behind [element.style]. *)
Definition elementStyle (a : Attrs) : StyleMap :=
  styleBlock (getAttribute "style" a).

(** What [element.style[name] = value] makes of the [style] attribute when
    the style object records the write as it is given: the declaration
    block with the property set; assigning [undefined] writes nothing. *)
Definition recorded (name : string) (value : option string)
  (s : option AttrValue) : option AttrValue :=
  match value with
  | Some v => Some (Block (setProperty name v (styleBlock s)))
  | None => None
  end.

(** The attributes after a recorded write. *)
Definition styleAssign (name : string) (value : option string) (a : Attrs)
  : Attrs :=
  match recorded name value (getAttribute "style" a) with
  | Some text => setAttribute "style" text a
  | None => a
  end.

(** *** Class token lists *)

(** ASCII white space of the DOM standard: TAB, LF, FF, CR, SPACE. *)
Definition isAsciiSpace (c : ascii) : bool :=
  let n := nat_of_ascii c in
  ((n =? 9) || (n =? 10) || (n =? 12) || (n =? 13) || (n =? 32))%nat.

Fixpoint tokens (s : string) : list string :=
  match s with
  | EmptyString => []
  | String c r =>
      if isAsciiSpace c then tokens r
      else match r with
           | EmptyString => [String c EmptyString]
           | String c' _ =>
               if isAsciiSpace c' then String c EmptyString :: tokens r
               else match tokens r with
                    | t :: ts => String c t :: ts
                    | [] => [String c EmptyString]
                    end
           end
  end.

Definition mem (x : string) (l : list string) : bool :=
  existsb (String.eqb x) l.

(** Ordered set: the first occurrence of each token. *)
Fixpoint orderedSet (seen l : list string) : list string :=
  match l with
  | [] => []
  | x :: r => if mem x seen then orderedSet seen r
              else x :: orderedSet (x :: seen) r
  end.

(** [element.classList] *)
Definition classList (a : Attrs) : list string :=
  match getAttribute "class" a with
  | Some v => orderedSet [] (tokens (attrText v))
  | None => []
  end.

Definition hasClass (c : string) (a : Attrs) : bool := mem c (classList a).

(** [element.classList.remove(c)]: throws on an empty token or one holding
    ASCII white space; otherwise drops the token and, when the element has a
    [class] attribute, rewrites it from the remaining tokens. *)
Definition classListRemove (c : string) (a : Attrs) : option Attrs :=
  match c with
  | EmptyString => None
  | _ =>
      if existsb isAsciiSpace (list_ascii_of_string c) then None
      else match getAttribute "class" a with
           | Some _ =>
               Some (setAttribute "class"
                       (Plain (Js.join " "
                                 (filter (fun t => negb (String.eqb c t))
                                         (classList a)))) a)
           | None => Some a
           end
  end.

(** *** Trees and handles *)

Fixpoint getNode (p : Path) (nodes : list Node) : option Node :=
  match p with
  | [] => None
  | i :: q =>
      match nth_error nodes i with
      | Some n =>
          match q with
          | [] => Some n
          | _ :: _ =>
              match n with
              | Element _ _ kids => getNode q kids
              | Text _ => None
              end
          end
      | None => None
      end
  end.

(** Tag and attributes of the element behind a handle. *)
Definition getElement (p : Path) (d : Document) : option (string * Attrs) :=
  match getNode p d with
  | Some (Element t a _) => Some (t, a)
  | _ => None
  end.

Fixpoint replaceNth {A : Type} (i : nat) (x : A) (l : list A) : list A :=
  match l, i with
  | [], _ => []
  | _ :: r, O => x :: r
  | y :: r, S j => y :: replaceNth j x r
  end.

Fixpoint removeNth {A : Type} (i : nat) (l : list A) : list A :=
  match l, i with
  | [], _ => []
  | _ :: r, O => r
  | y :: r, S j => y :: removeNth j r
  end.

(** Run [f] on the element behind a handle; [None] when [f] throws (or the
    handle does not lead to an element, which a handle returned by a
    selector query never does). *)
Fixpoint updateAt (f : string -> Attrs -> option (string * Attrs))
         (p : Path) (nodes : list Node) : option (list Node) :=
  match p with
  | [] => None
  | i :: q =>
      match nth_error nodes i with
      | Some (Element t a kids) =>
          match q with
          | [] =>
              match f t a with
              | Some (t', a') => Some (replaceNth i (Element t' a' kids) nodes)
              | None => None
              end
          | _ :: _ =>
              match updateAt f q kids with
              | Some kids' => Some (replaceNth i (Element t a kids') nodes)
              | None => None
              end
          end
      | _ => None
      end
  end.

(** [node.remove()] *)
Fixpoint removeAt (p : Path) (nodes : list Node) : list Node :=
  match p with
  | [] => nodes
  | i :: q =>
      match q with
      | [] => removeNth i nodes
      | _ :: _ =>
          match nth_error nodes i with
          | Some (Element t a kids) =>
              replaceNth i (Element t a (removeAt q kids)) nodes
          | _ => nodes
          end
      end
  end.

Fixpoint indexed (i : nat) (ls : list (list Path)) : list Path :=
  match ls with
  | [] => []
  | ps :: r => map (cons i) ps ++ indexed (S i) r
  end.

(** Handles of a node and its descendant elements, relative to the node
    ([[]] is the node itself), in document order. *)
Fixpoint nodePaths (n : Node) : list Path :=
  match n with
  | Element _ _ kids => [] :: indexed 0 (map nodePaths kids)
  | Text _ => []
  end.

(** All elements of the document in document order (pre-order). *)
Definition elementPaths (d : Document) : list Path :=
  indexed 0 (map nodePaths d).

(** [node.textContent] *)
Fixpoint textContent (n : Node) : string :=
  match n with
  | Element _ _ kids => String.concat "" (map textContent kids)
  | Text s => s
  end.

(** [element.children.length]: element children only. *)
Definition childElementCount (n : Node) : nat :=
  match n with
  | Element _ _ kids =>
      List.length
        (filter (fun k => match k with Element _ _ _ => true | Text _ => false end)
                kids)
  | Text _ => 0
  end.

Definition tagIs (name : string) (p : Path) (d : Document) : bool :=
  match getElement p d with
  | Some (t, _) => String.eqb t name
  | None => false
  end.

(** Proper prefixes of a handle: the handles of the ancestors. *)
Fixpoint ancestors (p : Path) : list Path :=
  match p with
  | [] => []
  | i :: q =>
      match q with
      | [] => []
      | _ :: _ => [i] :: map (cons i) (ancestors q)
      end
  end.

(** The elements a type selector [name] matches. *)
Definition byTagName (name : string) (d : Document) : list Path :=
  filter (fun p => tagIs name p d) (elementPaths d).

(** The elements a class selector [.c] matches. *)
Definition byClassName (c : string) (d : Document) : list Path :=
  filter (fun p => match getElement p d with
                   | Some (_, a) => hasClass c a
                   | None => false
                   end) (elementPaths d).

(** The elements the descendant selector [anc desc] matches. *)
Definition byDescendant (anc desc : string) (d : Document) : list Path :=
  filter (fun p => tagIs desc p d
                   && existsb (fun q => tagIs anc q d) (ancestors p))
         (elementPaths d).

(** *** Namespaces *)

Definition svgNamespace : string := "http://www.w3.org/2000/svg".
Definition xhtmlNamespace : string := "http://www.w3.org/1999/xhtml".

(** The attribute that declares the namespace of an element name: [xmlns]
    for a name without prefix, [xmlns:p] for a name [p:local]. *)
Definition xmlnsFor (tag : string) : string :=
  match Js.split ":" tag with
  | prefix :: _ :: _ => "xmlns:" ++ prefix
  | _ => "xmlns"
  end.

(** The namespace declaration in scope for the element behind a handle:
    the nearest one on the element or on an ancestor.  [scope] holds the
    attributes of the ancestors, the nearest first. *)
Fixpoint resolve (scope : Attrs) (p : Path) (nodes : list Node)
  : option string :=
  match p with
  | [] => None
  | i :: q =>
      match nth_error nodes i with
      | Some (Element t a kids) =>
          match q with
          | [] =>
              option_map attrText (getAttribute (xmlnsFor t) (a ++ scope)%list)
          | _ :: _ => resolve (a ++ scope)%list q kids
          end
      | _ => None
      end
  end.

(** [element.namespaceURI] in a document as the loader built it. *)
Definition namespaceURI (p : Path) (d : Document) : option string :=
  resolve [] p d.

(** Whether [element.style] is an object: the elements of the SVG and
    XHTML namespaces have one, other elements have none. *)
Definition hasStyleObject (p : Path) (d : Document) : bool :=
  match namespaceURI p d with
  | Some ns => String.eqb ns svgNamespace || String.eqb ns xhtmlNamespace
  | None => false
  end.

End Dom.

(* ================================================================== *)
(** ** Markup text *)
(* ================================================================== *)

Module Markup.

Definition dq : ascii := "034"%char.

(** Markup literals in this file are written with an apostrophe wherever
    the markup has a double quote; [q] puts the double quotes back. *)
Fixpoint q (s : string) : string :=
  match s with
  | EmptyString => EmptyString
  | String c r => String (if Ascii.eqb c "'" then dq else c) (q r)
  end.

Fixpoint escape (inAttribute : bool) (s : string) : string :=
  match s with
  | EmptyString => EmptyString
  | String c r =>
      (if Ascii.eqb c "&" then "&amp;"
       else if Ascii.eqb c "<" then "&lt;"
       else if Ascii.eqb c ">" then "&gt;"
       else if inAttribute && Ascii.eqb c dq then "&quot;"
       else if inAttribute && Ascii.eqb c "009" then "&#x9;"
       else if inAttribute && Ascii.eqb c "010" then "&#xA;"
       else if inAttribute && Ascii.eqb c "013" then "&#xD;"
       else String c EmptyString) ++ escape inAttribute r
  end.

Definition serializeAttrs (a : Dom.Attrs) : string :=
  String.concat ""
    (map (fun nv => " " ++ fst nv ++ "=" ++ String dq EmptyString
                    ++ escape true (Dom.attrText (snd nv))
                    ++ String dq EmptyString) a).

(** Modelled from the spec: the Serializer ([dom.serialize()] of jsdom, not
    part of the repository).  Elements are written with their attributes in
    order, a childless element as an empty-element tag, text escaped. *)
Fixpoint serializeNode (n : Dom.Node) : string :=
  match n with
  | Dom.Element t a kids =>
      match kids with
      | [] => "<" ++ t ++ serializeAttrs a ++ "/>"
      | _ :: _ =>
          "<" ++ t ++ serializeAttrs a ++ ">"
          ++ String.concat "" (map serializeNode kids)
          ++ "</" ++ t ++ ">"
      end
  | Dom.Text s => escape false s
  end.

Definition serialize (d : Dom.Document) : string :=
  String.concat "" (map serializeNode d).

(** *** A reference loader

    Modelled from the spec: the Document Loader (jsdom's XML parser, not
    part of the repository).  This loader reads the markup the examples of
    this file use: elements, double-quoted attributes free of [<] and [&],
    text free of [&]; it fails on a missing or mismatched end tag, on a
    repeated attribute and on anything outside one root element. *)

Definition isXmlSpace (c : ascii) : bool :=
  let n := nat_of_ascii c in
  ((n =? 9) || (n =? 10) || (n =? 13) || (n =? 32))%nat.

Definition isNameChar (c : ascii) : bool :=
  Js.isWordChar c || Ascii.eqb c "-" || Ascii.eqb c ":" || Ascii.eqb c ".".

Fixpoint skipSpace (s : string) : string :=
  match s with
  | String c r => if isXmlSpace c then skipSpace r else s
  | EmptyString => EmptyString
  end.

Fixpoint takeName (s : string) : string * string :=
  match s with
  | String c r =>
      if isNameChar c then let nr := takeName r in (String c (fst nr), snd nr)
      else (EmptyString, s)
  | EmptyString => (EmptyString, EmptyString)
  end.

Definition cleanValue (v : string) : bool :=
  negb (existsb (fun c => Ascii.eqb c "<" || Ascii.eqb c "&")
                (list_ascii_of_string v)).

Definition startsWithSpace (s : string) : bool :=
  match s with String c _ => isXmlSpace c | EmptyString => false end.

(** The attributes of a start tag up to its [>] or [/>]. *)
Fixpoint parseAttrs (fuel : nat) (s : string)
  : option (Dom.Attrs * bool * string) :=
  match fuel with
  | O => None
  | S fuel' =>
      match skipSpace s with
      | String ">" rest => Some ([], false, rest)
      | String "/" (String ">" rest) => Some ([], true, rest)
      | s1 =>
          match takeName s1 with
          | (String c name, r1) =>
              if negb (startsWithSpace s) then None else
              match skipSpace r1 with
              | String "=" r2 =>
                  match skipSpace r2 with
                  | String d r3 =>
                      if negb (Ascii.eqb d dq) then None else
                      match Js.upTo dq r3 with
                      | Some (v, r4) =>
                          if negb (cleanValue v) then None else
                          match parseAttrs fuel' r4 with
                          | Some (a, selfClosing, rest) =>
                              match Dom.getAttribute (String c name) a with
                              | Some _ => None
                              | None =>
                                  Some ((String c name, Dom.Plain v) :: a,
                                        selfClosing, rest)
                              end
                          | None => None
                          end
                      | None => None
                      end
                  | EmptyString => None
                  end
              | _ => None
              end
          | (EmptyString, _) => None
          end
      end
  end.

Fixpoint takeText (s : string) : string * string :=
  match s with
  | String c r =>
      if Ascii.eqb c "<" then (EmptyString, s)
      else let tr := takeText r in (String c (fst tr), snd tr)
  | EmptyString => (EmptyString, EmptyString)
  end.

(** Nodes up to the next end tag (or the end of the text). *)
Fixpoint parseContent (fuel : nat) (s : string)
  : option (list Dom.Node * string) :=
  match fuel with
  | O => None
  | S fuel' =>
      match s with
      | EmptyString => Some ([], EmptyString)
      | String "<" (String "/" _) => Some ([], s)
      | String "<" r =>
          match takeName r with
          | (String c name, r1) =>
              let tag := String c name in
              match parseAttrs fuel' r1 with
              | Some (a, true, r2) =>
                  match parseContent fuel' r2 with
                  | Some (siblings, rest) =>
                      Some (Dom.Element tag a [] :: siblings, rest)
                  | None => None
                  end
              | Some (a, false, r2) =>
                  match parseContent fuel' r2 with
                  | Some (kids, r3) =>
                      match Js.stripPrefix ("</" ++ tag) r3 with
                      | Some r4 =>
                          match skipSpace r4 with
                          | String ">" r5 =>
                              match parseContent fuel' r5 with
                              | Some (siblings, rest) =>
                                  Some (Dom.Element tag a kids :: siblings, rest)
                              | None => None
                              end
                          | _ => None
                          end
                      | None => None
                      end
                  | None => None
                  end
              | None => None
              end
          | (EmptyString, _) => None
          end
      | _ =>
          let tr := takeText s in
          if negb (cleanValue (fst tr)) then None else
          match parseContent fuel' (snd tr) with
          | Some (siblings, rest) => Some (Dom.Text (fst tr) :: siblings, rest)
          | None => None
          end
      end
  end.

Definition isElement (n : Dom.Node) : bool :=
  match n with Dom.Element _ _ _ => true | Dom.Text _ => false end.

Definition isBlankText (n : Dom.Node) : bool :=
  match n with
  | Dom.Text s => match skipSpace s with EmptyString => true | _ => false end
  | Dom.Element _ _ _ => false
  end.

Definition parse (s : string) : option Dom.Document :=
  match parseContent (S (String.length s)) s with
  | Some (nodes, EmptyString) =>
      match filter isElement nodes with
      | [root] =>
          if forallb (fun n => isElement n || isBlankText n) nodes
          then Some [root] else None
      | _ => None
      end
  | _ => None
  end.

End Markup.

(* ================================================================== *)
(** ** Platform services *)
(* ================================================================== *)

(** The attributes other than [class] and [style], in order. *)
Definition isOther (name : string) : bool :=
  negb (String.eqb name "class") && negb (String.eqb name "style").

Definition otherAttrs (a : Dom.Attrs) : Dom.Attrs :=
  filter (fun nv => isOther (fst nv)) a.

(** Class names made of ASCII letters, digits, [_] and [-] only. *)
Definition isPlainChar (c : ascii) : bool := Js.isWordChar c || Ascii.eqb c "-".

Definition isPlainName (c : string) : bool :=
  Css.nonEmpty c && forallb isPlainChar (list_ascii_of_string c).

(** Plain names that a class selector [.c] can spell: they start with a
    letter or an underscore. *)
Definition isIdent (c : string) : bool :=
  match c with
  | String x _ => isPlainName c && negb (Obj.isDigit x) && negb (Ascii.eqb x "-")
  | EmptyString => false
  end.

Definition isWordStart (s : string) : bool :=
  match s with String c _ => Js.isWordChar c | EmptyString => false end.

Fixpoint lastIsWord (prev : bool) (s : string) : bool :=
  match s with
  | String c r => lastIsWord (Js.isWordChar c) r
  | EmptyString => prev
  end.

(** Whether [\bname\b] matches somewhere in the text up to its first double
    quote; [prev] tells whether the character before the text is a word
    character.  A word boundary [\b] stands between a word character and a
    character that is not one. *)
Fixpoint wordOccurs (name : string) (prev : bool) (s : string) : bool :=
  let here :=
    match Js.stripPrefix name s with
    | Some rest =>
        xorb prev (isWordStart s)
        && xorb (lastIsWord prev name) (isWordStart rest)
    | None => false
    end in
  match s with
  | EmptyString => here
  | String c r =>
      if Ascii.eqb c Markup.dq then here
      else here || wordOccurs name (Js.isWordChar c) r
  end.

(** The regular expression [class='[^']*\bname\b[^']*'] (apostrophes
    standing for double quotes) for a plain [name], tried at the start of
    [s]: the length of the match, which is always a whole class attribute. *)
Definition classAttrMatch (name : string) (s : string) : option nat :=
  match Js.stripPrefix (Markup.q "class='") s with
  | Some r =>
      match Js.upTo Markup.dq r with
      | Some (value, _) =>
          if wordOccurs name false r then Some (String.length value + 8)
          else None
      | None => None
      end
  | None => None
  end.

(** What the program asks of jsdom and of the regular-expression engine.
    [None] stands for a thrown exception.  The laws fix the services on the
    class names the specification is about (simple [.class] rules) and
    leave them open elsewhere; how a style object treats a write is left
    open altogether. *)
Class Platform : Type := {
  (** [new JSDOM(text, ...).window.document] with the SVG content type *)
  parseXml : string -> option Dom.Document;
  (** [document.querySelectorAll(`.${className}`)], a static list *)
  selectClass : string -> Dom.Document -> option (list Dom.Path);
  (** The global regex built at index.js:144-147 around [className], as
      the length of its match at the start of a text *)
  classAttrRegExp : string -> option (string -> option nat);
  (** Whether [element.style] is an object for the element behind a
      handle; where it is not, [element.style] is [undefined] *)
  styleObject : Dom.Path -> Dom.Document -> bool;
  (** [element.style[name] = value] on a style object, given the [style]
      attribute the element has: the value the attribute takes, [None] when
      the write leaves the attribute alone *)
  styleValue : string -> option string -> option Dom.AttrValue
               -> option Dom.AttrValue;
  selectClass_ident : forall c d,
    isIdent c = true -> selectClass c d = Some (Dom.byClassName c d);
  classAttrRegExp_plain : forall c,
    isPlainName c = true ->
    exists m, classAttrRegExp c = Some m /\ forall s, m s = classAttrMatch c s;
  (** Which elements have a style object does not change when an element
      gets other [class] and [style] attributes *)
  styleObject_frame : forall f p d d' q,
    (forall t a t' a',
       f t a = Some (t', a') -> t' = t /\ otherAttrs a' = otherAttrs a) ->
    Dom.updateAt f p d = Some d' -> styleObject q d' = styleObject q d
}.

(** A platform for running the program on the documents of the examples:
    the reference loader; the selector engine and the regular expression on
    plain class names, every other name being refused; style objects on the
    elements of the SVG and XHTML namespaces, which record the properties
    [fill] and [stroke] as they are written and know no other property. *)
Definition referenceSelectClass (c : string) (d : Dom.Document)
  : option (list Dom.Path) :=
  if isIdent c then Some (Dom.byClassName c d) else None.

Definition referenceClassAttrRegExp (c : string)
  : option (string -> option nat) :=
  if isPlainName c then Some (classAttrMatch c) else None.

Definition referenceProperties : list string := ["fill"; "stroke"].

Definition referenceStyleValue (name : string) (value : option string)
  (s : option Dom.AttrValue) : option Dom.AttrValue :=
  if Dom.mem name referenceProperties then Dom.recorded name value s else None.

Definition referencePlatform : Platform.
Proof.
  refine {| parseXml := Markup.parse;
            selectClass := referenceSelectClass;
            classAttrRegExp := referenceClassAttrRegExp;
            styleObject := Dom.hasStyleObject;
            styleValue := referenceStyleValue |}.
  - intros c d H. unfold referenceSelectClass. now rewrite H.
  - intros c H. unfold referenceClassAttrRegExp. rewrite H.
    exists (classAttrMatch c). split; reflexivity.
  - intros f p d d' q Hf U. unfold Dom.hasStyleObject, Dom.namespaceURI.
    assert (G : forall key l l', isOther key = true ->
                otherAttrs l = otherAttrs l' ->
                Dom.getAttribute key l = Dom.getAttribute key l').
    { intros key l l' K.
      assert (O : forall m, Dom.getAttribute key m
                            = Dom.getAttribute key (otherAttrs m)).
      { induction m as [|[n v] m IH]; [reflexivity|].
        unfold otherAttrs. cbn [filter fst Dom.getAttribute].
        destruct (String.eqb_spec key n) as [<-|N].
        - rewrite K. cbn [Dom.getAttribute]. now rewrite String.eqb_refl.
        - destruct (isOther n); [|exact IH].
          cbn [Dom.getAttribute]. apply String.eqb_neq in N. now rewrite N. }
      intros E. now rewrite (O l), (O l'), E. }
    assert (A : forall a a' s s', otherAttrs a = otherAttrs a' ->
                otherAttrs s = otherAttrs s' ->
                otherAttrs (a ++ s)%list = otherAttrs (a' ++ s')%list).
    { intros a a' s s' Ea Es. unfold otherAttrs in *.
      now rewrite !filter_app, Ea, Es. }
    assert (X : forall t, isOther (Dom.xmlnsFor t) = true).
    { intros t. unfold Dom.xmlnsFor.
      destruct (Js.split ":" t) as [|x [|y l]]; reflexivity. }
    assert (L0 : forall r nodes s s', otherAttrs s = otherAttrs s' ->
                 Dom.resolve s r nodes = Dom.resolve s' r nodes).
    { induction r as [|i r IH]; intros nodes s s' E; [reflexivity|].
      cbn [Dom.resolve].
      destruct (nth_error nodes i) as [[t a kids|x]|]; try reflexivity.
      destruct r as [|j r].
      - now rewrite (G _ (a ++ s)%list (a ++ s')%list (X t) (A a a s s' eq_refl E)).
      - apply IH. now apply A. }
    assert (R : forall (n : Dom.Node) (l : list Dom.Node) i j,
                nth_error (Dom.replaceNth i n l) j
                = if Nat.eqb j i
                  then match nth_error l i with
                       | Some _ => Some n
                       | None => None
                       end
                  else nth_error l j).
    { intros n l. induction l as [|y l IH]; intros i j.
      - destruct i, j; simpl; try reflexivity; destruct (Nat.eqb j i); reflexivity.
      - destruct i as [|i], j as [|j]; simpl; try reflexivity. apply IH. }
    assert (L : forall p d d', Dom.updateAt f p d = Some d' ->
                forall q s s', otherAttrs s = otherAttrs s' ->
                Dom.resolve s q d' = Dom.resolve s' q d).
    { clear U d d' p q. induction p as [|i p IH]; intros d d' U q s s' E;
        [discriminate|].
      cbn [Dom.updateAt] in U.
      destruct (nth_error d i) as [[t a kids|x]|] eqn:N; try discriminate.
      assert (S : exists a1 kids1,
                 d' = Dom.replaceNth i (Dom.Element t a1 kids1) d
                 /\ otherAttrs a1 = otherAttrs a
                 /\ forall r s s', otherAttrs s = otherAttrs s' ->
                      Dom.resolve s r kids1 = Dom.resolve s' r kids).
      { destruct p as [|j p].
        - destruct (f t a) as [[t1 a1]|] eqn:F; [|discriminate].
          destruct (Hf _ _ _ _ F) as [-> Ea].
          injection U as <-. exists a1, kids. auto.
        - destruct (Dom.updateAt f (j :: p) kids) as [kids1|] eqn:U1;
            [|discriminate].
          injection U as <-. exists a, kids1. split; [reflexivity|].
          split; [reflexivity|]. intros r s0 s0' E0. now apply (IH kids). }
      destruct S as (a1 & kids1 & -> & Ea & Hk).
      destruct q as [|j q]; [reflexivity|].
      cbn [Dom.resolve]. rewrite R.
      destruct (Nat.eqb_spec j i) as [->|Nji].
      - rewrite N. destruct q as [|j' q].
        + now rewrite (G _ (a1 ++ s)%list (a ++ s')%list (X t) (A _ _ _ _ Ea E)).
        + apply Hk. now apply A.
      - destruct (nth_error d j) as [[t0 a0 kids0|x]|]; try reflexivity.
        destruct q as [|j' q].
        + now rewrite (G _ (a0 ++ s)%list (a0 ++ s')%list (X t0)
                         (A _ _ _ _ eq_refl E)).
        + apply L0. now apply A. }
    now rewrite (L p d d' U q [] [] eq_refl).
Defined.

(* ================================================================== *)
(** ** Effects: files, console, exceptions *)
(* ================================================================== *)

Record World : Type := {
  files : list (string * string);
  console : list string
}.

(** A computation may change the world and either returns or throws
    ([None]); what it did before throwing stays done. *)
Definition Eff (A : Type) : Type := World -> World * option A.

Definition ret {A : Type} (a : A) : Eff A := fun w => (w, Some a).

Definition throw {A : Type} : Eff A := fun w => (w, None).

Definition bind {A B : Type} (m : Eff A) (k : A -> Eff B) : Eff B :=
  fun w => match m w with
           | (w', Some a) => k a w'
           | (w', None) => (w', None)
           end.

Notation "x <- m ;; k" := (bind m (fun x => k))
  (at level 61, m at next level, right associativity).
Notation "m ;;; k" := (bind m (fun _ => k))
  (at level 61, right associativity).

(** [try { body } catch (error) { handler }] *)
Definition tryCatch {A : Type} (body handler : Eff A) : Eff A :=
  fun w => match body w with
           | (w', Some a) => (w', Some a)
           | (w', None) => handler w'
           end.

(** A pure step that may throw. *)
Definition lift {A : Type} (o : option A) : Eff A :=
  match o with Some a => ret a | None => throw end.

Fixpoint lookupFile (path : string) (fs : list (string * string))
  : option string :=
  match fs with
  | [] => None
  | (p, data) :: r => if String.eqb path p then Some data else lookupFile path r
  end.

Fixpoint storeFile (path data : string) (fs : list (string * string))
  : list (string * string) :=
  match fs with
  | [] => [(path, data)]
  | (p, old) :: r =>
      if String.eqb path p then (p, data) :: r
      else (p, old) :: storeFile path data r
  end.

(** [fs.readFileSync(path, 'utf8')]: throws when there is no such file. *)
Definition readFileSync (path : string) : Eff string :=
  fun w => (w, lookupFile path (files w)).

(** [fs.writeFileSync(path, data)] *)
Definition writeFileSync (path data : string) : Eff unit :=
  fun w => ({| files := storeFile path data (files w); console := console w |},
            Some tt).

(** [fs.copyFileSync(src, dest)] *)
Definition copyFileSync (src dest : string) : Eff unit :=
  data <- readFileSync src ;; writeFileSync dest data.

(** [console.log(line)] and [console.error(line, error)] *)
Definition log (line : string) : Eff unit :=
  fun w => ({| files := files w; console := console w ++ [line] |}, Some tt).

(* ================================================================== *)
(** ** The program *)
(* ================================================================== *)

(** The Element Vocabulary, as listed three times in index.js. *)
Definition svgElements : list string :=
  [ "svg"; "circle"; "ellipse"; "g"; "text"; "tspan"; "line"; "path";
    "polygon"; "polyline"; "rect"; "use"; "defs"; "stop"; "linearGradient";
    "radialGradient"; "mask"; "pattern"; "clipPath"; "filter";
    "feGaussianBlur"; "feOffset"; "feBlend"; "feColorMatrix" ].

(** *** Sanitising [data-name] values (index.js:19-24) *)

Fixpoint spaceRun (s : string) : nat :=
  match s with
  | String c r => if Js.isSpace c then S (spaceRun r) else 0
  | EmptyString => 0
  end.

(** [/\s+/g], each match replaced by an underscore *)
Definition matchSpaces (s : string) : option (string * nat) :=
  match spaceRun s with
  | O => None
  | S n => Some ("_", S n)
  end.

Definition underscoreSpaces (p1 : string) : string :=
  Js.replaceAll matchSpaces p1.

Definition dataNameOpen : string := Eval cbv in Markup.q "data-name='".

(** The regex [/data-name='([^']+)'/g] (apostrophes standing for double
    quotes) and its replacer. *)
Definition matchDataName (s : string) : option (string * nat) :=
  match Js.stripPrefix dataNameOpen s with
  | Some r =>
      match Js.upTo Markup.dq r with
      | Some (String c p1, _) =>
          Some (dataNameOpen ++ underscoreSpaces (String c p1)
                  ++ String Markup.dq EmptyString,
                String.length p1 + 13)
      | _ => None
      end
  | None => None
  end.

Definition sanitize (svgContent : string) : string :=
  Js.replaceAll matchDataName svgContent.

Fixpoint foldM {A B : Type} (f : B -> A -> option B) (l : list A) (b : B)
  : option B :=
  match l with
  | [] => Some b
  | x :: r => match f b x with Some b' => foldM f r b' | None => None end
  end.

(** *** Text-level matchers of the fallback (index.js:112-269) *)

(** Whether [\s*<\/style>] matches at the start of [t]. *)
Definition closesStyle (t : string) : bool :=
  match Js.stripPrefix "</style>" (Js.trimStart t) with
  | Some _ => true
  | None => false
  end.

(** The lazy group [([\s\S]*?)] followed by [\s*<\/style>]: the shortest
    prefix after which the closing part matches. *)
Fixpoint lazyBody (t : string) : option string :=
  if closesStyle t then Some EmptyString
  else match t with
       | String c r =>
           match lazyBody r with
           | Some body => Some (String c body)
           | None => None
           end
       | EmptyString => None
       end.

(** [styleRegex.exec(svgContent)] for [/<style>\s*([\s\S]*?)\s*<\/style>/g],
    called once: group 1 of the leftmost match, [None] for [null]. *)
Fixpoint execStyle (s : string) : option string :=
  match s with
  | EmptyString => None
  | String c r =>
      match Js.stripPrefix "<style>" s with
      | Some after =>
          match lazyBody (Js.trimStart after) with
          | Some body => Some body
          | None => execStyle r
          end
      | None => execStyle r
      end
  end.

(** Position of the first occurrence of [needle]. *)
Fixpoint indexOf (needle s : string) : option nat :=
  match Js.stripPrefix needle s with
  | Some _ => Some 0
  | None =>
      match s with
      | String _ r =>
          match indexOf needle r with Some k => Some (S k) | None => None end
      | EmptyString => None
      end
  end.

(** [/<style>[\s\S]*?<\/style>/g], replaced by the empty string *)
Definition matchStyleBlock (s : string) : option (string * nat) :=
  match Js.stripPrefix "<style>" s with
  | Some r =>
      match indexOf "</style>" r with
      | Some k => Some (EmptyString, k + 15)
      | None => None
      end
  | None => None
  end.

(** [/<defs>\s*<\/defs>/g], replaced by the empty string *)
Definition matchEmptyDefs (s : string) : option (string * nat) :=
  match Js.stripPrefix "<defs>" s with
  | Some r =>
      match Js.stripPrefix "</defs>" (Js.trimStart r) with
      | Some _ => Some (EmptyString, spaceRun r + 13)
      | None => None
      end
  | None => None
  end.

(** [new RegExp(`<${el}(\\s|>)`, 'g')] replaced by
    [`<${capitalizedName}$1`] *)
Definition matchOpenTag (el : string) (s : string) : option (string * nat) :=
  match Js.stripPrefix ("<" ++ el) s with
  | Some (String c _) =>
      if Js.isSpace c || Ascii.eqb c ">"
      then Some ("<" ++ Js.capitalize el ++ String c EmptyString,
                 String.length el + 2)
      else None
  | _ => None
  end.

(** [new RegExp(`</${el}>`, 'g')] replaced by [`</${capitalizedName}>`] *)
Definition matchCloseTag (el : string) (s : string) : option (string * nat) :=
  match Js.stripPrefix ("</" ++ el ++ ">") s with
  | Some _ => Some ("</" ++ Js.capitalize el ++ ">", String.length el + 3)
  | None => None
  end.

(** The [svgElements.forEach] loops of the fallback. *)
Definition renameTagsInText (svg : string) : string :=
  fold_left (fun acc el =>
               Js.replaceAll (matchCloseTag el)
                 (Js.replaceAll (matchOpenTag el) acc))
            svgElements svg.

(** [value.split(/\s+/)]: the pieces between runs of white space; a run at
    either end leaves an empty piece there. *)
Fixpoint splitSpaces (s : string) : list string :=
  match s with
  | EmptyString => [EmptyString]
  | String c r =>
      if Js.isSpace c then
        match r with
        | String c' _ =>
            if Js.isSpace c' then splitSpaces r
            else EmptyString :: splitSpaces r
        | EmptyString => [EmptyString; EmptyString]
        end
      else match splitSpaces r with
           | piece :: pieces => String c piece :: pieces
           | [] => [String c EmptyString]
           end
  end.

Definition classOpen : string := Eval cbv in Markup.q "class='".

(** Group 1 of [matched.match(re)] at index.js:150-151, where [re] is
    [class=], a double quote, a captured run of characters other than the
    double quote, and a double quote: the capture of the leftmost match;
    [None] when there is no match and indexing [null] throws. *)
Fixpoint classCapture (matched : string) : option string :=
  match matched with
  | EmptyString => None
  | String _ r =>
      match Js.stripPrefix classOpen matched with
      | Some t =>
          match Js.upTo Markup.dq t with
          | Some (value, _) => Some value
          | None => classCapture r
          end
      | None => classCapture r
      end
  end.

(** The replacer of index.js:148-163. *)
Definition rewriteClassAttr (className inlineStyle matched : string)
  : option string :=
  match classCapture matched with
  | Some value =>
      let existingClasses := splitSpaces value in
      let filteredClasses :=
        Js.join " "
          (filter (fun c => negb (String.eqb c className)) existingClasses) in
      let quote := String Markup.dq EmptyString in
      Some (if Css.nonEmpty filteredClasses
            then classOpen ++ filteredClasses ++ quote
                 ++ " style=" ++ quote ++ inlineStyle ++ quote
            else "style=" ++ quote ++ inlineStyle ++ quote)
  | None => None
  end.

(** [text.replace(re, replacer)] for a global [re] given by the length of
    its match at a position, with a replacer that reads the matched text and
    may throw. *)
Fixpoint replaceWith (matchAt : string -> option nat)
         (replacer : string -> option string) (skip : nat) (s : string)
  : option string :=
  match s with
  | EmptyString => Some EmptyString
  | String c r =>
      match skip with
      | S k => replaceWith matchAt replacer k r
      | O =>
          match matchAt s with
          | Some n =>
              match replacer (substring 0 n s) with
              | Some replacement =>
                  match replaceWith matchAt replacer (Nat.pred n) r with
                  | Some rest => Some (replacement ++ rest)
                  | None => None
                  end
              | None => None
              end
          | None =>
              match replaceWith matchAt replacer 0 r with
              | Some rest => Some (String c rest)
              | None => None
              end
          end
      end
  end.

Section Program.

Context {P : Platform}.

(** *** Applying the class styles (index.js:57-80) *)

(** [element.style[name] = value] on an element that has a style object:
    what the object makes of the write lands in the [style] attribute. *)
Definition styleWrite (name : string) (value : option string) (a : Dom.Attrs)
  : Dom.Attrs :=
  match styleValue name value (Dom.getAttribute "style" a) with
  | Some text => Dom.setAttribute "style" text a
  | None => a
  end.

(** The body of [elements.forEach] for one element; [hasStyle] tells
    whether [element.style] is an object.  Where it is [undefined], the
    first [element.style[name] = value] throws a [TypeError]. *)
Definition applyToElement (hasStyle : bool) (classStyles : Obj.t)
  (className : string) (tag : string) (a : Dom.Attrs)
  : option (string * Dom.Attrs) :=
  match Obj.get className classStyles with
  | Some styleDeclaration =>
      let styleProps := Css.styleProps styleDeclaration in
      match styleProps, hasStyle with
      | _ :: _, false => None
      | _, _ =>
          let styled :=
            fold_left (fun acc prop =>
                         let nv := Css.nameValue prop in
                         styleWrite (fst nv) (snd nv) acc)
                      styleProps a in
          match Dom.classListRemove className styled with
          | Some a' =>
              Some (tag,
                    if (List.length (Dom.classList a') =? 0)%nat
                    then Dom.removeAttribute "class" a' else a')
          | None => None
          end
      end
  | None => None
  end.

(** The body of [Object.keys(classStyles).forEach] for one class name. *)
Definition applyClass (classStyles : Obj.t) (d : Dom.Document)
  (className : string) : option Dom.Document :=
  match selectClass className d with
  | Some elements =>
      foldM (fun d' element =>
               Dom.updateAt
                 (applyToElement (styleObject element d') classStyles className)
                 element d')
            elements d
  | None => None
  end.

Definition applyClassStyles (classStyles : Obj.t) (d : Dom.Document)
  : option Dom.Document :=
  foldM (applyClass classStyles) (Obj.keys classStyles) d.

(** [document.querySelector(sel)]: the first match in document order. *)
Definition first (l : list Dom.Path) : option Dom.Path :=
  match l with p :: _ => Some p | [] => None end.

(** The [if (styleElement) { ... }] block, index.js:42-90. *)
Definition inlineStyles (styleElement : Dom.Path) (d : Dom.Document)
  : option Dom.Document :=
  match Dom.getNode styleElement d with
  | Some node =>
      let styleText := Dom.textContent node in
      let classStyles := Css.classStyles styleText in
      match applyClassStyles classStyles d with
      | Some d1 =>
          let d2 := Dom.removeAt styleElement d1 in
          match first (Dom.byTagName "defs" d2) with
          | Some defsElement =>
              match Dom.getNode defsElement d2 with
              | Some defs =>
                  if (Dom.childElementCount defs =? 0)%nat
                  then Some (Dom.removeAt defsElement d2) else Some d2
              | None => Some d2
              end
          | None => Some d2
          end
      | None => None
      end
  | None => None
  end.

(** *** Renaming tags (index.js:280-333) *)

(** [for (const attr of element.attributes)
       newElement.setAttribute(attr.name, attr.value)] *)
Definition copyAttributes (a : Dom.Attrs) : Dom.Attrs :=
  fold_left (fun acc nv =>
               Dom.setAttribute (fst nv) (Dom.Plain (Dom.attrText (snd nv))) acc)
            a [].

(** The element that replaces a matched one: capitalised tag, copied
    attributes; the children move over as they are. *)
Definition renamed (elementName : string) (tag : string) (a : Dom.Attrs)
  : option (string * Dom.Attrs) :=
  Some (Js.capitalize elementName, copyAttributes a).

Definition renameTag (d : Dom.Document) (elementName : string)
  : option Dom.Document :=
  foldM (fun d' element => Dom.updateAt (renamed elementName) element d')
        (Dom.byTagName elementName d) d.

Definition convertToReactNativeSvg (d : Dom.Document) : option Dom.Document :=
  foldM renameTag svgElements d.

(** *** The structured pipeline (index.js:14-107) *)

Definition noStyleInDefs : string :=
  "No style element found in defs. No conversion needed.".

Definition successMessage (reactNative : bool) (outputPath : string) : string :=
  (if reactNative then "Successfully converted SVG to React Native format: "
   else "Successfully converted SVG styles to inline: ") ++ outputPath.

Definition structured (inputPath outputPath : string) (reactNative : bool)
  : Eff unit :=
  svgContent <- readFileSync inputPath ;;
  let sanitizedContent := sanitize svgContent in
  document <- lift (parseXml sanitizedContent) ;;
  let styleElement := first (Dom.byDescendant "defs" "style" document) in
  match styleElement, reactNative with
  | None, false => log noStyleInDefs
  | _, _ =>
      (match styleElement with
       | None => log noStyleInDefs
       | Some _ => ret tt
       end) ;;;
      styledDocument <-
        (match styleElement with
         | Some element => lift (inlineStyles element document)
         | None => ret document
         end) ;;
      finalDocument <-
        (if reactNative then lift (convertToReactNativeSvg styledDocument)
         else ret styledDocument) ;;
      let modifiedSvg := Markup.serialize finalDocument in
      writeFileSync outputPath modifiedSvg ;;;
      log (successMessage reactNative outputPath)
  end.

(** *** The textual fallback (index.js:112-269) *)

(** The body of the [while ((classMatch = classRegex.exec(...)))] loop. *)
Definition rewriteClass (modifiedSvg : string) (rule : string * string)
  : option string :=
  let className := fst rule in
  let styleDeclaration := snd rule in
  let inlineStyle := Css.inlineStyle styleDeclaration in
  match classAttrRegExp className with
  | Some classRegexInSvg =>
      replaceWith classRegexInSvg (rewriteClassAttr className inlineStyle)
                  0 modifiedSvg
  | None => None
  end.

Definition fallbackMessage (reactNative : bool) (outputPath : string)
  : string :=
  (if reactNative
   then "Successfully converted SVG to React Native format using fallback method: "
   else "Successfully converted SVG styles to inline using fallback method: ")
  ++ outputPath.

Definition noStyleInSvg : string :=
  "No style element found in SVG. No conversion needed.".

(** The text the fallback writes when it found a style block with content
    [styleContent]. *)
Definition fallbackText (reactNative : bool) (svgContent styleContent : string)
  : option string :=
  match foldM rewriteClass (Css.rules styleContent) svgContent with
  | Some rewritten =>
      let withoutStyle := Js.replaceAll matchStyleBlock rewritten in
      let withoutDefs := Js.replaceAll matchEmptyDefs withoutStyle in
      Some (if reactNative then renameTagsInText withoutDefs else withoutDefs)
  | None => None
  end.

Definition fallback (inputPath outputPath : string) (reactNative : bool)
  : Eff unit :=
  log "Attempting fallback conversion method..." ;;;
  svgContent <- readFileSync inputPath ;;
  match execStyle svgContent with
  | Some (String c content) =>
      modifiedSvg <- lift (fallbackText reactNative svgContent (String c content)) ;;
      writeFileSync outputPath modifiedSvg ;;;
      log (fallbackMessage reactNative outputPath)
  | _ =>
      if reactNative then
        writeFileSync outputPath (renameTagsInText svgContent) ;;;
        log (fallbackMessage true outputPath)
      else
        log noStyleInSvg ;;;
        copyFileSync inputPath outputPath
  end.

(** *** The entry point (index.js:13-274) *)

Definition convertSvgStylesToInline
  (inputPath outputPath : string) (reactNative : bool) : Eff unit :=
  tryCatch (structured inputPath outputPath reactNative)
    (log "Error converting SVG:" ;;;
     tryCatch (fallback inputPath outputPath reactNative)
              (log "Fallback conversion also failed:")).

End Program.

(* ================================================================== *)
(** ** Vocabulary of the statements *)
(* ================================================================== *)

(** What one sees of a node without looking below it: tag, attributes and
    number of children of an element, or the data of a text node. *)
Inductive View : Type :=
| VElement (tag : string) (attrs : Dom.Attrs) (arity : nat)
| VText (data : string).

Definition viewOf (n : Dom.Node) : View :=
  match n with
  | Dom.Element t a kids => VElement t a (List.length kids)
  | Dom.Text s => VText s
  end.

Definition view (p : Dom.Path) (d : Dom.Document) : option View :=
  option_map viewOf (Dom.getNode p d).

(** The effect on a view of running [f] on the element. *)
Definition applyView (f : string -> Dom.Attrs -> option (string * Dom.Attrs))
  (v : View) : View :=
  match v with
  | VElement t a k =>
      match f t a with
      | Some (t', a') => VElement t' a' k
      | None => v
      end
  | VText _ => v
  end.

Definition memPath (q : Dom.Path) (ps : list Dom.Path) : bool :=
  existsb (fun p => if list_eq_dec Nat.eq_dec q p then true else false) ps.

Definition isElementView (v : option View) : Prop :=
  exists t a k, v = Some (VElement t a k).

(** One [element.style[name] = value] on the mapping. *)
Definition writeStyle (m : Dom.StyleMap) (nv : string * option string)
  : Dom.StyleMap :=
  match snd nv with
  | Some v => Dom.setProperty (fst nv) v m
  | None => m
  end.

(** What the pass for class [c] does to the attributes of one element. *)
Definition stepAttrs {P : Platform} (cs : Obj.t) (c : string) (a : Dom.Attrs)
  : Dom.Attrs :=
  if Dom.hasClass c a then
    match applyToElement true cs c EmptyString a with
    | Some (_, a') => a'
    | None => a
    end
  else a.

Definition stepView {P : Platform} (cs : Obj.t) (c : string) (v : View)
  : View :=
  match v with
  | VElement t a k => VElement t (stepAttrs cs c a) k
  | VText _ => v
  end.

(** A [style] attribute that is absent or is the declaration block of
    earlier writes: not a text that came with the input. *)
Definition noStyleText (s : option Dom.AttrValue) : bool :=
  match s with Some (Dom.Plain _) => false | _ => true end.

(** The style object records the write [nv] as it is given. *)
Definition records {P : Platform} (nv : string * option string) : Prop :=
  forall s, noStyleText s = true ->
            styleValue (fst nv) (snd nv) s = Dom.recorded (fst nv) (snd nv) s.

(** Every element that carries one of the classes [ks] has a style
    object. *)
Definition styleObjectsFor {P : Platform} (ks : list string)
  (d : Dom.Document) : bool :=
  forallb (fun q => match Dom.getElement q d with
                    | Some (_, a) =>
                        implb (existsb (fun c => Dom.hasClass c a) ks)
                              (styleObject q d)
                    | None => true
                    end) (Dom.elementPaths d).

(** A class token: not empty and free of ASCII white space. *)
Definition goodToken (t : string) : Prop :=
  t <> EmptyString
  /\ forallb (fun c => negb (Dom.isAsciiSpace c)) (list_ascii_of_string t) = true.

(** The style writes an element receives when the classes [ks] are applied
    in order: the declarations of those it carries. *)
Definition writesFor (cs : Obj.t) (ks : list string) (a : Dom.Attrs)
  : list (string * option string) :=
  flat_map (fun c => match Obj.get c cs with
                     | Some decl => Css.declarations decl
                     | None => []
                     end)
           (filter (fun c => Dom.hasClass c a) ks).

Definition stepsAttrs {P : Platform} (cs : Obj.t) (ks : list string)
  (a : Dom.Attrs) : Dom.Attrs :=
  fold_left (fun acc c => stepAttrs cs c acc) ks a.

Definition stepsView {P : Platform} (cs : Obj.t) (ks : list string) (v : View)
  : View :=
  match v with
  | VElement t a k => VElement t (stepsAttrs cs ks a) k
  | VText _ => v
  end.

(** The value a sequence of writes leaves for property [p], starting from
    [init]. *)
Definition written (p : string) (ws : list (string * option string))
  (init : option string) : option string :=
  fold_left (fun acc nv =>
               match snd nv with
               | Some v => if String.eqb p (fst nv) then Some v else acc
               | None => acc
               end) ws init.

(** The body of the last rule for class [c] in scan order. *)
Definition lastRule (c : string) (rs : list (string * string)) : option string :=
  fold_left (fun acc r => if String.eqb c (fst r) then Some (snd r) else acc)
            rs None.

(** A document with one [path] element carrying the given class attribute,
    in no namespace. *)
Definition pathWithClass (cls : string) : Dom.Document :=
  [Dom.Element "svg" []
     [Dom.Element "path" [("class", Dom.Plain cls); ("d", Dom.Plain "M0 0")] []]].

(** The same drawing in the SVG namespace. *)
Definition svgPathWithClass (cls : string) : Dom.Document :=
  [Dom.Element "svg" [("xmlns", Dom.Plain Dom.svgNamespace)]
     [Dom.Element "path" [("class", Dom.Plain cls); ("d", Dom.Plain "M0 0")] []]].

(** The text the fallback writes to the output file for an input text;
    [None] when it throws before writing. *)
Definition fallbackOutput {P : Platform} (reactNative : bool)
  (svgContent : string) : option string :=
  match execStyle svgContent with
  | Some (String c content) =>
      fallbackText reactNative svgContent (String c content)
  | _ => Some (if reactNative then renameTagsInText svgContent else svgContent)
  end.

(** A world holding one input file and an empty console. *)
Definition inputOnly (svgContent : string) : World :=
  {| files := [("in.svg", svgContent)]; console := [] |}.

(** The output file after a run on [inputOnly svgContent]. *)
Definition outputOf {P : Platform} (reactNative : bool) (svgContent : string)
  : option string :=
  lookupFile "out.svg"
    (files (fst (convertSvgStylesToInline "in.svg" "out.svg" reactNative
                   (inputOnly svgContent)))).

(** Scenario 1 of the specification. *)
Definition scenario1Input : string :=
  Eval cbv in Markup.q
    "<svg><defs><style>.a{fill:red;stroke:blue;}</style></defs><path class='a' d='M0 0'/></svg>".

Definition scenario1Document : Dom.Document :=
  [Dom.Element "svg" []
     [Dom.Element "defs" []
        [Dom.Element "style" [] [Dom.Text ".a{fill:red;stroke:blue;}"]];
      Dom.Element "path"
        [("class", Dom.Plain "a"); ("d", Dom.Plain "M0 0")] []]].

(** The output the specification gives for scenario 1. *)
Definition scenario1Output : string :=
  Eval cbv in Markup.q "<svg><path d='M0 0' style='fill:red;stroke:blue;'/></svg>".

(** The output the program writes for scenario 1. *)
Definition scenario1Written : string :=
  Eval cbv in Markup.q "<svg><path style='fill:red;stroke:blue' d='M0 0'/></svg>".

(** A document without any style element. *)
Definition plainInput : string :=
  Eval cbv in Markup.q "<svg><path d='M0 0'/></svg>".

(** A style value that holds colons. *)
Definition urlInput : string :=
  Eval cbv in Markup.q
    "<svg><defs><style>.a{fill:url(http://x.org/p.svg#g);}</style></defs><path class='a' d='M0 0'/></svg>".

(** An element with two styled classes, in markup the loader rejects (the
    [path] element is never closed). *)
Definition twoClassInput : string :=
  Eval cbv in Markup.q
    "<svg><defs><style>.a{fill:red;}.b{stroke:blue;}</style></defs><path class='a b' d='M0 0'></svg>".

(** Names and values of the attributes as text, in order. *)
Definition attrTexts (a : Dom.Attrs) : list (string * string) :=
  map (fun nv => (fst nv, Dom.attrText (snd nv))) a.

Fixpoint distinct (l : list string) : bool :=
  match l with
  | [] => true
  | x :: r => negb (Dom.mem x r) && distinct r
  end.

(** No element of the document has two attributes of one name, as in every
    document a loader builds. *)
Definition distinctAttrs (d : Dom.Document) : bool :=
  forallb (fun p => match Dom.getElement p d with
                    | Some (_, a) => distinct (map fst a)
                    | None => true
                    end) (Dom.elementPaths d).

(** What the pass for one vocabulary name does to a view. *)
Definition passView (elementName : string) (v : View) : View :=
  match v with
  | VElement t a k =>
      if String.eqb t elementName
      then VElement (Js.capitalize elementName) (copyAttributes a) k
      else v
  | VText _ => v
  end.

(** A small drawing: a group in a group, a path with attributes, text. *)
Definition nestedDocument : Dom.Document :=
  [Dom.Element "svg" [("viewBox", Dom.Plain "0 0 1 1")]
     [Dom.Element "g" [("id", Dom.Plain "outer")]
        [Dom.Element "g" []
           [Dom.Element "path"
              [("d", Dom.Plain "M0 0");
               ("style", Dom.Block [("fill", "red")])] [];
            Dom.Element "title" [] [Dom.Text "a drawing"]]]]].

(** Whether every character of a string passes a test. *)
Fixpoint allChars (f : ascii -> bool) (s : string) : bool :=
  match s with
  | String c r => f c && allChars f r
  | EmptyString => true
  end.

Definition notSpace (c : ascii) : bool := negb (Js.isSpace c).
Definition notQuote (c : ascii) : bool := negb (Ascii.eqb c Markup.dq).

Fixpoint endsNotSpace (s : string) : bool :=
  match s with
  | String c EmptyString => notSpace c
  | String _ r => endsNotSpace r
  | EmptyString => false
  end.

(** Two style blocks, an empty one first; the loader rejects the markup. *)
Definition emptyFirstBlockInput : string :=
  Eval cbv in Markup.q
    "<svg><style></style><style>.a{fill:red;}</style><path class='a' d='M0 0'></svg>".

(** Two style blocks with one rule each and an element for each class. *)
Definition twoBlocksRest : string :=
  Eval cbv in Markup.q
    "<style>.b{stroke:blue;}</style><path class='a'/><path class='b'/></svg>".

(* ================================================================== *)
(** ** The command line (index.js:336-372) *)
(* ================================================================== *)

(** The three functions of Node's [path] module that [main] calls. *)
Class PathModule : Type := {
  dirname : string -> string;
  basename : string -> string -> string;
  pathJoin : string -> string -> string
}.

Definition reactNativeFlag : string := "--react-native".

(** [args.indexOf(flag)] followed by [args.splice(index, 1)]: the list
    without the first occurrence of the flag, [None] when the flag is
    absent. *)
Fixpoint spliceFlag (args : list string) : option (list string) :=
  match args with
  | [] => None
  | a :: r =>
      if String.eqb a reactNativeFlag then Some r
      else match spliceFlag r with
           | Some r' => Some (a :: r')
           | None => None
           end
  end.

Definition usageLine : string :=
  "Usage: node index.js <input-svg-path> [output-svg-path] [--react-native]".

Definition usageFlagLine : string :=
  "  --react-native: Convert SVG to React Native format (capitalize element names)".

(** The part of [main] after the flag has been looked for. *)
Definition dispatch {P : Platform} {N : PathModule}
  (reactNative : bool) (args : list string) : Eff unit :=
  match args with
  | [] => log usageLine ;;; log usageFlagLine
  | inputPath :: more =>
      let suffix := if reactNative then "-rn" else "-inline" in
      let outputPath :=
        match more with
        | String c o :: _ => String c o
        | _ => pathJoin (dirname inputPath)
                        (basename inputPath ".svg" ++ suffix ++ ".svg")
        end in
      convertSvgStylesToInline inputPath outputPath reactNative
  end.

(** [main], on [process.argv.slice(2)]. *)
Definition main {P : Platform} {N : PathModule} (argv : list string)
  : Eff unit :=
  match spliceFlag argv with
  | Some args => dispatch true args
  | None => dispatch false argv
  end.

(* ================================================================== *)
(** ** The earlier copy of the program (index.js:385-475) *)
(* ================================================================== *)

Module Legacy.

(** The body of the [try] block: as in the current program, except that the
    text goes to the loader as it is. *)
Definition structured {P : Platform} (inputPath outputPath : string)
  (reactNative : bool) : Eff unit :=
  svgContent <- readFileSync inputPath ;;
  document <- lift (parseXml svgContent) ;;
  let styleElement := first (Dom.byDescendant "defs" "style" document) in
  match styleElement, reactNative with
  | None, false => log noStyleInDefs
  | _, _ =>
      (match styleElement with
       | None => log noStyleInDefs
       | Some _ => ret tt
       end) ;;;
      styledDocument <-
        (match styleElement with
         | Some element => lift (inlineStyles element document)
         | None => ret document
         end) ;;
      finalDocument <-
        (if reactNative then lift (convertToReactNativeSvg styledDocument)
         else ret styledDocument) ;;
      let modifiedSvg := Markup.serialize finalDocument in
      writeFileSync outputPath modifiedSvg ;;;
      log (successMessage reactNative outputPath)
  end.

(** The entry point: the error is logged and nothing else is tried. *)
Definition convertSvgStylesToInline {P : Platform}
  (inputPath outputPath : string) (reactNative : bool) : Eff unit :=
  tryCatch (structured inputPath outputPath reactNative)
           (log "Error converting SVG:").

End Legacy.

(* ================================================================== *)
(** ** More vocabulary *)
(* ================================================================== *)

(** A computation that writes no file but [outputPath]. *)
Definition writesOnly {A : Type} (outputPath : string) (m : Eff A) : Prop :=
  forall w path,
    path <> outputPath ->
    lookupFile path (files (fst (m w))) = lookupFile path (files w).

Definition notColon (c : ascii) : bool := negb (Ascii.eqb c ":").
Definition notSemicolon (c : ascii) : bool := negb (Ascii.eqb c ";").
Definition notOpenBrace (c : ascii) : bool := negb (Ascii.eqb c "{").

(** Empty, or with a character that is not white space at either end. *)
Definition isTrimmed (s : string) : bool :=
  match s with
  | String c _ => notSpace c && endsNotSpace s
  | EmptyString => true
  end.

(** Names made of word characters only. *)
Definition isWordName (c : string) : bool :=
  Css.nonEmpty c && allChars Js.isWordChar c.

(** A path module for running [main] on concrete arguments: file names
    without directory part. *)
Definition flatPaths : PathModule := {|
  dirname := fun _ => ".";
  basename := fun p ext =>
    match Js.stripPrefix (String.string_of_list_ascii
                            (rev (list_ascii_of_string ext)))
                         (String.string_of_list_ascii
                            (rev (list_ascii_of_string p))) with
    | Some r => String.string_of_list_ascii (rev (list_ascii_of_string r))
    | None => p
    end;
  pathJoin := fun _ f => f
|}.

(** Two views that differ at most in the [class] and [style] attributes. *)
Definition sameButClassStyle (v v' : option View) : Prop :=
  match v, v' with
  | Some (VElement t a k), Some (VElement t' a' k') =>
      t' = t /\ k' = k /\ otherAttrs a' = otherAttrs a
  | Some (VText s), Some (VText s') => s' = s
  | None, None => True
  | _, _ => False
  end.

(** A class token as the replacer of the fallback sees it: not empty, free
    of white space and of double quotes. *)
Definition isToken (t : string) : bool :=
  Css.nonEmpty t && allChars notSpace t && allChars notQuote t.

(** The tags of a node and of its descendant elements, in document order. *)
Fixpoint tagsOf (n : Dom.Node) : list string :=
  match n with
  | Dom.Element t _ kids => t :: flat_map tagsOf kids
  | Dom.Text _ => []
  end.

Definition tagList (d : Dom.Document) : list string := flat_map tagsOf d.

(** A tree without its attributes. *)
Fixpoint erase (n : Dom.Node) : Dom.Node :=
  match n with
  | Dom.Element t _ kids => Dom.Element t [] (map erase kids)
  | Dom.Text s => Dom.Text s
  end.

(** A [defs] container that holds a [style] element and nothing else,
    beside a path with one class, in the SVG namespace. *)
Definition styleInDefs : Dom.Document :=
  [Dom.Element "svg" [("xmlns", Dom.Plain Dom.svgNamespace)]
     [Dom.Element "defs" []
        [Dom.Element "style" [] [Dom.Text ".a{fill:red;}"]];
      Dom.Element "path" [("class", Dom.Plain "a")] []]].


(* ================================================================== *)
(** ** Layer names *)
(* ================================================================== *)

(** The last attribute of a name in a list; a list built by a loader has at
    most one. *)
Definition lastAttribute (name : string) (a : Dom.Attrs) : option Dom.AttrValue :=
  Dom.getAttribute name (rev a).

(** What [g] reads off the elements of a node, in document order. *)
Fixpoint labelsOf {X : Type} (g : string -> Dom.Attrs -> list X) (n : Dom.Node)
  : list X :=
  match n with
  | Dom.Element t a kids => (g t a ++ flat_map (labelsOf g) kids)%list
  | Dom.Text _ => []
  end.

Definition labels {X : Type} (g : string -> Dom.Attrs -> list X)
  (d : Dom.Document) : list X :=
  flat_map (labelsOf g) d.

(** The [data-name] value of an element whose tag passes [keep]. *)
Definition layerName (keep : string -> bool) (t : string) (a : Dom.Attrs)
  : list string :=
  if keep t then
    match lastAttribute "data-name" a with
    | Some v => [Dom.attrText v]
    | None => []
    end
  else [].

(** Tags other than those of the containers the pipeline removes. *)
Definition notContainer (t : string) : bool :=
  negb (String.eqb t "defs") && negb (String.eqb t "style").

(** [x] is a part of [s]. *)
Definition occursIn (x s : string) : Prop :=
  exists pre post, s = (pre ++ x ++ post)%string.

(** A [data-name] attribute as the serializer writes it. *)
Definition dataNameAttribute (v : string) : string :=
  dataNameOpen ++ Markup.escape true v ++ String Markup.dq EmptyString.

(** The style element the structured pipeline picks, if any, holds no
    element. *)
Definition styleHoldsText (d : Dom.Document) : bool :=
  match first (Dom.byDescendant "defs" "style" d) with
  | Some el =>
      match Dom.getNode el d with
      | Some node => (Dom.childElementCount node =? 0)%nat
      | None => true
      end
  | None => true
  end.

(** Whether the structured pipeline gets as far as its write: it returns
    before only when there is no style element and renaming is off. *)
Definition reachesWrite (reactNative : bool) (d : Dom.Document) : bool :=
  reactNative
  || match first (Dom.byDescendant "defs" "style" d) with
     | Some _ => true
     | None => false
     end.

(** A layer name spelt with a space before the equals sign. *)
Definition spacedNameInput : string :=
  Eval cbv in Markup.q "<svg><title data-name ='Layer 1'>x</title><path d='M0 0'/></svg>".

(** A layer name in the spelling the sanitiser looks for. *)
Definition layerNameInput : string :=
  Eval cbv in Markup.q "<svg><title data-name='Layer   1 copy'>x</title><path d='M0 0'/></svg>".
(* ================================================================== *)
(** ** Lists and handles *)
(* ================================================================== *)

Lemma nth_error_replaceNth {A : Type} (l : list A) (i j : nat) (x : A) :
  nth_error (Dom.replaceNth i x l) j =
  if Nat.eqb j i then match nth_error l i with Some _ => Some x | None => None end
  else nth_error l j.
Proof.
  revert i j. induction l as [|y l IH]; intros i j.
  - destruct i, j; simpl; try reflexivity;
      destruct (Nat.eqb j i); reflexivity.
  - destruct i as [|i], j as [|j]; simpl; try reflexivity.
    apply IH.
Qed.

Lemma length_replaceNth {A : Type} (l : list A) (i : nat) (x : A) :
  List.length (Dom.replaceNth i x l) = List.length l.
Proof.
  revert i. induction l as [|y l IH]; intros [|i]; simpl; auto.
Qed.

Lemma map_replaceNth {A B : Type} (g : A -> B) (l : list A) (i : nat) (x y : A) :
  nth_error l i = Some y -> g x = g y ->
  map g (Dom.replaceNth i x l) = map g l.
Proof.
  revert i. induction l as [|z l IH]; intros [|i]; simpl; intros H E;
    try discriminate.
  - injection H as ->. now rewrite E.
  - f_equal. now apply IH.
Qed.

Lemma view_cons (i : nat) (q : Dom.Path) (d : Dom.Document) :
  view (i :: q) d =
  match nth_error d i with
  | Some n =>
      match q with
      | [] => Some (viewOf n)
      | _ :: _ =>
          match n with
          | Dom.Element _ _ kids => view q kids
          | Dom.Text _ => None
          end
      end
  | None => None
  end.
Proof.
  unfold view. simpl. destruct (nth_error d i) as [n|]; [|reflexivity].
  destruct q; [reflexivity|]. destruct n; reflexivity.
Qed.

Lemma updateAt_length f p : forall d d',
  Dom.updateAt f p d = Some d' -> List.length d' = List.length d.
Proof.
  destruct p as [|i q]; simpl; intros d d' H; [discriminate|].
  destruct (nth_error d i) as [[t a kids|s]|]; try discriminate.
  destruct q.
  - destruct (f t a) as [[t' a']|]; [|discriminate].
    injection H as <-. apply length_replaceNth.
  - destruct (Dom.updateAt f (n :: q) kids); [|discriminate].
    injection H as <-. apply length_replaceNth.
Qed.

Lemma updateAt_paths f p : forall d d',
  Dom.updateAt f p d = Some d' -> Dom.elementPaths d' = Dom.elementPaths d.
Proof.
  induction p as [|i q IH]; simpl; intros d d' H; [discriminate|].
  destruct (nth_error d i) as [[t a kids|s]|] eqn:E; try discriminate.
  unfold Dom.elementPaths. f_equal.
  destruct q.
  - destruct (f t a) as [[t' a']|]; [|discriminate].
    injection H as <-. now apply map_replaceNth with (y := Dom.Element t a kids).
  - destruct (Dom.updateAt f (n :: q) kids) as [kids'|] eqn:U; [|discriminate].
    injection H as <-. apply map_replaceNth with (y := Dom.Element t a kids); auto.
    simpl. f_equal. now apply (IH kids kids').
Qed.

Lemma updateAt_view_same f p : forall d d',
  Dom.updateAt f p d = Some d' ->
  exists t a k t' a',
    view p d = Some (VElement t a k) /\ f t a = Some (t', a')
    /\ view p d' = Some (VElement t' a' k).
Proof.
  induction p as [|i q IH]; simpl; intros d d' H; [discriminate|].
  rewrite !view_cons.
  destruct (nth_error d i) as [[t a kids|s]|] eqn:E; try discriminate.
  destruct q.
  - destruct (f t a) as [[t' a']|] eqn:F; [|discriminate].
    injection H as <-. exists t, a, (List.length kids), t', a'.
    rewrite nth_error_replaceNth, Nat.eqb_refl, E. auto.
  - destruct (Dom.updateAt f (n :: q) kids) as [kids'|] eqn:U; [|discriminate].
    injection H as <-.
    rewrite nth_error_replaceNth, Nat.eqb_refl, E.
    now apply IH.
Qed.

Lemma updateAt_view_other f p : forall d d' q,
  Dom.updateAt f p d = Some d' -> q <> p -> view q d' = view q d.
Proof.
  induction p as [|i p IH]; simpl; intros d d' q H Hq; [discriminate|].
  destruct (nth_error d i) as [[t a kids|s]|] eqn:E; try discriminate.
  destruct q as [|j q]; [reflexivity|].
  rewrite !view_cons.
  destruct p as [|i' p].
  - destruct (f t a) as [[t' a']|] eqn:F; [|discriminate].
    injection H as <-. rewrite nth_error_replaceNth.
    destruct (Nat.eqb_spec j i) as [->|Hji]; [|reflexivity].
    rewrite E. destruct q; [congruence|reflexivity].
  - destruct (Dom.updateAt f (i' :: p) kids) as [kids'|] eqn:U; [|discriminate].
    injection H as <-. rewrite nth_error_replaceNth.
    destruct (Nat.eqb_spec j i) as [->|Hji]; [|reflexivity].
    rewrite E. destruct q as [|j' q].
    + simpl. now rewrite (updateAt_length _ _ _ _ U).
    + apply (IH kids kids'); [assumption|congruence].
Qed.

Lemma updateAt_total f p : forall d t a k t' a',
  view p d = Some (VElement t a k) -> f t a = Some (t', a') ->
  exists d', Dom.updateAt f p d = Some d'.
Proof.
  induction p as [|i q IH]; intros d t a k t' a' V F; [discriminate|].
  rewrite view_cons in V. simpl.
  destruct (nth_error d i) as [[t0 a0 kids|s]|] eqn:E; try discriminate.
  - destruct q.
    + simpl in V. injection V as -> -> _. rewrite F. eauto.
    + destruct (IH kids t a k t' a' V F) as [kids' ->]. eauto.
  - destruct q; discriminate.
Qed.

(** Induction over nodes that reaches the children. *)
Lemma Node_forall_ind (Q : Dom.Node -> Prop) :
  (forall s, Q (Dom.Text s)) ->
  (forall t a kids, Forall Q kids -> Q (Dom.Element t a kids)) ->
  forall n, Q n.
Proof.
  intros HT HE. fix IH 1. intros [t a kids|s]; [|apply HT].
  apply HE. induction kids as [|k kids IHk]; constructor; [apply IH|exact IHk].
Qed.

Lemma in_indexed (q : Dom.Path) (ls : list (list Dom.Path)) : forall i,
  In q (Dom.indexed i ls) <->
  exists j ps q', nth_error ls j = Some ps /\ In q' ps /\ q = (i + j) :: q'.
Proof.
  induction ls as [|ps ls IH]; intros i; simpl.
  - split; [tauto|]. intros (j & ps & q' & H & _). destruct j; discriminate.
  - rewrite in_app_iff, in_map_iff, IH. split.
    + intros [(q' & <- & H)|(j & ps' & q' & H1 & H2 & ->)].
      * exists 0, ps, q'. rewrite Nat.add_0_r. auto.
      * exists (S j), ps', q'. rewrite Nat.add_succ_r. auto.
    + intros (j & ps' & q' & H1 & H2 & ->). destruct j as [|j]; simpl in H1.
      * injection H1 as <-. left. exists q'. rewrite Nat.add_0_r. auto.
      * right. exists j, ps', q'. rewrite Nat.add_succ_r. auto.
Qed.

Lemma NoDup_indexed (ls : list (list Dom.Path)) : forall i,
  Forall (@NoDup Dom.Path) ls -> NoDup (Dom.indexed i ls).
Proof.
  induction ls as [|ps ls IH]; intros i H; simpl; [constructor|].
  inversion H as [|? ? Hps Hls]; subst.
  assert (Hmap : NoDup (map (cons i) ps)).
  { clear -Hps. induction Hps as [|x l Hx Hl IHl]; simpl; constructor; auto.
    rewrite in_map_iff. intros (y & E & Hy). injection E as ->. auto. }
  assert (Hdisj : forall q, In q (map (cons i) ps) ->
                            ~ In q (Dom.indexed (S i) ls)).
  { intros q Hq Hq'. apply in_map_iff in Hq as (q' & <- & _).
    apply in_indexed in Hq' as (j & ps' & q'' & _ & _ & E).
    injection E as E _. lia. }
  clear Hps. induction (map (cons i) ps) as [|x l IHl]; simpl.
  - now apply IH.
  - inversion Hmap; subst. constructor.
    + rewrite in_app_iff. intros [?|?]; [auto|]. eapply Hdisj; [left; reflexivity|auto].
    + apply IHl; auto. intros q Hq. apply Hdisj. now right.
Qed.

Lemma nodePaths_NoDup (n : Dom.Node) : NoDup (Dom.nodePaths n).
Proof.
  induction n as [s|t a kids IH] using Node_forall_ind; simpl; [constructor|].
  constructor.
  - rewrite in_indexed. intros (j & ps & q' & _ & _ & E). discriminate.
  - apply NoDup_indexed. now apply Forall_map.
Qed.

Lemma elementPaths_NoDup (d : Dom.Document) : NoDup (Dom.elementPaths d).
Proof.
  apply NoDup_indexed, Forall_map, Forall_forall. intros n _.
  apply nodePaths_NoDup.
Qed.

Lemma in_nodePaths (n : Dom.Node) : forall q,
  In q (Dom.nodePaths n) <->
  match q with
  | [] => exists t a kids, n = Dom.Element t a kids
  | _ :: _ =>
      match n with
      | Dom.Element _ _ kids => isElementView (view q kids)
      | Dom.Text _ => False
      end
  end.
Proof.
  induction n as [s|t a kids IH] using Node_forall_ind; intros q; simpl.
  - destruct q; [|tauto]. split; [tauto|]. intros (t & a & kids & H). discriminate.
  - split.
    + intros [<-|H]; [eauto|].
      apply in_indexed in H as (j & ps & q' & H1 & H2 & ->). simpl.
      rewrite nth_error_map in H1.
      destruct (nth_error kids j) as [k|] eqn:E; [|discriminate].
      injection H1 as <-.
      rewrite Forall_forall in IH.
      apply (IH k (nth_error_In _ _ E)) in H2.
      rewrite view_cons, E. destruct q'.
      * destruct H2 as (t' & a' & kids' & ->). red. simpl. eauto.
      * destruct k; [exact H2|contradiction].
    + destruct q as [|j q']; [auto|]. intros H. right.
      rewrite view_cons in H.
      destruct (nth_error kids j) as [k|] eqn:E;
        [|destruct H as (? & ? & ? & ?); discriminate].
      apply in_indexed. exists j, (Dom.nodePaths k), q'.
      rewrite nth_error_map, E. repeat split.
      rewrite Forall_forall in IH. apply (IH k (nth_error_In _ _ E)).
      destruct q'.
      * destruct H as (t' & a' & k' & H). destruct k; [eauto|discriminate].
      * destruct k; [exact H|]. destruct H as (? & ? & ? & ?); discriminate.
Qed.

(** The handles of a document are exactly the paths that lead to elements. *)
Lemma in_elementPaths (d : Dom.Document) (q : Dom.Path) :
  In q (Dom.elementPaths d) <-> isElementView (view q d).
Proof.
  pose proof (in_nodePaths (Dom.Element "" [] d) q) as H. simpl in H.
  destruct q as [|j q'].
  - split.
    + intros H'. apply in_indexed in H' as (? & ? & ? & _ & _ & E). discriminate.
    + intros (? & ? & ? & E). discriminate.
  - rewrite <- H. split; [now right|]. intros [E|E]; [discriminate|exact E].
Qed.

Lemma memPath_In (q : Dom.Path) (ps : list Dom.Path) :
  memPath q ps = true <-> In q ps.
Proof.
  unfold memPath. rewrite existsb_exists. split.
  - intros (p & Hp & E). destruct (list_eq_dec Nat.eq_dec q p); [now subst|discriminate].
  - intros H. exists q. split; [exact H|].
    destruct (list_eq_dec Nat.eq_dec q q); [reflexivity|contradiction].
Qed.

(** Running [f] over a duplicate-free list of handles changes the view at
    those handles by [f] and nothing else. *)
Lemma forEach_view f (ps : list Dom.Path) : forall d,
  NoDup ps ->
  (forall p, In p ps ->
     exists t a k, view p d = Some (VElement t a k) /\ f t a <> None) ->
  exists d',
    foldM (fun d' e => Dom.updateAt f e d') ps d = Some d'
    /\ Dom.elementPaths d' = Dom.elementPaths d
    /\ forall q, view q d' =
                 if memPath q ps then option_map (applyView f) (view q d)
                 else view q d.
Proof.
  induction ps as [|p ps IH]; intros d ND H; simpl.
  - exists d. auto.
  - inversion ND as [|? ? Hp ND']; subst.
    destruct (H p (or_introl eq_refl)) as (t & a & k & V & F).
    destruct (f t a) as [[t' a']|] eqn:Fe; [clear F|congruence].
    destruct (updateAt_total f p d t a k t' a' V Fe) as [d1 U].
    rewrite U.
    destruct (IH d1 ND') as (d' & R & Pths & Vw).
    { intros p' Hp'. rewrite (updateAt_view_other _ _ _ _ _ U).
      - apply H. now right.
      - intros ->. contradiction. }
    exists d'. split; [exact R|]. split.
    { rewrite Pths. eapply updateAt_paths; eauto. }
    intros q. rewrite Vw.
    destruct (list_eq_dec Nat.eq_dec q p) as [->|Hqp].
    + assert (memPath p ps = false) as ->.
      { destruct (memPath p ps) eqn:M; [|reflexivity].
        apply memPath_In in M. contradiction. }
      destruct (updateAt_view_same _ _ _ _ U)
        as (t0 & a0 & k0 & t1 & a1 & V0 & F0 & V1).
      rewrite V1, V0. simpl. now rewrite F0.
    + rewrite (updateAt_view_other _ _ _ _ _ U Hqp). reflexivity.
Qed.

(* ================================================================== *)
(** ** Attributes, class tokens and style mappings *)
(* ================================================================== *)

Lemma getAttribute_setAttribute_same n v a :
  Dom.getAttribute n (Dom.setAttribute n v a) = Some v.
Proof.
  induction a as [|[m w] a IH]; simpl.
  - now rewrite String.eqb_refl.
  - destruct (String.eqb n m) eqn:E; simpl; rewrite E; auto.
Qed.

Lemma getAttribute_setAttribute_other n m v a :
  n <> m -> Dom.getAttribute n (Dom.setAttribute m v a) = Dom.getAttribute n a.
Proof.
  intros H. induction a as [|[k w] a IH]; simpl.
  - apply String.eqb_neq in H. now rewrite H.
  - destruct (String.eqb m k) eqn:E; simpl.
    + apply String.eqb_eq in E. subst. apply String.eqb_neq in H. now rewrite H.
    + now rewrite IH.
Qed.

Lemma getAttribute_removeAttribute_same n a :
  Dom.getAttribute n (Dom.removeAttribute n a) = None.
Proof.
  induction a as [|[k w] a IH]; simpl; [reflexivity|].
  destruct (String.eqb n k) eqn:E; simpl; [exact IH|now rewrite E].
Qed.

Lemma getAttribute_removeAttribute_other n m a :
  n <> m -> Dom.getAttribute n (Dom.removeAttribute m a) = Dom.getAttribute n a.
Proof.
  intros H. induction a as [|[k w] a IH]; simpl; [reflexivity|].
  destruct (String.eqb m k) eqn:E; simpl.
  - apply String.eqb_eq in E. subst. apply String.eqb_neq in H. now rewrite H.
  - now rewrite IH.
Qed.

Lemma mem_In x l : Dom.mem x l = true <-> In x l.
Proof.
  unfold Dom.mem. rewrite existsb_exists. split.
  - intros (y & H & E). apply String.eqb_eq in E. now subst.
  - intros H. exists x. now rewrite String.eqb_refl.
Qed.

Lemma mem_false x l : Dom.mem x l = false <-> ~ In x l.
Proof.
  rewrite <- mem_In. destruct (Dom.mem x l); split; congruence.
Qed.

Lemma goodToken_cons c t :
  Dom.isAsciiSpace c = false -> (t = EmptyString \/ goodToken t) ->
  goodToken (String c t).
Proof.
  intros Hc [->|[_ H]]; split; try discriminate; simpl; rewrite Hc; auto.
Qed.

Lemma tokens_good s : Forall goodToken (Dom.tokens s).
Proof.
  induction s as [|c r IH]; simpl; [constructor|].
  destruct (Dom.isAsciiSpace c) eqn:Hc; [exact IH|].
  destruct r as [|c' r'].
  - constructor; [|constructor]. apply goodToken_cons; auto.
  - destruct (Dom.isAsciiSpace c') eqn:Hc'.
    + constructor; [|exact IH]. apply goodToken_cons; auto.
    + destruct (Dom.tokens (String c' r')) as [|t ts].
      * constructor; [|constructor]. apply goodToken_cons; auto.
      * inversion IH; subst. constructor; [|assumption].
        apply goodToken_cons; auto.
Qed.

Lemma goodToken_inv c t :
  goodToken (String c t) ->
  Dom.isAsciiSpace c = false /\ (t = EmptyString \/ goodToken t).
Proof.
  intros [_ H]. simpl in H. apply andb_prop in H as [Hc Ht].
  split; [now destruct (Dom.isAsciiSpace c)|].
  destruct t; [now left|right]. split; [discriminate|exact Ht].
Qed.

Lemma tokens_one t : goodToken t -> Dom.tokens t = [t].
Proof.
  induction t as [|c r IH]; intros H; [now destruct H|].
  apply goodToken_inv in H as [Hc [->|Hr]]; simpl; rewrite Hc; [reflexivity|].
  destruct r as [|c' r']; [reflexivity|].
  pose proof (goodToken_inv _ _ Hr) as [Hc' _]. rewrite Hc'.
  now rewrite (IH Hr).
Qed.

Lemma tokens_then_space t rest :
  goodToken t ->
  Dom.tokens (t ++ String " " rest) = t :: Dom.tokens rest.
Proof.
  induction t as [|c r IH]; intros H; [now destruct H|].
  apply goodToken_inv in H as [Hc [->|Hr]]; simpl; rewrite Hc; [reflexivity|].
  destruct r as [|c' r']; [now destruct Hr|].
  pose proof (goodToken_inv _ _ Hr) as [Hc' _].
  change ((String c' r' ++ String " " rest)%string)
    with (String c' (r' ++ String " " rest)%string) at 1.
  cbv iota. rewrite Hc'.
  change (String c' (r' ++ String " " rest)%string)
    with ((String c' r' ++ String " " rest)%string).
  now rewrite (IH Hr).
Qed.

Lemma tokens_join l :
  Forall goodToken l -> Dom.tokens (Js.join " " l) = l.
Proof.
  unfold Js.join. induction l as [|t l IH]; intros H; [reflexivity|].
  inversion H as [|? ? Ht Hl]; subst.
  destruct l as [|u l]; simpl.
  - now apply tokens_one.
  - rewrite tokens_then_space by assumption. f_equal. now apply IH.
Qed.

Lemma orderedSet_In x : forall l seen,
  In x (Dom.orderedSet seen l) <-> In x l /\ ~ In x seen.
Proof.
  induction l as [|y l IH]; intros seen; simpl; [tauto|].
  destruct (Dom.mem y seen) eqn:M.
  - rewrite IH. apply mem_In in M. split; [tauto|].
    intros [[->|H] N]; [contradiction|auto].
  - apply mem_false in M. simpl. rewrite IH. simpl.
    destruct (string_dec y x) as [->|N]; [tauto|]. tauto.
Qed.

Lemma orderedSet_NoDup : forall l seen, NoDup (Dom.orderedSet seen l).
Proof.
  induction l as [|y l IH]; intros seen; simpl; [constructor|].
  destruct (Dom.mem y seen); [apply IH|]. constructor; [|apply IH].
  rewrite orderedSet_In. simpl. tauto.
Qed.

Lemma orderedSet_id : forall l seen,
  NoDup l -> (forall x, In x l -> ~ In x seen) -> Dom.orderedSet seen l = l.
Proof.
  induction l as [|y l IH]; intros seen ND H; simpl; [reflexivity|].
  inversion ND; subst.
  assert (Dom.mem y seen = false) as -> by (apply mem_false, H; now left).
  f_equal. apply IH; [assumption|].
  intros x Hx [<-|Hs]; [contradiction|]. apply (H x); [now right|assumption].
Qed.

Lemma classList_NoDup a : NoDup (Dom.classList a).
Proof.
  unfold Dom.classList. destruct (Dom.getAttribute "class" a); [|constructor].
  apply orderedSet_NoDup.
Qed.

Lemma classList_good a : Forall goodToken (Dom.classList a).
Proof.
  unfold Dom.classList. destruct (Dom.getAttribute "class" a); [|constructor].
  apply Forall_forall. intros x Hx. apply orderedSet_In in Hx as [Hx _].
  pose proof (tokens_good (Dom.attrText a0)) as G.
  rewrite Forall_forall in G. now apply G.
Qed.

(** Writing a token list back and reading it again gives the list. *)
Lemma classList_written l a :
  NoDup l -> Forall goodToken l ->
  Dom.classList (Dom.setAttribute "class" (Dom.Plain (Js.join " " l)) a) = l.
Proof.
  intros ND G. unfold Dom.classList.
  rewrite getAttribute_setAttribute_same. simpl.
  rewrite tokens_join by assumption. apply orderedSet_id; auto.
Qed.

Lemma styleAssign_class n v a :
  Dom.getAttribute "class" (Dom.styleAssign n v a) = Dom.getAttribute "class" a.
Proof.
  unfold Dom.styleAssign. destruct (Dom.recorded n v _); [|reflexivity].
  apply getAttribute_setAttribute_other. discriminate.
Qed.

Lemma styleAssign_style n v a :
  Dom.elementStyle (Dom.styleAssign n v a) = writeStyle (Dom.elementStyle a) (n, v).
Proof.
  unfold Dom.styleAssign, Dom.recorded.
  destruct v as [v|]; simpl; [|reflexivity].
  unfold Dom.elementStyle at 1. now rewrite getAttribute_setAttribute_same.
Qed.

Lemma styleAssign_noText n v a :
  noStyleText (Dom.getAttribute "style" a) = true ->
  noStyleText (Dom.getAttribute "style" (Dom.styleAssign n v a)) = true.
Proof.
  unfold Dom.styleAssign, Dom.recorded. destruct v as [v|]; [|auto].
  intros _. now rewrite getAttribute_setAttribute_same.
Qed.

Lemma styled_style props : forall a,
  Dom.elementStyle
    (fold_left (fun acc prop =>
                  let nv := Css.nameValue prop in
                  Dom.styleAssign (fst nv) (snd nv) acc) props a)
  = fold_left writeStyle (map Css.nameValue props) (Dom.elementStyle a).
Proof.
  induction props as [|p props IH]; intros a; simpl; [reflexivity|].
  rewrite IH, styleAssign_style. now destruct (Css.nameValue p).
Qed.

Lemma styled_noText props : forall a,
  noStyleText (Dom.getAttribute "style" a) = true ->
  noStyleText
    (Dom.getAttribute "style"
       (fold_left (fun acc prop =>
                     let nv := Css.nameValue prop in
                     Dom.styleAssign (fst nv) (snd nv) acc) props a)) = true.
Proof.
  induction props as [|p props IH]; intros a H; simpl; [exact H|].
  apply IH. now apply styleAssign_noText.
Qed.

Lemma classList_ext a b :
  Dom.getAttribute "class" a = Dom.getAttribute "class" b ->
  Dom.classList a = Dom.classList b.
Proof. unfold Dom.classList. now intros ->. Qed.

Lemma plainChar_not_space x :
  isPlainChar x = true -> Dom.isAsciiSpace x = false.
Proof.
  destruct x as [[] [] [] [] [] [] [] []]; vm_compute; congruence.
Qed.

Lemma plainChars_no_space l :
  forallb isPlainChar l = true -> existsb Dom.isAsciiSpace l = false.
Proof.
  induction l as [|x l IH]; simpl; [reflexivity|].
  intros H. apply andb_prop in H as [Hx Hl].
  now rewrite (plainChar_not_space x Hx), IH.
Qed.

Lemma isIdent_plain c : isIdent c = true -> isPlainName c = true.
Proof.
  destruct c; simpl; [discriminate|]. intros H.
  apply andb_prop in H as [H _]. now apply andb_prop in H as [H _].
Qed.

Lemma plainName_token c :
  isPlainName c = true ->
  c <> EmptyString /\ existsb Dom.isAsciiSpace (list_ascii_of_string c) = false.
Proof.
  unfold isPlainName. intros H. apply andb_prop in H as [N F]. split.
  - now destruct c.
  - now apply plainChars_no_space.
Qed.

Lemma classListRemove_ok c a :
  c <> EmptyString ->
  existsb Dom.isAsciiSpace (list_ascii_of_string c) = false ->
  Dom.classListRemove c a =
  match Dom.getAttribute "class" a with
  | Some _ =>
      Some (Dom.setAttribute "class"
              (Dom.Plain (Js.join " "
                            (filter (fun t => negb (String.eqb c t))
                                    (Dom.classList a)))) a)
  | None => Some a
  end.
Proof.
  intros Ne Ns. unfold Dom.classListRemove. rewrite Ns.
  destruct c; [congruence|reflexivity].
Qed.

(** *** What a pass leaves alone *)

Lemma otherAttrs_cons n v a :
  otherAttrs ((n, v) :: a)
  = if isOther n then (n, v) :: otherAttrs a else otherAttrs a.
Proof. reflexivity. Qed.

Lemma otherAttrs_setAttribute n v a :
  n = "class" \/ n = "style" ->
  otherAttrs (Dom.setAttribute n v a) = otherAttrs a.
Proof.
  intros H.
  assert (E : isOther n = false) by (destruct H as [-> | ->]; reflexivity).
  induction a as [|[m w] a IH]; cbn [Dom.setAttribute].
  - now rewrite otherAttrs_cons, E.
  - destruct (String.eqb_spec n m) as [<-|N].
    + now rewrite !otherAttrs_cons, E.
    + now rewrite !otherAttrs_cons, IH.
Qed.

Lemma otherAttrs_removeClass a :
  otherAttrs (Dom.removeAttribute "class" a) = otherAttrs a.
Proof.
  unfold Dom.removeAttribute.
  induction a as [|[m w] a IH]; [reflexivity|].
  cbn [filter fst]. rewrite otherAttrs_cons.
  destruct (String.eqb_spec "class" m) as [<-|N]; cbn [negb].
  - exact IH.
  - now rewrite otherAttrs_cons, IH.
Qed.

Section Applier.

Context {P : Platform}.

Lemma styleWrite_class n v a :
  Dom.getAttribute "class" (styleWrite n v a) = Dom.getAttribute "class" a.
Proof.
  unfold styleWrite. destruct (styleValue n v _); [|reflexivity].
  apply getAttribute_setAttribute_other. discriminate.
Qed.

Lemma styleWrite_other n v a : otherAttrs (styleWrite n v a) = otherAttrs a.
Proof.
  unfold styleWrite. destruct (styleValue n v _); [|reflexivity].
  apply otherAttrs_setAttribute. now right.
Qed.

Lemma writes_class props : forall a,
  Dom.getAttribute "class"
    (fold_left (fun acc prop =>
                  let nv := Css.nameValue prop in
                  styleWrite (fst nv) (snd nv) acc) props a)
  = Dom.getAttribute "class" a.
Proof.
  induction props as [|p props IH]; intros a; simpl; [reflexivity|].
  rewrite IH. apply styleWrite_class.
Qed.

Lemma writes_other props : forall a,
  otherAttrs
    (fold_left (fun acc prop =>
                  let nv := Css.nameValue prop in
                  styleWrite (fst nv) (snd nv) acc) props a)
  = otherAttrs a.
Proof.
  induction props as [|p props IH]; intros a; simpl; [reflexivity|].
  rewrite IH. apply styleWrite_other.
Qed.

(** Where the style object records the writes, the writes are those of
    [Dom.styleAssign]. *)
Lemma writes_recorded props : forall a,
  (forall prop, In prop props -> records (Css.nameValue prop)) ->
  noStyleText (Dom.getAttribute "style" a) = true ->
  fold_left (fun acc prop =>
               let nv := Css.nameValue prop in
               styleWrite (fst nv) (snd nv) acc) props a
  = fold_left (fun acc prop =>
                 let nv := Css.nameValue prop in
                 Dom.styleAssign (fst nv) (snd nv) acc) props a.
Proof.
  induction props as [|p props IH]; intros a R N; simpl; [reflexivity|].
  assert (E : styleWrite (fst (Css.nameValue p)) (snd (Css.nameValue p)) a
              = Dom.styleAssign (fst (Css.nameValue p)) (snd (Css.nameValue p)) a).
  { unfold styleWrite, Dom.styleAssign.
    now rewrite (R p (or_introl eq_refl) _ N). }
  rewrite E. apply IH.
  - intros prop Hp. apply R. now right.
  - now apply styleAssign_noText.
Qed.

(** The loop body on an element with a style object. *)
Lemma applyToElement_true cs c t a :
  applyToElement true cs c t a =
  match Obj.get c cs with
  | Some decl =>
      match Dom.classListRemove c
              (fold_left (fun acc prop =>
                            let nv := Css.nameValue prop in
                            styleWrite (fst nv) (snd nv) acc)
                         (Css.styleProps decl) a) with
      | Some a' =>
          Some (t, if (List.length (Dom.classList a') =? 0)%nat
                   then Dom.removeAttribute "class" a' else a')
      | None => None
      end
  | None => None
  end.
Proof.
  unfold applyToElement. destruct (Obj.get c cs) as [decl|]; [|reflexivity].
  destruct (Css.styleProps decl); reflexivity.
Qed.

(** Without a style object the loop body throws, unless the declaration
    yields no fragment; then it does what it does with one. *)
Lemma applyToElement_false cs c t a :
  applyToElement false cs c t a =
  match Obj.get c cs with
  | Some decl =>
      match Css.styleProps decl with
      | [] => applyToElement true cs c t a
      | _ :: _ => None
      end
  | None => None
  end.
Proof.
  unfold applyToElement. destruct (Obj.get c cs) as [decl|]; [|reflexivity].
  destruct (Css.styleProps decl); reflexivity.
Qed.

(** Whatever the loop body does, it keeps the tag and the attributes other
    than [class] and [style]. *)
Lemma applyToElement_frame hs cs c t a t' a' :
  applyToElement hs cs c t a = Some (t', a') ->
  t' = t /\ otherAttrs a' = otherAttrs a.
Proof.
  assert (T : applyToElement true cs c t a = Some (t', a') ->
              t' = t /\ otherAttrs a' = otherAttrs a).
  { rewrite applyToElement_true.
    destruct (Obj.get c cs) as [decl|]; [|discriminate].
    set (styled := fold_left _ (Css.styleProps decl) a).
    assert (S : otherAttrs styled = otherAttrs a) by apply writes_other.
    destruct (Dom.classListRemove c styled) as [a1|] eqn:R; [|discriminate].
    assert (S1 : otherAttrs a1 = otherAttrs styled).
    { unfold Dom.classListRemove in R. destruct c; [discriminate|].
      destruct (existsb _ _); [discriminate|].
      destruct (Dom.getAttribute "class" styled); injection R as <-;
        [|reflexivity].
      apply otherAttrs_setAttribute. now left. }
    intros E. injection E as <- <-. split; [reflexivity|].
    destruct (_ =? 0)%nat; [rewrite otherAttrs_removeClass|]; congruence. }
  destruct hs; [exact T|]. rewrite applyToElement_false.
  destruct (Obj.get c cs) as [decl|]; [|discriminate].
  destruct (Css.styleProps decl); [exact T|discriminate].
Qed.

(** The loop body on an element that has a style object and carries the
    class: it does not throw, removes exactly that token, drops the class
    attribute when no token is left, and leaves in the style attribute what
    the writes of the declaration made of it. *)
Lemma applyToElement_spec cs c decl t a :
  isIdent c = true -> Obj.get c cs = Some decl -> Dom.hasClass c a = true ->
  exists a',
    applyToElement true cs c t a = Some (t, a')
    /\ Dom.classList a' = filter (fun x => negb (String.eqb c x)) (Dom.classList a)
    /\ Dom.getAttribute "style" a'
       = Dom.getAttribute "style"
           (fold_left (fun acc prop =>
                         let nv := Css.nameValue prop in
                         styleWrite (fst nv) (snd nv) acc)
                      (Css.styleProps decl) a)
    /\ (Dom.classList a' = [] -> Dom.getAttribute "class" a' = None).
Proof.
  intros Hc Hg Hh. rewrite applyToElement_true, Hg.
  set (styled := fold_left _ (Css.styleProps decl) a).
  assert (Cs : Dom.getAttribute "class" styled = Dom.getAttribute "class" a)
    by apply writes_class.
  destruct (plainName_token c (isIdent_plain c Hc)) as [Ne Ns].
  rewrite (classListRemove_ok c styled Ne Ns).
  assert (CL : Dom.classList styled = Dom.classList a) by now apply classList_ext.
  destruct (Dom.getAttribute "class" styled) as [v|] eqn:Ga.
  2:{ exfalso. unfold Dom.hasClass, Dom.classList in Hh.
      rewrite <- Cs in Hh. discriminate. }
  remember (filter (fun x => negb (String.eqb c x)) (Dom.classList styled))
    as rest eqn:Er.
  assert (NDr : NoDup rest) by (subst rest; apply NoDup_filter, classList_NoDup).
  assert (Gr : Forall goodToken rest).
  { apply Forall_forall. intros x Hx. subst rest. apply filter_In in Hx as [Hx _].
    pose proof (classList_good styled) as G. rewrite Forall_forall in G. auto. }
  pose proof (classList_written rest styled NDr Gr) as W.
  remember (Dom.setAttribute "class" (Dom.Plain (Js.join " " rest)) styled)
    as a1 eqn:Ea1.
  assert (S1 : Dom.getAttribute "style" a1 = Dom.getAttribute "style" styled).
  { subst a1. apply getAttribute_setAttribute_other. discriminate. }
  rewrite CL in Er. rewrite W.
  destruct rest as [|r0 rest']; cbn [List.length Nat.eqb].
  - eexists. split; [reflexivity|]. split; [|split].
    + unfold Dom.classList at 1. rewrite getAttribute_removeAttribute_same.
      exact Er.
    + rewrite <- S1. apply getAttribute_removeAttribute_other. discriminate.
    + intros _. apply getAttribute_removeAttribute_same.
  - eexists. split; [reflexivity|]. split; [|split].
    + now rewrite W.
    + exact S1.
    + rewrite W. discriminate.
Qed.

Lemma applyToElement_tag cs c t a :
  applyToElement true cs c t a =
  option_map (fun r => (t, snd r)) (applyToElement true cs c EmptyString a).
Proof.
  rewrite !applyToElement_true. destruct (Obj.get c cs); [|reflexivity].
  destruct (Dom.classListRemove c _); reflexivity.
Qed.

Lemma mem_filter_neq c x l :
  x <> c ->
  Dom.mem x (filter (fun y => negb (String.eqb c y)) l) = Dom.mem x l.
Proof.
  intros H. destruct (Dom.mem x l) eqn:M.
  - apply mem_In. apply mem_In in M. apply filter_In. split; [exact M|].
    apply negb_true_iff, String.eqb_neq. congruence.
  - apply mem_false. apply mem_false in M. rewrite filter_In. tauto.
Qed.

Lemma filter_id_notin c l :
  ~ In c l -> filter (fun y => negb (String.eqb c y)) l = l.
Proof.
  induction l as [|y l IH]; simpl; intros H; [reflexivity|].
  destruct (String.eqb_spec c y) as [->|N]; simpl; [tauto|].
  f_equal. tauto.
Qed.

(** What the pass for one class does to the classes of one element. *)
Lemma stepAttrs_spec cs c decl a :
  isIdent c = true -> Obj.get c cs = Some decl ->
  Dom.classList (stepAttrs cs c a)
  = filter (fun x => negb (String.eqb c x)) (Dom.classList a)
  /\ (Dom.hasClass c a = true -> Dom.classList (stepAttrs cs c a) = [] ->
      Dom.getAttribute "class" (stepAttrs cs c a) = None)
  /\ (Dom.hasClass c a = false -> stepAttrs cs c a = a).
Proof.
  intros Hc Hg. unfold stepAttrs.
  destruct (Dom.hasClass c a) eqn:Hh.
  - destruct (applyToElement_spec cs c decl EmptyString a Hc Hg Hh)
      as (a' & -> & CL & ST & RM). repeat split; auto. discriminate.
  - repeat split; auto; try discriminate.
    symmetry. apply filter_id_notin. now apply mem_false.
Qed.

(** What the pass for one class does to the style of one element that came
    without a style text, where the style object records the writes. *)
Lemma stepAttrs_style cs c decl a :
  isIdent c = true -> Obj.get c cs = Some decl ->
  noStyleText (Dom.getAttribute "style" a) = true ->
  (Dom.hasClass c a = true ->
   forall nv, In nv (Css.declarations decl) -> records nv) ->
  Dom.elementStyle (stepAttrs cs c a)
  = fold_left writeStyle
      (if Dom.hasClass c a then Css.declarations decl else [])
      (Dom.elementStyle a)
  /\ noStyleText (Dom.getAttribute "style" (stepAttrs cs c a)) = true.
Proof.
  intros Hc Hg N R. unfold stepAttrs.
  destruct (Dom.hasClass c a) eqn:Hh; [|split; [reflexivity|exact N]].
  destruct (applyToElement_spec cs c decl EmptyString a Hc Hg Hh)
    as (a' & -> & _ & ST & _).
  rewrite writes_recorded in ST; [|intros prop Hp; apply R; auto;
                                   unfold Css.declarations; now apply in_map|exact N].
  split.
  - unfold Dom.elementStyle at 1. rewrite ST.
    change (Dom.styleBlock (Dom.getAttribute "style" ?x))
      with (Dom.elementStyle x).
    apply styled_style.
  - rewrite ST. now apply styled_noText.
Qed.

Lemma stepsAttrs_noop cs ks : forall a,
  (forall c, In c ks -> Dom.hasClass c a = false) -> stepsAttrs cs ks a = a.
Proof.
  unfold stepsAttrs. induction ks as [|c ks IH]; intros a H; simpl; [reflexivity|].
  assert (E : stepAttrs cs c a = a).
  { unfold stepAttrs. now rewrite (H c (or_introl eq_refl)). }
  rewrite E. apply IH. intros c' Hc'. apply H. now right.
Qed.

Lemma filter_filter_mem c ks l :
  filter (fun t => negb (Dom.mem t ks))
         (filter (fun x => negb (String.eqb c x)) l)
  = filter (fun t => negb (Dom.mem t (c :: ks))) l.
Proof.
  induction l as [|y l IH]; simpl; [reflexivity|].
  rewrite (String.eqb_sym y c).
  destruct (String.eqb c y); simpl; [exact IH|].
  destruct (Dom.mem y ks); simpl; [exact IH|now rewrite IH].
Qed.

(** What the whole loop over the class names does to one element: to its
    classes on any platform, and to its style where the element came
    without a style text and the style object records the writes. *)
Lemma stepsAttrs_spec cs ks : forall a,
  NoDup ks ->
  (forall c, In c ks -> isIdent c = true /\ exists decl, Obj.get c cs = Some decl) ->
  Dom.classList (stepsAttrs cs ks a)
  = filter (fun t => negb (Dom.mem t ks)) (Dom.classList a)
  /\ ((exists c, In c ks /\ Dom.hasClass c a = true) ->
      Dom.classList (stepsAttrs cs ks a) = [] ->
      Dom.getAttribute "class" (stepsAttrs cs ks a) = None)
  /\ (noStyleText (Dom.getAttribute "style" a) = true ->
      (forall nv, In nv (writesFor cs ks a) -> records nv) ->
      Dom.elementStyle (stepsAttrs cs ks a)
      = fold_left writeStyle (writesFor cs ks a) (Dom.elementStyle a)).
Proof.
  induction ks as [|c ks IH]; intros a ND H.
  - unfold stepsAttrs, writesFor. simpl. repeat split.
    + induction (Dom.classList a); simpl; congruence.
    + intros (c & [] & _).
  - inversion ND as [|? ? Hc ND']; subst.
    destruct (H c (or_introl eq_refl)) as (Ic & decl & Gc).
    destruct (stepAttrs_spec cs c decl a Ic Gc) as (CL & RM & NO).
    pose proof (stepAttrs_style cs c decl a Ic Gc) as ST.
    set (a1 := stepAttrs cs c a) in *.
    assert (H' : forall c', In c' ks ->
               isIdent c' = true /\ exists decl, Obj.get c' cs = Some decl)
      by (intros c' Hc'; apply H; now right).
    destruct (IH a1 ND' H') as (CL' & RM' & ST').
    change (stepsAttrs cs (c :: ks) a) with (stepsAttrs cs ks a1).
    assert (Same : forall c', In c' ks -> Dom.hasClass c' a1 = Dom.hasClass c' a).
    { intros c' Hc'. unfold Dom.hasClass. rewrite CL. apply mem_filter_neq.
      intros ->. contradiction. }
    assert (W : writesFor cs ks a1 = writesFor cs ks a).
    { unfold writesFor. f_equal. apply filter_ext_in. exact Same. }
    assert (WC : writesFor cs (c :: ks) a
                 = ((if Dom.hasClass c a then Css.declarations decl else [])
                    ++ writesFor cs ks a)%list).
    { unfold writesFor. simpl. destruct (Dom.hasClass c a); simpl.
      - now rewrite Gc.
      - reflexivity. }
    split; [|split].
    + rewrite CL', CL. apply filter_filter_mem.
    + intros (c' & Hin & Hh) E.
      destruct (existsb (fun k => Dom.hasClass k a1) ks) eqn:Ex.
      * apply existsb_exists in Ex as (k & Hk & Hk'). apply RM'; eauto.
      * assert (No : forall k, In k ks -> Dom.hasClass k a1 = false).
        { intros k Hk. destruct (Dom.hasClass k a1) eqn:E1; [|reflexivity].
          assert (existsb (fun k => Dom.hasClass k a1) ks = true)
            by (apply existsb_exists; eauto). congruence. }
        rewrite (stepsAttrs_noop cs ks a1 No) in *.
        destruct Hin as [<-|Hin]; [auto|].
        rewrite <- (Same c' Hin), (No c' Hin) in Hh. discriminate.
    + intros N R. rewrite WC in R.
      destruct ST as [ST N1]; [exact N| |].
      { intros Hh nv Hnv. apply R, in_or_app. left. now rewrite Hh. }
      rewrite ST'; [|exact N1|].
      * now rewrite ST, W, WC, fold_left_app.
      * intros nv Hnv. apply R, in_or_app. right. now rewrite <- W.
Qed.

End Applier.

(* ================================================================== *)
(** ** The style applier on a document *)
(* ================================================================== *)

Lemma getElement_view p d :
  Dom.getElement p d =
  match view p d with
  | Some (VElement t a _) => Some (t, a)
  | _ => None
  end.
Proof.
  unfold Dom.getElement, view. destruct (Dom.getNode p d) as [[t a k|s]|]; reflexivity.
Qed.

Lemma in_byClassName c d q :
  In q (Dom.byClassName c d) <->
  exists t a k, view q d = Some (VElement t a k) /\ Dom.hasClass c a = true.
Proof.
  unfold Dom.byClassName. rewrite filter_In, in_elementPaths, getElement_view.
  split.
  - intros [(t & a & k & E) H]. rewrite E in H. eauto.
  - intros (t & a & k & E & H). rewrite E. split; [red; eauto|exact H].
Qed.

Section Passes.

Context {P : Platform}.

(** A pass never changes which elements have a style object. *)
Lemma forEach_styleObject cs c (ps : list Dom.Path) : forall d d',
  foldM (fun d' e =>
           Dom.updateAt (applyToElement (styleObject e d') cs c) e d') ps d
  = Some d' ->
  forall q, styleObject q d' = styleObject q d.
Proof.
  induction ps as [|p ps IH]; intros d d' H q; simpl in H.
  - now injection H as <-.
  - destruct (Dom.updateAt _ p d) as [d1|] eqn:U; [|discriminate].
    rewrite (IH d1 d' H q).
    apply (styleObject_frame _ _ _ _ _
             (applyToElement_frame (styleObject p d) cs c) U).
Qed.

(** On elements that all have a style object, the pass is the pass with a
    style object at hand. *)
Lemma forEach_style cs c (ps : list Dom.Path) : forall d,
  (forall p, In p ps -> styleObject p d = true) ->
  foldM (fun d' e =>
           Dom.updateAt (applyToElement (styleObject e d') cs c) e d') ps d
  = foldM (fun d' e => Dom.updateAt (applyToElement true cs c) e d') ps d.
Proof.
  induction ps as [|p ps IH]; intros d H; simpl; [reflexivity|].
  rewrite (H p (or_introl eq_refl)).
  destruct (Dom.updateAt (applyToElement true cs c) p d) as [d1|] eqn:U;
    [|reflexivity].
  apply IH. intros p' Hp'.
  rewrite (styleObject_frame _ _ _ _ _ (applyToElement_frame true cs c) U).
  apply H. now right.
Qed.

(** The pass for one class name changes every element as [stepView] says
    and leaves the shape of the tree alone. *)
Lemma applyClass_view cs c decl d :
  isIdent c = true -> Obj.get c cs = Some decl ->
  (forall q, In q (Dom.byClassName c d) -> styleObject q d = true) ->
  exists d',
    applyClass cs d c = Some d'
    /\ Dom.elementPaths d' = Dom.elementPaths d
    /\ (forall q, styleObject q d' = styleObject q d)
    /\ forall q, view q d' = option_map (stepView cs c) (view q d).
Proof.
  intros Hc Hg Hs. unfold applyClass. rewrite (selectClass_ident c d Hc).
  assert (SO : forall d', foldM (fun d' e =>
                 Dom.updateAt (applyToElement (styleObject e d') cs c) e d')
                 (Dom.byClassName c d) d = Some d' ->
               forall q, styleObject q d' = styleObject q d)
    by apply forEach_styleObject.
  rewrite (forEach_style cs c _ d Hs) in *.
  destruct (forEach_view (applyToElement true cs c) (Dom.byClassName c d) d)
    as (d' & R & Pths & Vw).
  - apply NoDup_filter, elementPaths_NoDup.
  - intros p Hp. apply in_byClassName in Hp as (t & a & k & V & Hh).
    exists t, a, k. split; [exact V|].
    destruct (applyToElement_spec cs c decl t a Hc Hg Hh) as (a' & -> & _).
    discriminate.
  - exists d'. split; [exact R|]. split; [exact Pths|].
    split; [exact (SO d' R)|].
    intros q. rewrite Vw.
    destruct (view q d) as [[t a k|s]|] eqn:V; simpl.
    + unfold stepAttrs. destruct (Dom.hasClass c a) eqn:Hh.
      * assert (M : memPath q (Dom.byClassName c d) = true).
        { apply memPath_In, in_byClassName. eauto. }
        rewrite M. simpl. rewrite applyToElement_tag.
        destruct (applyToElement_spec cs c decl EmptyString a Hc Hg Hh)
          as (a' & -> & _). reflexivity.
      * assert (M : memPath q (Dom.byClassName c d) = false).
        { destruct (memPath q (Dom.byClassName c d)) eqn:M; [|reflexivity].
          apply memPath_In, in_byClassName in M as (t' & a' & k' & V' & Hh').
          congruence. }
        now rewrite M.
    + now destruct (memPath q (Dom.byClassName c d)).
    + now destruct (memPath q (Dom.byClassName c d)).
Qed.

Lemma stepsView_cons cs c ks v :
  stepsView cs (c :: ks) v = stepsView cs ks (stepView cs c v).
Proof. destruct v; reflexivity. Qed.

Lemma applyClasses_view cs ks : forall d,
  (forall c, In c ks -> isIdent c = true /\ exists decl, Obj.get c cs = Some decl) ->
  (forall q t a k,
     view q d = Some (VElement t a k) ->
     (exists c, In c ks /\ Dom.hasClass c a = true) -> styleObject q d = true) ->
  exists d',
    foldM (applyClass cs) ks d = Some d'
    /\ Dom.elementPaths d' = Dom.elementPaths d
    /\ forall q, view q d' = option_map (stepsView cs ks) (view q d).
Proof.
  induction ks as [|c ks IH]; intros d H S; simpl.
  - exists d. repeat split. intros q. now destruct (view q d) as [[]|].
  - destruct (H c (or_introl eq_refl)) as (Ic & decl & Gc).
    destruct (applyClass_view cs c decl d Ic Gc) as (d1 & -> & P1 & S1 & V1).
    { intros q Hq. apply in_byClassName in Hq as (t & a & k & V & Hh).
      apply (S q t a k V). exists c. split; [now left|exact Hh]. }
    destruct (IH d1) as (d' & R & P' & V').
    { intros c' Hc'. apply H. now right. }
    { intros q t a1 k V (c' & Hc' & Hh). rewrite S1. rewrite V1 in V.
      destruct (view q d) as [[t0 a0 k0|s]|] eqn:V0; try discriminate.
      simpl in V. injection V as <- <- <-.
      apply (S q t0 a0 k0 V0). exists c'. split; [now right|].
      destruct (stepAttrs_spec cs c decl a0 Ic Gc) as (CL & _).
      unfold Dom.hasClass in *. rewrite CL in Hh.
      apply mem_In in Hh. apply filter_In in Hh as [Hh _]. now apply mem_In. }
    exists d'. split; [exact R|]. split; [congruence|].
    intros q. rewrite V', V1. destruct (view q d) as [v|]; simpl; [|reflexivity].
    now rewrite stepsView_cons.
Qed.

End Passes.

(** *** Objects *)

Lemma get_put_same k v o : Obj.get k (Obj.put k v o) = Some v.
Proof.
  induction o as [|[k' v'] o IH]; simpl.
  - now rewrite String.eqb_refl.
  - destruct (String.eqb k k') eqn:E; simpl.
    + now rewrite String.eqb_refl.
    + now rewrite E.
Qed.

Lemma get_put_other k k' v o :
  k <> k' -> Obj.get k (Obj.put k' v o) = Obj.get k o.
Proof.
  intros H. induction o as [|[j w] o IH]; simpl.
  - apply String.eqb_neq in H. now rewrite H.
  - destruct (String.eqb k' j) eqn:E; simpl.
    + apply String.eqb_eq in E. subst. apply String.eqb_neq in H. now rewrite H.
    + now rewrite IH.
Qed.

Lemma in_keys_put j k v o :
  In j (map fst (Obj.put k v o)) <-> j = k \/ In j (map fst o).
Proof.
  induction o as [|[k' v'] o IH]; simpl.
  - intuition.
  - destruct (String.eqb_spec k k') as [->|N]; simpl.
    + intuition.
    + rewrite IH. intuition.
Qed.

Lemma NoDup_put k v o :
  NoDup (map fst o) -> NoDup (map fst (Obj.put k v o)).
Proof.
  induction o as [|[k' v'] o IH]; simpl; intros H.
  - constructor; [tauto|constructor].
  - inversion H; subst. destruct (String.eqb_spec k k') as [->|N]; simpl.
    + now constructor.
    + constructor; [|auto]. rewrite in_keys_put. intros [->|?]; tauto.
Qed.

Lemma get_set_same k v o :
  k <> "__proto__" -> Obj.get k (Obj.set k v o) = Some v.
Proof.
  intros H. unfold Obj.set. apply String.eqb_neq in H. rewrite H.
  apply get_put_same.
Qed.

Lemma get_set_other k k' v o :
  k <> k' -> Obj.get k (Obj.set k' v o) = Obj.get k o.
Proof.
  intros H. unfold Obj.set. destruct (String.eqb k' "__proto__"); [reflexivity|].
  now apply get_put_other.
Qed.

(** The prototype accessor never becomes a key. *)
Lemma in_keys_set j k v o :
  In j (map fst (Obj.set k v o)) <->
  (k <> "__proto__" /\ j = k) \/ In j (map fst o).
Proof.
  unfold Obj.set. destruct (String.eqb_spec k "__proto__") as [->|N].
  - tauto.
  - rewrite in_keys_put. tauto.
Qed.

Lemma NoDup_set k v o :
  NoDup (map fst o) -> NoDup (map fst (Obj.set k v o)).
Proof.
  unfold Obj.set. destruct (String.eqb k "__proto__"); [auto|apply NoDup_put].
Qed.

Lemma NoDup_set_all rs : forall o,
  NoDup (map fst o) ->
  NoDup (map fst (fold_left (fun o r => Obj.set (fst r) (snd r) o) rs o)).
Proof.
  induction rs as [|r rs IH]; intros o H; simpl; [exact H|].
  apply IH, NoDup_set, H.
Qed.

Lemma classStyles_NoDup text : NoDup (map fst (Css.classStyles text)).
Proof. apply NoDup_set_all. constructor. Qed.

Lemma get_in k o : In k (map fst o) -> exists v, Obj.get k o = Some v.
Proof.
  induction o as [|[k' v'] o IH]; simpl; [tauto|].
  destruct (String.eqb_spec k k') as [->|N]; [eauto|].
  intros [E|H]; [congruence|auto].
Qed.

Lemma get_Some_in k v o : Obj.get k o = Some v -> In k (map fst o).
Proof.
  induction o as [|[k' v'] o IH]; simpl; [discriminate|].
  destruct (String.eqb_spec k k') as [->|N]; [now left|]. right. auto.
Qed.

Lemma ident_not_index k : isIdent k = true -> Obj.arrayIndex k = None.
Proof.
  destruct k as [|c r]; simpl; [reflexivity|]. intros H.
  apply andb_prop in H as [H _]. apply andb_prop in H as [_ D].
  apply negb_true_iff in D.
  destruct (Ascii.eqb_spec c "0") as [->|_]; [discriminate|].
  now rewrite D.
Qed.

Lemma named_keys ks :
  (forall k, In k ks -> isIdent k = true) ->
  (map snd (Obj.indexKeys ks) ++ filter Obj.isNamedKey ks)%list = ks.
Proof.
  induction ks as [|k ks IH]; intros H; [reflexivity|].
  simpl. unfold Obj.isNamedKey at 1.
  rewrite (ident_not_index k) by (apply H; now left).
  assert (E : Obj.indexKeys ks = []).
  { clear IH. induction ks as [|j ks IHk]; [reflexivity|]. simpl.
    rewrite (ident_not_index j) by (apply H; right; now left).
    apply IHk. intros x [<-|Hx]; apply H; [now left|right; now right]. }
  rewrite E in *. simpl in *. f_equal. apply IH. intros; apply H; now right.
Qed.

(** With no array-index key, [Object.keys] is the insertion order. *)
Lemma keys_named o :
  (forall k, In k (map fst o) -> isIdent k = true) -> Obj.keys o = map fst o.
Proof. apply named_keys. Qed.

(** *** Style mappings *)

Lemma getProperty_setProperty p n v m :
  Dom.getProperty p (Dom.setProperty n v m) =
  if String.eqb p n then Some v else Dom.getProperty p m.
Proof.
  induction m as [|[n' v'] m IH]; simpl.
  - reflexivity.
  - destruct (String.eqb_spec n n') as [->|N]; simpl.
    + now destruct (String.eqb p n').
    + rewrite IH. destruct (String.eqb_spec p n') as [->|N'];
        [|reflexivity].
      destruct (String.eqb_spec n' n); congruence.
Qed.

Lemma getProperty_written p ws : forall m,
  Dom.getProperty p (fold_left writeStyle ws m)
  = written p ws (Dom.getProperty p m).
Proof.
  unfold written. induction ws as [|[n [v|]] ws IH]; intros m; simpl; auto.
  rewrite IH. unfold writeStyle. simpl. now rewrite getProperty_setProperty.
Qed.

Lemma written_app p ws1 ws2 init :
  written p (ws1 ++ ws2)%list init = written p ws2 (written p ws1 init).
Proof. apply fold_left_app. Qed.

Lemma written_Some p ws : forall v, exists v', written p ws (Some v) = Some v'.
Proof.
  unfold written. induction ws as [|[n [w|]] ws IH]; intros v; simpl; eauto.
  destruct (String.eqb p n); apply IH.
Qed.

(** A property that is written ends up present. *)
Lemma written_present p v ws init :
  In (p, Some v) ws -> exists v', written p ws init = Some v'.
Proof.
  intros H. apply in_split in H as (ws1 & ws2 & ->).
  rewrite written_app. change ((p, Some v) :: ws2) with ([(p, Some v)] ++ ws2)%list.
  rewrite written_app. unfold written at 2. simpl. rewrite String.eqb_refl.
  apply written_Some.
Qed.

(** When all the writes to a property carry one value, that is its value. *)
Lemma written_agree p v ws : forall init,
  (init = Some v \/ In (p, Some v) ws) ->
  (forall v2, In (p, Some v2) ws -> v2 = v) ->
  written p ws init = Some v.
Proof.
  unfold written. induction ws as [|[n [w|]] ws IH]; intros init H A; simpl.
  - destruct H as [H|[]]. exact H.
  - destruct (String.eqb_spec p n) as [<-|N].
    + apply IH; [left|].
      * f_equal. apply A. now left.
      * intros v2 H2. apply A. now right.
    + apply IH.
      * destruct H as [H|[E|H]]; [now left|congruence|now right].
      * intros v2 H2. apply A. now right.
  - apply IH.
    + destruct H as [H|[E|H]]; [now left|congruence|now right].
    + intros v2 H2. apply A. now right.
Qed.

Lemma in_writesFor cs ks a c decl nv :
  In c ks -> Dom.hasClass c a = true -> Obj.get c cs = Some decl ->
  In nv (Css.declarations decl) -> In nv (writesFor cs ks a).
Proof.
  intros Hin Hh Hg Hd. unfold writesFor. apply in_flat_map.
  exists c. split; [now apply filter_In|]. now rewrite Hg.
Qed.

(* ================================================================== *)
(** ** C1: style completeness of the structured pipeline *)
(* ================================================================== *)

Lemma styleObjectsFor_spec {P : Platform} ks d :
  styleObjectsFor ks d = true ->
  forall q t a k,
    view q d = Some (VElement t a k) ->
    (exists c, In c ks /\ Dom.hasClass c a = true) -> styleObject q d = true.
Proof.
  unfold styleObjectsFor. rewrite forallb_forall.
  intros H q t a k V (c & Hc & Hh).
  assert (I : In q (Dom.elementPaths d)) by (apply in_elementPaths; red; eauto).
  specialize (H q I). rewrite getElement_view, V in H.
  assert (E : existsb (fun c => Dom.hasClass c a) ks = true)
    by (apply existsb_exists; eauto).
  now rewrite E in H.
Qed.

(** The class map never holds the key [__proto__]. *)
Lemma classStyles_no_proto text :
  ~ In "__proto__" (map fst (Css.classStyles text)).
Proof.
  unfold Css.classStyles.
  assert (G : forall rs o, ~ In "__proto__" (map fst o) ->
              ~ In "__proto__"
                  (map fst (fold_left (fun o r => Obj.set (fst r) (snd r) o)
                                      rs o))).
  { induction rs as [|r rs IH]; intros o H; simpl; [exact H|].
    apply IH. rewrite in_keys_set. intros [[N E]|I]; [|exact (H I)].
    apply N. now rewrite <- E. }
  apply G. intros [].
Qed.

(** C1, counterexample.  Four runs of the style applier on a drawing with
    one path element.  (1) The style text declares class [a] twice: the
    pair (fill, red) is declared for [a] and the element carries [a], yet
    afterwards its inline style has no [fill].  (2) The drawing is in no
    namespace, so its elements have no style object: the applier throws at
    its first write and there is no transformed element at all.  (3) The
    declared property is one the style object does not know: the write is
    dropped and the element ends without inline style.  (4) The declared
    class is [__proto__]: the class map gets no key for it and the element
    keeps its class. *)
Lemma style_completeness_counterexample :
  (In ("a", "fill:red;") (Css.rules ".a{fill:red;}.a{stroke:blue;}")
   /\ In ("fill", Some "red") (Css.declarations "fill:red;")
   /\ exists a',
        applyClassStyles (P := referencePlatform)
          (Css.classStyles ".a{fill:red;}.a{stroke:blue;}")
          (svgPathWithClass "a")
        = Some [Dom.Element "svg" [("xmlns", Dom.Plain Dom.svgNamespace)]
                  [Dom.Element "path" a' []]]
        /\ Dom.getProperty "fill" (Dom.elementStyle a') = None)
  /\ applyClassStyles (P := referencePlatform)
       (Css.classStyles ".a{fill:red;}") (pathWithClass "a") = None
  /\ applyClassStyles (P := referencePlatform)
       (Css.classStyles ".a{colour:red;}") (svgPathWithClass "a")
     = Some [Dom.Element "svg" [("xmlns", Dom.Plain Dom.svgNamespace)]
               [Dom.Element "path" [("d", Dom.Plain "M0 0")] []]]
  /\ (Css.rules ".__proto__{fill:red;}" = [("__proto__", "fill:red;")]
      /\ applyClassStyles (P := referencePlatform)
           (Css.classStyles ".__proto__{fill:red;}")
           (svgPathWithClass "__proto__")
         = Some (svgPathWithClass "__proto__")).
Proof.
  split; [|split; [|split; [|split]]]; try (vm_compute; reflexivity).
  split; [vm_compute; now left|]. split; [vm_compute; now left|].
  exists [("d", Dom.Plain "M0 0"); ("style", Dom.Block [("stroke", "blue")])].
  split; vm_compute; reflexivity.
Qed.

(** C1, as amended.  Let the class names of the class map be simple
    identifiers, and let every element that carries one of them have a
    style object.  Then the style applier does not throw and keeps the
    tree's shape.  In every element: no class name of the map is left in
    the class list, and an element that carried one and has no class left
    has no class attribute.  If moreover the element came without a style
    attribute and the style object records each write the element receives
    as it is given, then for every pair (p, v) that the declaration in
    force for a class C of the element yields, property p is present in the
    inline style, with value v itself whenever every write to p among the
    declarations of the element's classes carries v. *)
Theorem style_completeness {P : Platform} (styleText : string)
  (d : Dom.Document) :
  let cs := Css.classStyles styleText in
  forallb isIdent (map fst cs) = true ->
  styleObjectsFor (map fst cs) d = true ->
  exists d',
    applyClassStyles cs d = Some d'
    /\ Dom.elementPaths d' = Dom.elementPaths d
    /\ forall q t a k,
         view q d = Some (VElement t a k) ->
         exists a',
           view q d' = Some (VElement t a' k)
           /\ (forall C, In C (map fst cs) -> Dom.hasClass C a' = false)
           /\ ((exists C, In C (map fst cs) /\ Dom.hasClass C a = true) ->
               Dom.classList a' = [] -> Dom.getAttribute "class" a' = None)
           /\ (Dom.getAttribute "style" a = None ->
               (forall nv, In nv (writesFor cs (map fst cs) a) -> records nv) ->
               forall C decl p v,
                 Obj.get C cs = Some decl -> Dom.hasClass C a = true ->
                 In (p, Some v) (Css.declarations decl) ->
                 (exists v', Dom.getProperty p (Dom.elementStyle a') = Some v')
                 /\ ((forall v2, In (p, Some v2) (writesFor cs (map fst cs) a) ->
                                 v2 = v) ->
                     Dom.getProperty p (Dom.elementStyle a') = Some v)).
Proof.
  intros cs Hid Hso. rewrite forallb_forall in Hid.
  assert (K : Obj.keys cs = map fst cs) by (apply keys_named; exact Hid).
  assert (HK : forall c, In c (map fst cs) ->
               isIdent c = true /\ exists decl, Obj.get c cs = Some decl).
  { intros c Hc. split; [auto|now apply get_in]. }
  unfold applyClassStyles. rewrite K.
  destruct (applyClasses_view cs (map fst cs) d HK
              (styleObjectsFor_spec _ _ Hso)) as (d' & R & Pths & Vw).
  exists d'. split; [exact R|]. split; [exact Pths|].
  intros q t a k V. rewrite Vw, V. simpl.
  exists (stepsAttrs cs (map fst cs) a). split; [reflexivity|].
  destruct (stepsAttrs_spec cs (map fst cs) a (classStyles_NoDup styleText) HK)
    as (CL & RM & ST).
  split; [|split; [exact RM|]].
  - intros C HC. unfold Dom.hasClass. rewrite CL. apply mem_false.
    rewrite filter_In. intros [_ N]. apply negb_true_iff, mem_false in N. auto.
  - intros Hn Hr C decl p v Hg Hh Hd.
    pose proof (in_writesFor cs (map fst cs) a C decl (p, Some v)
                  (get_Some_in _ _ _ Hg) Hh Hg Hd) as W.
    rewrite ST, getProperty_written; [|now rewrite Hn|exact Hr]. split.
    + eapply written_present; eauto.
    + intros A. apply written_agree; auto.
Qed.

(** C1, witness: the theorem at a style block with two classes and an
    element in the SVG namespace that carries both. *)
Lemma style_completeness_witness :
  forallb isIdent (map fst (Css.classStyles ".a{fill:red;}.b{stroke:blue;}")) = true
  /\ styleObjectsFor (P := referencePlatform)
       (map fst (Css.classStyles ".a{fill:red;}.b{stroke:blue;}"))
       (svgPathWithClass "a b") = true
  /\ exists d' a',
       applyClassStyles (P := referencePlatform)
         (Css.classStyles ".a{fill:red;}.b{stroke:blue;}")
         (svgPathWithClass "a b")
       = Some d'
       /\ view [0; 0] d' = Some (VElement "path" a' 0)
       /\ Dom.getProperty "fill" (Dom.elementStyle a') = Some "red".
Proof.
  split; [reflexivity|]. split; [vm_compute; reflexivity|].
  destruct (style_completeness (P := referencePlatform)
              ".a{fill:red;}.b{stroke:blue;}" (svgPathWithClass "a b") eq_refl)
    as (d' & R & _ & E); [vm_compute; reflexivity|].
  destruct (E [0; 0] "path"
              [("class", Dom.Plain "a b"); ("d", Dom.Plain "M0 0")] 0 eq_refl)
    as (a' & V & _ & _ & S).
  exists d', a'. split; [exact R|]. split; [exact V|].
  refine (proj2 (S eq_refl _ "a" "fill:red;" "fill" "red" eq_refl eq_refl _) _).
  - intros nv H s _. vm_compute in H.
    destruct H as [<-|[<-|[]]]; reflexivity.
  - vm_compute. now left.
  - intros v2 H. vm_compute in H.
    destruct H as [H|[H|[]]]; congruence.
Defined.

(* ================================================================== *)
(** ** C2: a class declared twice *)
(* ================================================================== *)

Lemma get_set_all c rs : forall o,
  c <> "__proto__" ->
  Obj.get c (fold_left (fun o r => Obj.set (fst r) (snd r) o) rs o)
  = fold_left (fun acc r => if String.eqb c (fst r) then Some (snd r) else acc)
              rs (Obj.get c o).
Proof.
  induction rs as [|[k v] rs IH]; intros o H; simpl; [reflexivity|].
  rewrite IH by exact H. f_equal. destruct (String.eqb_spec c k) as [<-|N].
  - now apply get_set_same.
  - now apply get_set_other.
Qed.

Lemma flat_map_ext_in {A B : Type} (f g : A -> list B) l :
  (forall x, In x l -> f x = g x) -> flat_map f l = flat_map g l.
Proof.
  induction l as [|x l IH]; intros H; simpl; [reflexivity|].
  rewrite (H x (or_introl eq_refl)), IH; [reflexivity|].
  intros y Hy. apply H. now right.
Qed.

(** C2, counterexample.  Class [cls-1] is declared twice; [fill] is listed
    only in the earlier declaration.  After the style applier ran on an
    element of the SVG namespace, the element's inline style is the later
    declaration alone: [fill] has not been applied. *)
Lemma duplicate_rule_counterexample :
  let styleText := ".cls-1{fill:red;stroke:blue;}.cls-1{stroke:red;}" in
  Css.rules styleText
  = [("cls-1", "fill:red;stroke:blue;"); ("cls-1", "stroke:red;")]
  /\ exists a',
       applyClassStyles (P := referencePlatform) (Css.classStyles styleText)
                        (svgPathWithClass "cls-1")
       = Some [Dom.Element "svg" [("xmlns", Dom.Plain Dom.svgNamespace)]
                 [Dom.Element "path" a' []]]
       /\ Dom.elementStyle a' = [("stroke", "red")]
       /\ Dom.getProperty "fill" (Dom.elementStyle a') = None.
Proof.
  cbv zeta. split; [vm_compute; reflexivity|].
  exists [("d", Dom.Plain "M0 0"); ("style", Dom.Block [("stroke", "red")])].
  split; [|split]; vm_compute; reflexivity.
Qed.

(** C2, as amended.  When the style text declares a class name more than
    once, the later declaration replaces the earlier one as a whole: a
    class name (other than [__proto__], for which the class map holds
    nothing) maps to the body of its last rule.  Where the class names are
    simple identifiers and the elements that carry them have a style
    object, the applier does not throw, and an element that came without a
    style attribute and whose writes the style object records as given
    ends with the writes of the last rule of each class it carries and no
    others, so a property listed only in an earlier declaration is not
    applied. *)
Theorem duplicate_rule_replaces {P : Platform} (styleText : string)
  (d : Dom.Document) :
  let cs := Css.classStyles styleText in
  (forall C, C <> "__proto__" ->
             Obj.get C cs = lastRule C (Css.rules styleText))
  /\ (forallb isIdent (map fst cs) = true ->
      styleObjectsFor (map fst cs) d = true ->
      exists d',
        applyClassStyles cs d = Some d'
        /\ forall q t a k,
             view q d = Some (VElement t a k) ->
             exists a',
               view q d' = Some (VElement t a' k)
               /\ (Dom.getAttribute "style" a = None ->
                   (forall nv, In nv (writesFor cs (map fst cs) a) ->
                               records nv) ->
                   Dom.elementStyle a'
                   = fold_left writeStyle
                       (flat_map
                          (fun c => match lastRule c (Css.rules styleText) with
                                    | Some decl => Css.declarations decl
                                    | None => []
                                    end)
                          (filter (fun c => Dom.hasClass c a) (map fst cs)))
                       [])).
Proof.
  intros cs.
  assert (L : forall C, C <> "__proto__" ->
              Obj.get C cs = lastRule C (Css.rules styleText)).
  { intros C HC. unfold cs, Css.classStyles, lastRule.
    now rewrite get_set_all. }
  split; [exact L|]. intros Hid Hso. rewrite forallb_forall in Hid.
  assert (K : Obj.keys cs = map fst cs) by (apply keys_named; exact Hid).
  assert (HK : forall c, In c (map fst cs) ->
               isIdent c = true /\ exists decl, Obj.get c cs = Some decl).
  { intros c Hc. split; [auto|now apply get_in]. }
  unfold applyClassStyles. rewrite K.
  destruct (applyClasses_view cs (map fst cs) d HK
              (styleObjectsFor_spec _ _ Hso)) as (d' & R & _ & Vw).
  exists d'. split; [exact R|].
  intros q t a k V. rewrite Vw, V. simpl.
  exists (stepsAttrs cs (map fst cs) a). split; [reflexivity|].
  intros Hn Hr.
  destruct (stepsAttrs_spec cs (map fst cs) a (classStyles_NoDup styleText) HK)
    as (_ & _ & ST).
  rewrite ST; [|now rewrite Hn|exact Hr].
  unfold Dom.elementStyle. rewrite Hn. unfold writesFor. cbn [Dom.styleBlock].
  f_equal. apply flat_map_ext_in.
  intros c Hc. apply filter_In in Hc as [Hc _]. rewrite L; [reflexivity|].
  intros ->. exact (classStyles_no_proto styleText Hc).
Qed.

(** C2, witness: the theorem at a style text that declares [a] twice and an
    element of the SVG namespace. *)
Lemma duplicate_rule_replaces_witness :
  forallb isIdent (map fst (Css.classStyles ".a{fill:red;}.a{stroke:blue;}")) = true
  /\ styleObjectsFor (P := referencePlatform)
       (map fst (Css.classStyles ".a{fill:red;}.a{stroke:blue;}"))
       (svgPathWithClass "a") = true
  /\ Obj.get "a" (Css.classStyles ".a{fill:red;}.a{stroke:blue;}")
     = Some "stroke:blue;"
  /\ exists d' a',
       applyClassStyles (P := referencePlatform)
         (Css.classStyles ".a{fill:red;}.a{stroke:blue;}") (svgPathWithClass "a")
       = Some d'
       /\ view [0; 0] d' = Some (VElement "path" a' 0)
       /\ Dom.elementStyle a' = [("stroke", "blue")].
Proof.
  destruct (duplicate_rule_replaces (P := referencePlatform)
              ".a{fill:red;}.a{stroke:blue;}" (svgPathWithClass "a")) as [L A].
  split; [reflexivity|]. split; [vm_compute; reflexivity|]. split.
  - rewrite L by discriminate. reflexivity.
  - destruct (A eq_refl) as (d' & R & E); [vm_compute; reflexivity|].
    destruct (E [0; 0] "path"
                [("class", Dom.Plain "a"); ("d", Dom.Plain "M0 0")] 0 eq_refl)
      as (a' & V & S).
    exists d', a'. split; [exact R|]. split; [exact V|].
    rewrite S; [vm_compute; reflexivity|reflexivity|].
    intros nv H s _. vm_compute in H. destruct H as [<-|[]]. reflexivity.
Defined.

(* ================================================================== *)
(** ** C3: the fallback is the only recovery *)
(* ================================================================== *)

Section Recovery.

Context {P : Platform}.

(** A throw inside the structured pipeline comes before its only write. *)
Lemma structured_throw_files inputPath outputPath reactNative w :
  snd (structured inputPath outputPath reactNative w) = None ->
  files (fst (structured inputPath outputPath reactNative w)) = files w.
Proof.
  unfold structured, bind, readFileSync, lift, ret, throw, log, writeFileSync.
  destruct (lookupFile inputPath (files w)) as [svg|]; [|reflexivity].
  destruct (parseXml (sanitize svg)) as [doc|]; [|reflexivity].
  destruct (first (Dom.byDescendant "defs" "style" doc)) as [el|];
    destruct reactNative; simpl;
    try destruct (inlineStyles el doc) as [d1|]; simpl;
    try destruct (convertToReactNativeSvg _) as [d2|]; simpl;
    try discriminate; reflexivity.
Qed.

(** What the fallback leaves in the file system. *)
Lemma fallback_files inputPath outputPath reactNative w svgContent :
  lookupFile inputPath (files w) = Some svgContent ->
  files (fst (tryCatch (fallback inputPath outputPath reactNative)
                       (log "Fallback conversion also failed:") w))
  = match fallbackOutput reactNative svgContent with
    | Some text => storeFile outputPath text (files w)
    | None => files w
    end.
Proof.
  intros L.
  unfold tryCatch, fallback, fallbackOutput, bind, readFileSync, copyFileSync,
    lift, ret, throw, log, writeFileSync, bind, readFileSync. simpl. rewrite L.
  destruct (execStyle svgContent) as [[|c content]|]; simpl.
  - destruct reactNative; simpl; [reflexivity|]. now rewrite L.
  - destruct (fallbackText reactNative svgContent (String c content));
      reflexivity.
  - destruct reactNative; simpl; [reflexivity|]. now rewrite L.
Qed.

End Recovery.

(** C3.  Whenever the structured pipeline throws, at the loader or at any
    later stage, it has written no file; the entry point catches the
    exception, logs it and runs the textual fallback on the world as it was,
    and the output file then holds what the fallback derives from the
    original input text (or nothing new, when the fallback throws too). *)
Theorem fallback_activation {P : Platform}
  (inputPath outputPath : string) (reactNative : bool) (w : World) :
  snd (structured inputPath outputPath reactNative w) = None ->
  let caught := fst (structured inputPath outputPath reactNative w) in
  files caught = files w
  /\ convertSvgStylesToInline inputPath outputPath reactNative w
     = (log "Error converting SVG:" ;;;
        tryCatch (fallback inputPath outputPath reactNative)
                 (log "Fallback conversion also failed:")) caught
  /\ forall svgContent,
       lookupFile inputPath (files w) = Some svgContent ->
       files (fst (convertSvgStylesToInline inputPath outputPath reactNative w))
       = match fallbackOutput reactNative svgContent with
         | Some text => storeFile outputPath text (files w)
         | None => files w
         end.
Proof.
  intros T caught.
  pose proof (structured_throw_files inputPath outputPath reactNative w T) as F.
  assert (E : convertSvgStylesToInline inputPath outputPath reactNative w
              = (log "Error converting SVG:" ;;;
                 tryCatch (fallback inputPath outputPath reactNative)
                          (log "Fallback conversion also failed:")) caught).
  { unfold convertSvgStylesToInline, tryCatch at 1, caught.
    destruct (structured inputPath outputPath reactNative w) as [w' [u|]];
      [discriminate|reflexivity]. }
  split; [exact F|]. split; [exact E|].
  intros svgContent L. rewrite E. unfold bind at 1, log at 1. cbn [fst snd].
  rewrite (fallback_files inputPath outputPath reactNative _ svgContent).
  - unfold caught. simpl. now rewrite F.
  - unfold caught. simpl. now rewrite F.
Qed.

(** C3, witness: an unclosed [path] element makes the loader throw. *)
Lemma fallback_activation_witness :
  let w := inputOnly (Markup.q "<svg><defs><style>.a{fill:red;}</style></defs><path class='a' d='M0 0'></svg>") in
  snd (structured (P := referencePlatform) "in.svg" "out.svg" false w) = None
  /\ files (fst (structured (P := referencePlatform) "in.svg" "out.svg" false w))
     = files w.
Proof.
  intros w. split; [vm_compute; reflexivity|].
  refine (proj1 (fallback_activation (P := referencePlatform)
                   "in.svg" "out.svg" false w _)).
  vm_compute; reflexivity.
Defined.

(* ================================================================== *)
(** ** C4: scenario 1, end to end *)
(* ================================================================== *)

Lemma replaceWith_ext m m' cb : forall s skip,
  (forall t, m t = m' t) ->
  replaceWith m cb skip s = replaceWith m' cb skip s.
Proof.
  induction s as [|c s IH]; intros skip H; [reflexivity|].
  simpl. destruct skip; [|now apply IH].
  rewrite <- H. destruct (m (String c s)) as [n|].
  - destruct (cb _); [|reflexivity]. now rewrite (IH _ H).
  - now rewrite (IH _ H).
Qed.

(** On a plain class name the pass of the fallback is the text replacement
    with the matcher of the class attribute. *)
Lemma rewriteClass_plain {P : Platform} svg c decl :
  isPlainName c = true ->
  rewriteClass svg (c, decl)
  = replaceWith (classAttrMatch c) (rewriteClassAttr c (Css.inlineStyle decl))
                0 svg.
Proof.
  intros H. unfold rewriteClass. cbn [fst snd].
  destruct (classAttrRegExp_plain c H) as (m & -> & Hm).
  now apply replaceWith_ext.
Qed.

(** What the entry point leaves in the file system when the structured
    pipeline throws. *)
Lemma recovery_files {P : Platform} inputPath outputPath reactNative w
  svgContent :
  snd (structured inputPath outputPath reactNative w) = None ->
  lookupFile inputPath (files w) = Some svgContent ->
  files (fst (convertSvgStylesToInline inputPath outputPath reactNative w))
  = match fallbackOutput reactNative svgContent with
    | Some text => storeFile outputPath text (files w)
    | None => files w
    end.
Proof.
  intros T L.
  pose proof (structured_throw_files inputPath outputPath reactNative w T) as F.
  unfold convertSvgStylesToInline, tryCatch at 1.
  destruct (structured inputPath outputPath reactNative w) as [w1 [u|]];
    [discriminate|].
  cbn [fst] in F. unfold bind at 1, log at 1.
  rewrite (fallback_files inputPath outputPath reactNative _ svgContent).
  - cbn [files]. now rewrite F.
  - cbn [files]. now rewrite F.
Qed.

(** C4, counterexample.  On the input of scenario 1 the reference loader
    builds the tree the input spells; its elements are in no namespace.
    The structured pipeline throws and writes nothing, and the file the
    program leaves is not the output the scenario gives. *)
Lemma scenario1_counterexample :
  parseXml (Platform := referencePlatform) scenario1Input
  = Some scenario1Document
  /\ Dom.namespaceURI [0; 1] scenario1Document = None
  /\ structured (P := referencePlatform) "in.svg" "out.svg" false
       (inputOnly scenario1Input)
     = (inputOnly scenario1Input, None)
  /\ outputOf (P := referencePlatform) false scenario1Input
     = Some scenario1Written
  /\ scenario1Written <> scenario1Output.
Proof.
  split; [vm_compute; reflexivity|]. split; [vm_compute; reflexivity|].
  split; [vm_compute; reflexivity|]. split; [vm_compute; reflexivity|].
  discriminate.
Qed.

(** C4, as amended.  On the input of scenario 1, read by the loader as the
    tree it spells, the path element has no style object, because the input
    declares no namespace.  With renaming off, the structured pipeline
    throws at its first style write, and the program writes exactly what
    the textual fallback makes of the input: the style block and the defs
    element are gone, and the class attribute has given its place to a
    style attribute that holds both declarations joined by a semicolon,
    in front of [d]. *)
Theorem scenario1_output {P : Platform} :
  parseXml scenario1Input = Some scenario1Document ->
  styleObject [0; 1] scenario1Document = false ->
  snd (structured "in.svg" "out.svg" false (inputOnly scenario1Input)) = None
  /\ outputOf false scenario1Input = Some scenario1Written.
Proof.
  intros H Hso.
  assert (S : sanitize scenario1Input = scenario1Input)
    by (vm_compute; reflexivity).
  assert (A : applyClassStyles (Css.classStyles ".a{fill:red;stroke:blue;}")
                scenario1Document = None).
  { unfold applyClassStyles.
    change (Obj.keys (Css.classStyles ".a{fill:red;stroke:blue;}")) with ["a"].
    cbn [foldM]. unfold applyClass.
    rewrite (selectClass_ident "a" scenario1Document eq_refl).
    change (Dom.byClassName "a" scenario1Document) with [[0; 1]].
    cbn [foldM]. rewrite Hso. vm_compute. reflexivity. }
  assert (I : inlineStyles [0; 0; 0] scenario1Document = None).
  { unfold inlineStyles.
    change (Dom.getNode [0; 0; 0] scenario1Document)
      with (Some (Dom.Element "style" [] [Dom.Text ".a{fill:red;stroke:blue;}"])).
    cbv beta iota zeta.
    change (Dom.textContent
              (Dom.Element "style" [] [Dom.Text ".a{fill:red;stroke:blue;}"]))
      with ".a{fill:red;stroke:blue;}".
    now rewrite A. }
  assert (T : structured "in.svg" "out.svg" false (inputOnly scenario1Input)
              = (inputOnly scenario1Input, None)).
  { unfold structured, bind, readFileSync, lift.
    change (lookupFile "in.svg" (files (inputOnly scenario1Input)))
      with (Some scenario1Input).
    cbv beta iota. rewrite S, H. unfold ret at 1. cbv beta iota.
    change (first (Dom.byDescendant "defs" "style" scenario1Document))
      with (Some [0; 0; 0]).
    cbv beta iota. unfold ret at 1. cbv beta iota. rewrite I.
    reflexivity. }
  split; [now rewrite T|].
  unfold outputOf.
  rewrite (recovery_files "in.svg" "out.svg" false _ scenario1Input);
    [|now rewrite T|reflexivity].
  assert (X : execStyle scenario1Input = Some ".a{fill:red;stroke:blue;}")
    by (vm_compute; reflexivity).
  assert (W : rewriteClass scenario1Input ("a", "fill:red;stroke:blue;")
              = Some (Markup.q "<svg><defs><style>.a{fill:red;stroke:blue;}</style></defs><path style='fill:red;stroke:blue' d='M0 0'/></svg>")).
  { rewrite rewriteClass_plain by reflexivity. vm_compute. reflexivity. }
  unfold fallbackOutput. rewrite X. unfold fallbackText.
  change (Css.rules ".a{fill:red;stroke:blue;}")
    with [("a", "fill:red;stroke:blue;")].
  cbn [foldM]. rewrite W. vm_compute. reflexivity.
Qed.

(** C4, witness: the reference loader reads the input of scenario 1 as the
    tree it spells, and an element in no namespace has no style object. *)
Lemma scenario1_output_witness :
  parseXml (Platform := referencePlatform) scenario1Input = Some scenario1Document
  /\ styleObject (Platform := referencePlatform) [0; 1] scenario1Document = false
  /\ outputOf (P := referencePlatform) false scenario1Input
     = Some scenario1Written.
Proof.
  split; [vm_compute; reflexivity|]. split; [vm_compute; reflexivity|].
  refine (proj2 (scenario1_output (P := referencePlatform) _ _));
    vm_compute; reflexivity.
Defined.

(* ================================================================== *)
(** ** C5: values that hold a colon *)
(* ================================================================== *)

(** C5, the code at the failing input.  The fragment is split at every
    colon and only the first two pieces are kept, so the value stops at its
    own first colon: that is the pair the structured pipeline sets out to
    write and the text the fallback builds.  On this input, whose elements
    are in no namespace, the structured pipeline throws and the output is
    the fallback's, with the shortened value. *)
Theorem value_cut_at_second_colon :
  Js.split ":" "fill:url(http://x.org/p.svg#g)"
  = ["fill"; "url(http"; "//x.org/p.svg#g)"]
  /\ Css.nameValue "fill:url(http://x.org/p.svg#g)" = ("fill", Some "url(http")
  /\ Css.declarations "fill:url(http://x.org/p.svg#g);"
     = [("fill", Some "url(http")]
  /\ Css.inlineStyle "fill:url(http://x.org/p.svg#g);" = "fill:url(http"
  /\ outputOf (P := referencePlatform) false urlInput
     = Some (Markup.q "<svg><path style='fill:url(http' d='M0 0'/></svg>").
Proof. repeat split; vm_compute; reflexivity. Qed.

(* ================================================================== *)
(** ** C7: a document without a style element *)
(* ================================================================== *)

(** The two pipelines on an input without style element, renaming off.
    The loader reads the input and its tree serialises to the input again,
    yet the run leaves no output file; the fallback, run on the same input,
    copies the input to the output. *)
Lemma no_style_paths_differ :
  option_map Markup.serialize (Markup.parse plainInput) = Some plainInput
  /\ outputOf (P := referencePlatform) false plainInput = None
  /\ lookupFile "out.svg"
       (files (fst (fallback (P := referencePlatform) "in.svg" "out.svg" false
                      (inputOnly plainInput))))
     = Some plainInput.
Proof. repeat split; vm_compute; reflexivity. Qed.

(** C7, what the code does where the claim fails.  When the loaded
    document has no style element under defs and renaming is not
    requested, the structured pipeline logs that no conversion is needed
    and returns without serialising or writing anything: there is no
    serialised output, the files are as before, and a second run on the
    same input does the same again. *)
Theorem no_style_no_output {P : Platform}
  (inputPath outputPath svgContent : string) (doc : Dom.Document) (w : World) :
  lookupFile inputPath (files w) = Some svgContent ->
  parseXml (sanitize svgContent) = Some doc ->
  Dom.byDescendant "defs" "style" doc = [] ->
  let once := fst (convertSvgStylesToInline inputPath outputPath false w) in
  let twice := fst (convertSvgStylesToInline inputPath outputPath false once) in
  files once = files w
  /\ console once = (console w ++ [noStyleInDefs])%list
  /\ files twice = files once
  /\ console twice = (console once ++ [noStyleInDefs])%list.
Proof.
  intros L Hp Hs.
  assert (R : forall w', files w' = files w ->
              convertSvgStylesToInline inputPath outputPath false w'
              = ({| files := files w'; console := (console w' ++ [noStyleInDefs])%list |},
                 Some tt)).
  { intros w' F.
    assert (L' : lookupFile inputPath (files w') = Some svgContent)
      by (rewrite F; exact L).
    unfold convertSvgStylesToInline, tryCatch, structured, bind, readFileSync, lift.
    rewrite L'. cbv beta iota. rewrite Hp. unfold ret at 1. cbv beta iota.
    rewrite Hs. reflexivity. }
  cbv zeta. rewrite (R w eq_refl). cbn [fst files console].
  rewrite R by reflexivity. cbn [fst files console]. auto.
Qed.

(** C7, witness: the theorem on a drawing of one path element, without
    defs and without style element. *)
Lemma no_style_no_output_witness :
  lookupFile "in.svg" (files (inputOnly plainInput)) = Some plainInput
  /\ Dom.byDescendant "defs" "style"
       [Dom.Element "svg" [] [Dom.Element "path" [("d", Dom.Plain "M0 0")] []]]
     = []
  /\ files (fst (convertSvgStylesToInline (P := referencePlatform)
                   "in.svg" "out.svg" false (inputOnly plainInput)))
     = files (inputOnly plainInput).
Proof.
  split; [reflexivity|]. split; [reflexivity|].
  refine (proj1 (no_style_no_output (P := referencePlatform)
                   "in.svg" "out.svg" plainInput
                   [Dom.Element "svg" []
                      [Dom.Element "path" [("d", Dom.Plain "M0 0")] []]]
                   (inputOnly plainInput) _ _ _));
    vm_compute; reflexivity.
Defined.

(* ================================================================== *)
(** ** C8: two styled classes on one element, textual fallback *)
(* ================================================================== *)

(** C8, the code at the failing input.  The loader rejects the markup, the
    fallback runs one pass per class, and the second pass writes a second
    style attribute in front of the first instead of extending it. *)
Theorem fallback_two_classes_two_style_attributes :
  Markup.parse twoClassInput = None
  /\ foldM (rewriteClass (P := referencePlatform))
           [("a", "fill:red;")] (Markup.q "<path class='a b' d='M0 0'>")
     = Some (Markup.q "<path class='b' style='fill:red' d='M0 0'>")
  /\ foldM (rewriteClass (P := referencePlatform))
           [("a", "fill:red;"); ("b", "stroke:blue;")]
           (Markup.q "<path class='a b' d='M0 0'>")
     = Some (Markup.q "<path style='stroke:blue' style='fill:red' d='M0 0'>")
  /\ outputOf (P := referencePlatform) false twoClassInput
     = Some (Markup.q
               "<svg><path style='stroke:blue' style='fill:red' d='M0 0'></svg>").
Proof. repeat split; vm_compute; reflexivity. Qed.

(* ================================================================== *)
(** ** C6: what renaming preserves *)
(* ================================================================== *)

Lemma setAttribute_fresh n v a :
  Dom.mem n (map fst a) = false -> Dom.setAttribute n v a = (a ++ [(n, v)])%list.
Proof.
  induction a as [|[m w] a IH]; simpl; intros H; [reflexivity|].
  apply orb_false_iff in H as [E H]. rewrite E. f_equal. now apply IH.
Qed.

Lemma mem_app x l1 l2 : Dom.mem x (l1 ++ l2)%list = Dom.mem x l1 || Dom.mem x l2.
Proof. unfold Dom.mem. apply existsb_app. Qed.

Lemma copy_onto a : forall acc,
  distinct (map fst a) = true ->
  (forall n, In n (map fst a) -> Dom.mem n (map fst acc) = false) ->
  fold_left (fun acc nv =>
               Dom.setAttribute (fst nv) (Dom.Plain (Dom.attrText (snd nv))) acc)
            a acc
  = (acc ++ map (fun nv => (fst nv, Dom.Plain (Dom.attrText (snd nv)))) a)%list.
Proof.
  induction a as [|[n v] a IH]; intros acc D F; simpl.
  - now rewrite app_nil_r.
  - simpl in D. apply andb_prop in D as [Dn Da]. apply negb_true_iff in Dn.
    rewrite setAttribute_fresh by (apply F; now left).
    rewrite IH; [now rewrite <- app_assoc|exact Da|].
    intros m Hm. rewrite map_app, mem_app. simpl.
    rewrite (F m (or_intror Hm)). simpl.
    destruct (String.eqb_spec m n) as [->|_]; [|reflexivity].
    apply mem_In in Hm. congruence.
Qed.

(** Copying the attributes of a well-formed element one by one keeps their
    names, their texts and their order. *)
Lemma copyAttributes_texts a :
  distinct (map fst a) = true ->
  attrTexts (copyAttributes a) = attrTexts a
  /\ map fst (copyAttributes a) = map fst a.
Proof.
  intros D. unfold copyAttributes. rewrite copy_onto; auto.
  simpl. unfold attrTexts. rewrite !map_map. split; reflexivity.
Qed.

Lemma in_byTagName n d q :
  In q (Dom.byTagName n d) <->
  exists t a k, view q d = Some (VElement t a k) /\ String.eqb t n = true.
Proof.
  unfold Dom.byTagName, Dom.tagIs.
  rewrite filter_In, in_elementPaths, getElement_view. split.
  - intros [(t & a & k & E) H]. rewrite E in H. eauto.
  - intros (t & a & k & E & H). rewrite E. split; [red; eauto|exact H].
Qed.

(** The pass for one vocabulary name. *)
Lemma renameTag_view n d :
  exists d',
    renameTag d n = Some d'
    /\ Dom.elementPaths d' = Dom.elementPaths d
    /\ forall q, view q d' = option_map (passView n) (view q d).
Proof.
  unfold renameTag.
  destruct (forEach_view (renamed n) (Dom.byTagName n d) d)
    as (d' & R & Pths & Vw).
  - apply NoDup_filter, elementPaths_NoDup.
  - intros p Hp. apply in_byTagName in Hp as (t & a & k & V & _).
    exists t, a, k. split; [exact V|discriminate].
  - exists d'. split; [exact R|]. split; [exact Pths|].
    intros q. rewrite Vw.
    destruct (view q d) as [[t a k|s]|] eqn:V; simpl.
    + destruct (String.eqb t n) eqn:E.
      * assert (M : memPath q (Dom.byTagName n d) = true).
        { apply memPath_In, in_byTagName. eauto. }
        now rewrite M.
      * assert (M : memPath q (Dom.byTagName n d) = false).
        { destruct (memPath q (Dom.byTagName n d)) eqn:M; [|reflexivity].
          apply memPath_In, in_byTagName in M as (t' & a' & k' & V' & E').
          congruence. }
        now rewrite M.
    + now destruct (memPath q (Dom.byTagName n d)).
    + now destruct (memPath q (Dom.byTagName n d)).
Qed.

Lemma renameTags_view ns : forall d,
  exists d',
    foldM renameTag ns d = Some d'
    /\ Dom.elementPaths d' = Dom.elementPaths d
    /\ forall q, view q d'
                 = option_map (fun v => fold_left (fun v n => passView n v) ns v)
                              (view q d).
Proof.
  induction ns as [|n ns IH]; intros d; simpl.
  - exists d. repeat split. intros q. now destruct (view q d).
  - destruct (renameTag_view n d) as (d1 & -> & P1 & V1).
    destruct (IH d1) as (d' & R & P' & V').
    exists d'. split; [exact R|]. split; [congruence|].
    intros q. rewrite V', V1. now destruct (view q d).
Qed.

(** No capitalised vocabulary name is a vocabulary name. *)
Lemma capitalized_not_in_vocabulary n :
  In n svgElements -> Dom.mem (Js.capitalize n) svgElements = false.
Proof.
  intros H.
  assert (A : forallb (fun m => negb (Dom.mem (Js.capitalize m) svgElements))
                      svgElements = true) by (vm_compute; reflexivity).
  rewrite forallb_forall in A. apply negb_true_iff. now apply A.
Qed.

(** The passes together, on one element: the tag is capitalised when it is
    in the vocabulary [ns], and then the attributes are copied once. *)
Lemma passes_element ns : forall t a k,
  (forall n, In n ns -> Dom.mem (Js.capitalize n) ns = false) ->
  fold_left (fun v n => passView n v) ns (VElement t a k)
  = if Dom.mem t ns
    then VElement (Js.capitalize t) (copyAttributes a) k
    else VElement t a k.
Proof.
  induction ns as [|n ns IH]; intros t a k H; [reflexivity|].
  assert (H' : forall m, In m ns -> Dom.mem (Js.capitalize m) ns = false).
  { intros m Hm. pose proof (H m (or_intror Hm)) as E. simpl in E.
    now apply orb_false_iff in E as [_ E]. }
  simpl. destruct (String.eqb_spec t n) as [->|N].
  - rewrite IH by exact H'.
    pose proof (H n (or_introl eq_refl)) as E. simpl in E.
    apply orb_false_iff in E as [_ E]. now rewrite E.
  - rewrite IH by exact H'. reflexivity.
Qed.

Lemma passes_text ns s :
  fold_left (fun v n => passView n v) ns (VText s) = VText s.
Proof. induction ns; simpl; auto. Qed.

(** C6.  In a document whose elements have no repeated attribute name, the
    tag renamer does not throw and yields a document with the same element
    handles in the same order (so the same number of elements); text nodes
    are unchanged; and every element keeps its place, its number of children
    and its attribute names and values in order, while its tag is
    capitalised exactly when it belongs to the Element Vocabulary. *)
Theorem rename_preserves (d : Dom.Document) :
  distinctAttrs d = true ->
  exists d',
    convertToReactNativeSvg d = Some d'
    /\ Dom.elementPaths d' = Dom.elementPaths d
    /\ List.length (Dom.elementPaths d') = List.length (Dom.elementPaths d)
    /\ forall q,
         match view q d with
         | Some (VElement t a k) =>
             exists a',
               view q d'
               = Some (VElement (if Dom.mem t svgElements
                                 then Js.capitalize t else t) a' k)
               /\ attrTexts a' = attrTexts a
         | Some (VText s) => view q d' = Some (VText s)
         | None => view q d' = None
         end.
Proof.
  intros W. unfold convertToReactNativeSvg.
  destruct (renameTags_view svgElements d) as (d' & R & Pths & Vw).
  exists d'. split; [exact R|]. split; [exact Pths|]. split; [now rewrite Pths|].
  intros q. rewrite Vw.
  destruct (view q d) as [[t a k|s]|] eqn:V; unfold option_map.
  - rewrite passes_element.
    2:{ intros n Hn. now apply capitalized_not_in_vocabulary. }
    destruct (Dom.mem t svgElements) eqn:M.
    + exists (copyAttributes a). split; [reflexivity|].
      apply copyAttributes_texts.
      unfold distinctAttrs in W. rewrite forallb_forall in W.
      assert (Hq : In q (Dom.elementPaths d))
        by (apply in_elementPaths; red; eauto).
      specialize (W q Hq). rewrite getElement_view, V in W. exact W.
    + exists a. split; reflexivity.
  - now rewrite passes_text.
  - reflexivity.
Qed.

(** C6, witness: nested groups, a path with a written style, a text node
    and an element outside the vocabulary. *)
Lemma rename_preserves_witness :
  distinctAttrs nestedDocument = true
  /\ exists d',
       convertToReactNativeSvg nestedDocument = Some d'
       /\ List.length (Dom.elementPaths d')
          = List.length (Dom.elementPaths nestedDocument).
Proof.
  split; [vm_compute; reflexivity|].
  destruct (rename_preserves nestedDocument) as (d' & R & _ & L & _).
  - vm_compute; reflexivity.
  - exists d'. split; assumption.
Defined.

(* ================================================================== *)
(** ** Text scanning *)
(* ================================================================== *)

Lemma sapp_assoc (a b c : string) : ((a ++ b) ++ c = a ++ (b ++ c))%string.
Proof. induction a as [|x a IH]; simpl; [reflexivity|now rewrite IH]. Qed.

Lemma slength_app (a b : string) :
  String.length (a ++ b) = String.length a + String.length b.
Proof. induction a as [|x a IH]; simpl; [reflexivity|now rewrite IH]. Qed.

Lemma stripPrefix_app p x : Js.stripPrefix p (p ++ x) = Some x.
Proof.
  induction p as [|c p IH]; simpl; [reflexivity|].
  now rewrite Ascii.eqb_refl.
Qed.

(** A prefix test that fails on a text long enough fails on every
    extension of the text. *)
Lemma stripPrefix_None_app p : forall a x,
  Js.stripPrefix p a = None -> String.length p <= String.length a ->
  Js.stripPrefix p (a ++ x) = None.
Proof.
  induction p as [|c p IH]; intros a x H L; [discriminate|].
  destruct a as [|d a]; simpl in *; [lia|].
  destruct (Ascii.eqb c d); [|reflexivity].
  apply IH; [exact H|lia].
Qed.

Lemma upTo_app stop v rest :
  allChars (fun c => negb (Ascii.eqb c stop)) v = true ->
  Js.upTo stop (v ++ String stop rest) = Some (v, rest).
Proof.
  induction v as [|c v IH]; simpl; intros H.
  - now rewrite Ascii.eqb_refl.
  - apply andb_prop in H as [Hc Hv]. apply negb_true_iff in Hc.
    now rewrite Hc, IH.
Qed.

(** Characters inside a match are dropped. *)
Lemma replaceFrom_skip m x : forall y,
  Js.replaceFrom m (String.length x) (x ++ y) = Js.replaceFrom m 0 y.
Proof.
  induction x as [|c x IH]; intros y; simpl; [|apply IH].
  destruct y; reflexivity.
Qed.

(** A stretch in which the expression matches nowhere is kept. *)
Lemma replaceFrom_keep m x : forall y,
  (forall x1 x2 c, x = (x1 ++ String c x2)%string ->
                   m (String c x2 ++ y)%string = None) ->
  Js.replaceFrom m 0 (x ++ y) = (x ++ Js.replaceFrom m 0 y)%string.
Proof.
  induction x as [|c x IH]; intros y H; [reflexivity|].
  pose proof (H EmptyString x c eq_refl) as E.
  change (String c x ++ y)%string with (String c (x ++ y)%string) in *.
  cbn [Js.replaceFrom]. rewrite E.
  change (String c x ++ Js.replaceFrom m 0 y)%string
    with (String c (x ++ Js.replaceFrom m 0 y)%string). f_equal.
  apply IH. intros x1 x2 c' E'. apply (H (String c x1) x2 c'). simpl. now rewrite E'.
Qed.

(** A match at the start is replaced and the scan goes on after it. *)
Lemma replaceFrom_match m c x y replacement :
  m (String c x ++ y)%string = Some (replacement, S (String.length x)) ->
  Js.replaceFrom m 0 (String c x ++ y)
  = (replacement ++ Js.replaceFrom m 0 y)%string.
Proof.
  intros H. change (String c x ++ y)%string with (String c (x ++ y)%string) in *.
  cbn [Js.replaceFrom]. rewrite H. cbn [Nat.pred]. now rewrite replaceFrom_skip.
Qed.

Lemma spaceRun_app w y :
  allChars Js.isSpace w = true -> spaceRun y = 0 ->
  spaceRun (w ++ y) = String.length w.
Proof.
  induction w as [|c w IH]; simpl; intros H Hy; [exact Hy|].
  apply andb_prop in H as [Hc Hw]. rewrite Hc. f_equal. now apply IH.
Qed.

(** *** Runs of white space become one underscore *)

Lemma underscore_no_space s : forall skip,
  allChars notSpace (Js.replaceFrom matchSpaces skip s) = true.
Proof.
  induction s as [|c s IH]; intros skip; [reflexivity|].
  simpl. destruct skip as [|k]; [|apply IH].
  unfold matchSpaces. simpl. destruct (Js.isSpace c) eqn:E.
  - simpl. apply IH.
  - simpl. unfold notSpace at 1. rewrite E. simpl. apply IH.
Qed.

Lemma underscore_keep x : forall y,
  allChars notSpace x = true ->
  underscoreSpaces (x ++ y) = (x ++ underscoreSpaces y)%string.
Proof.
  intros y H. unfold underscoreSpaces, Js.replaceAll. apply replaceFrom_keep.
  intros x1 x2 c ->.
  assert (Hc : Js.isSpace c = false).
  { clear -H. induction x1 as [|d x1 IH]; simpl in H;
      apply andb_prop in H as [H1 H2].
    - now apply negb_true_iff in H1.
    - auto. }
  unfold matchSpaces. simpl. now rewrite Hc.
Qed.

Lemma underscore_run w y :
  Css.nonEmpty w = true -> allChars Js.isSpace w = true -> spaceRun y = 0 ->
  underscoreSpaces (w ++ y) = ("_" ++ underscoreSpaces y)%string.
Proof.
  intros N H Hy. destruct w as [|c w]; [discriminate|].
  unfold underscoreSpaces, Js.replaceAll. apply replaceFrom_match.
  unfold matchSpaces.
  rewrite (spaceRun_app (String c w) y H Hy). reflexivity.
Qed.

(** *** The data-name sanitiser *)

Lemma sanitize_match v rest :
  Css.nonEmpty v = true -> allChars notQuote v = true ->
  sanitize (dataNameOpen ++ v ++ String Markup.dq rest)
  = (dataNameOpen ++ underscoreSpaces v ++ String Markup.dq (sanitize rest))%string.
Proof.
  intros N Q. destruct v as [|c p1]; [discriminate|].
  set (v := String c p1) in *.
  set (quote := String Markup.dq EmptyString).
  assert (M : matchDataName (dataNameOpen ++ v ++ String Markup.dq rest)
              = Some ((dataNameOpen ++ underscoreSpaces v ++ quote)%string,
                      String.length p1 + 13)).
  { unfold matchDataName. rewrite stripPrefix_app.
    unfold v at 1. rewrite (upTo_app Markup.dq (String c p1) rest Q).
    reflexivity. }
  set (x := (String.substring 1 10 dataNameOpen ++ v ++ quote)%string).
  assert (T : (dataNameOpen ++ v ++ String Markup.dq rest)%string
              = (String "d" x ++ rest)%string).
  { unfold x, quote. change dataNameOpen
      with (String "d" (String.substring 1 10 dataNameOpen)) at 1.
    change (String "d" (substring 1 10 dataNameOpen) ++ v ++ String Markup.dq rest)%string
      with (String "d" (substring 1 10 dataNameOpen ++ v ++ String Markup.dq rest))%string.
    change (String "d" (substring 1 10 dataNameOpen ++ v ++ String Markup.dq EmptyString) ++ rest)%string
      with (String "d" ((substring 1 10 dataNameOpen ++ v ++ String Markup.dq EmptyString) ++ rest))%string.
    f_equal. rewrite !sapp_assoc. reflexivity. }
  assert (L : S (String.length x) = String.length p1 + 13).
  { unfold x, quote, v. rewrite !slength_app. simpl. lia. }
  unfold sanitize, Js.replaceAll. rewrite T in *. rewrite <- L in M.
  rewrite (replaceFrom_match matchDataName "d" x rest _ M).
  unfold quote. rewrite !sapp_assoc. reflexivity.
Qed.

(* ================================================================== *)
(** ** C10: more than one style block, textual fallback *)
(* ================================================================== *)

Lemma indexOf_succ needle c s k :
  indexOf needle (String c s) = Some (S k) ->
  Js.stripPrefix needle (String c s) = None /\ indexOf needle s = Some k.
Proof.
  destruct needle as [|d needle].
  - simpl. discriminate.
  - cbn [indexOf].
    destruct (Js.stripPrefix (String d needle) (String c s)); [discriminate|].
    destruct (indexOf (String d needle) s); [|discriminate].
    intros E. injection E as ->. auto.
Qed.

(** The search for the style block passes over a stretch that holds no
    opening tag. *)
Lemma execStyle_skip pre : forall X,
  indexOf "<style>" (pre ++ "<style>") = Some (String.length pre) ->
  execStyle (pre ++ "<style>" ++ X) = execStyle ("<style>" ++ X).
Proof.
  induction pre as [|c pre IH]; intros X H; [reflexivity|].
  change (String c pre ++ "<style>")%string
    with (String c (pre ++ "<style>")%string) in H.
  simpl String.length in H. apply indexOf_succ in H as [N H].
  change (String c pre ++ "<style>" ++ X)%string
    with (String c (pre ++ "<style>" ++ X)%string).
  cbn [execStyle].
  assert (E : String c (pre ++ "<style>" ++ X)%string
              = (String c (pre ++ "<style>") ++ X)%string)
    by (simpl; now rewrite sapp_assoc).
  rewrite E, (stripPrefix_None_app "<style>" _ X N).
  - now apply IH.
  - simpl. rewrite slength_app. simpl. lia.
Qed.

Lemma closesStyle_space c t :
  Js.isSpace c = true -> closesStyle (String c t) = closesStyle t.
Proof. intros H. unfold closesStyle. cbn [Js.trimStart]. now rewrite H. Qed.

Lemma closesStyle_other c t :
  Js.isSpace c = false ->
  closesStyle (String c t)
  = match Js.stripPrefix "</style>" (String c t) with
    | Some _ => true
    | None => false
    end.
Proof. intros H. unfold closesStyle. cbn [Js.trimStart]. now rewrite H. Qed.

Lemma trimEnd_blank s :
  allChars Js.isSpace s = true -> Js.trimEnd s = EmptyString.
Proof.
  induction s as [|c s IH]; simpl; intros H; [reflexivity|].
  apply andb_prop in H as [Hc Hs]. now rewrite (IH Hs), Hc.
Qed.

(** Where the first end tag stands right behind [t], the closing part of
    the expression matches in front of [t] only when [t] is blank. *)
Lemma closesStyle_blank rest t :
  indexOf "</style>" (t ++ "</style>") = Some (String.length t) ->
  closesStyle (t ++ "</style>" ++ rest) = true ->
  allChars Js.isSpace t = true.
Proof.
  induction t as [|c t IH]; intros H C; [reflexivity|].
  change (String c t ++ "</style>")%string
    with (String c (t ++ "</style>")%string) in H.
  simpl String.length in H. apply indexOf_succ in H as [N H].
  change (String c t ++ "</style>" ++ rest)%string
    with (String c (t ++ "</style>" ++ rest)%string) in C.
  simpl. destruct (Js.isSpace c) eqn:Sc.
  - rewrite closesStyle_space in C by exact Sc. now apply IH.
  - exfalso. rewrite closesStyle_other in C by exact Sc.
    assert (E : String c (t ++ "</style>" ++ rest)%string
                = (String c (t ++ "</style>") ++ rest)%string)
      by (simpl; now rewrite sapp_assoc).
    rewrite E, (stripPrefix_None_app "</style>" _ rest N) in C;
      [discriminate|].
    simpl. rewrite slength_app. simpl. lia.
Qed.

(** The lazy group runs up to the last character of the block that is not
    white space. *)
Lemma lazyBody_trim rest t :
  indexOf "</style>" (t ++ "</style>") = Some (String.length t) ->
  lazyBody (t ++ "</style>" ++ rest) = Some (Js.trimEnd t).
Proof.
  induction t as [|c t IH]; intros H.
  - change (EmptyString ++ "</style>" ++ rest)%string
      with (String "<" ("/style>" ++ rest)%string).
    reflexivity.
  - pose proof H as H0.
    change (String c t ++ "</style>")%string
      with (String c (t ++ "</style>")%string) in H.
    simpl String.length in H. apply indexOf_succ in H as [N H].
    specialize (IH H).
    change (String c t ++ "</style>" ++ rest)%string
      with (String c (t ++ "</style>" ++ rest)%string).
    cbn [lazyBody]. rewrite IH.
    destruct (closesStyle (String c (t ++ "</style>" ++ rest))) eqn:C.
    + change (String c (t ++ "</style>" ++ rest)%string)
        with (String c t ++ "</style>" ++ rest)%string in C.
      now rewrite (trimEnd_blank (String c t)
                     (closesStyle_blank rest (String c t) H0 C)).
    + cbn [Js.trimEnd]. destruct (Js.trimEnd t) as [|d r] eqn:T; [|reflexivity].
      destruct (Js.isSpace c) eqn:Sc; [|reflexivity].
      exfalso. rewrite closesStyle_space in C by exact Sc.
      destruct (closesStyle (t ++ "</style>" ++ rest)) eqn:C1; [discriminate|].
      clear C. revert C1 IH. rewrite ?T.
      destruct (t ++ "</style>" ++ rest)%string as [|x y] eqn:E.
      * destruct t; discriminate.
      * cbn [lazyBody]. intros ->.
        destruct (lazyBody y); discriminate.
Qed.

Lemma trimStart_then t z :
  spaceRun z = 0 -> Js.trimStart (t ++ z) = (Js.trimStart t ++ z)%string.
Proof.
  intros Z. induction t as [|c t IH].
  - destruct z as [|d z]; [reflexivity|]. simpl in *.
    destruct (Js.isSpace d); [discriminate|reflexivity].
  - simpl. destruct (Js.isSpace c); [exact IH|reflexivity].
Qed.

(** Dropping leading characters keeps the first end tag at the end. *)
Lemma first_close_trimStart t :
  indexOf "</style>" (t ++ "</style>") = Some (String.length t) ->
  indexOf "</style>" (Js.trimStart t ++ "</style>")
  = Some (String.length (Js.trimStart t)).
Proof.
  induction t as [|c t IH]; intros H; [exact H|].
  simpl. destruct (Js.isSpace c); [|exact H].
  change (String c t ++ "</style>")%string
    with (String c (t ++ "</style>")%string) in H.
  simpl String.length in H. apply indexOf_succ in H as [_ H]. now apply IH.
Qed.

Lemma indexOf_found needle : forall s k,
  indexOf needle s = Some k -> String.length needle + k <= String.length s.
Proof.
  assert (P : forall p s r, Js.stripPrefix p s = Some r ->
              String.length p <= String.length s).
  { induction p as [|a p IH]; intros s r H; simpl; [lia|].
    destruct s as [|b s]; [discriminate|]. simpl in *.
    destruct (Ascii.eqb a b); [|discriminate].
    apply IH in H. lia. }
  induction s as [|c s IH]; intros k H.
  - unfold indexOf in H.
    destruct (Js.stripPrefix needle EmptyString) eqn:E; [|discriminate].
    injection H as <-. apply P in E. lia.
  - cbn [indexOf] in H.
    destruct (Js.stripPrefix needle (String c s)) eqn:E.
    + injection H as <-. apply P in E. lia.
    + destruct (indexOf needle s) as [k'|]; [|discriminate].
      injection H as <-. specialize (IH k' eq_refl). simpl. lia.
Qed.

Lemma stripPrefix_Some_app p : forall s r y,
  Js.stripPrefix p s = Some r -> Js.stripPrefix p (s ++ y) = Some (r ++ y)%string.
Proof.
  induction p as [|a p IH]; intros s r y H.
  - simpl in *. now injection H as <-.
  - destruct s as [|b s]; [discriminate|]. simpl in *.
    destruct (Ascii.eqb a b); [now apply IH|discriminate].
Qed.

(** The first occurrence stays the first one when the text goes on. *)
Lemma indexOf_app needle y : forall s k,
  indexOf needle s = Some k -> indexOf needle (s ++ y) = Some k.
Proof.
  induction s as [|c s IH]; intros k H.
  - unfold indexOf in H.
    destruct (Js.stripPrefix needle EmptyString) as [r|] eqn:E; [|discriminate].
    injection H as <-. destruct needle; [|discriminate].
    simpl. destruct y; reflexivity.
  - pose proof (indexOf_found needle _ _ H) as L.
    change (String c s ++ y)%string with (String c (s ++ y)%string).
    cbn [indexOf] in *.
    destruct (Js.stripPrefix needle (String c s)) as [r|] eqn:E.
    + change (String c (s ++ y)%string) with (String c s ++ y)%string.
      now rewrite (stripPrefix_Some_app _ _ _ y E).
    + destruct (indexOf needle s) as [k'|] eqn:I; [|discriminate].
      injection H as <-.
      change (String c (s ++ y)%string) with (String c s ++ y)%string.
      rewrite (stripPrefix_None_app needle _ y E) by (simpl in *; lia).
      now rewrite (IH k' eq_refl).
Qed.

(** The cleanup removes a style block, from its opening tag to the first
    end tag behind it, and goes on behind it. *)
Lemma styleBlock_deleted body after :
  indexOf "</style>" (body ++ "</style>") = Some (String.length body) ->
  Js.replaceAll matchStyleBlock ("<style>" ++ body ++ "</style>" ++ after)
  = Js.replaceAll matchStyleBlock after.
Proof.
  intros A. unfold Js.replaceAll.
  set (x := ("style>" ++ body ++ "</style>")%string).
  assert (T : ("<style>" ++ body ++ "</style>" ++ after)%string
              = (String "<" x ++ after)%string).
  { unfold x. simpl. rewrite !sapp_assoc. reflexivity. }
  assert (I : indexOf "</style>" (body ++ "</style>" ++ after)
              = Some (String.length body)).
  { rewrite <- sapp_assoc. now apply indexOf_app. }
  assert (M : matchStyleBlock ("<style>" ++ body ++ "</style>" ++ after)
              = Some (EmptyString, S (String.length x))).
  { unfold matchStyleBlock. rewrite stripPrefix_app, I.
    unfold x. rewrite !slength_app. simpl. do 2 f_equal. lia. }
  rewrite T in *. now rewrite (replaceFrom_match matchStyleBlock "<" x after _ M).
Qed.

(** C10, counterexample.  The text holds two style blocks, the first one
    empty, and the loader rejects it.  The first match of the fallback has
    an empty capture, so the fallback takes its branch for texts without
    styles: the output is the input, with both style blocks still in it. *)
Lemma first_block_only_counterexample :
  Markup.parse emptyFirstBlockInput = None
  /\ execStyle emptyFirstBlockInput = Some EmptyString
  /\ outputOf (P := referencePlatform) false emptyFirstBlockInput
     = Some emptyFirstBlockInput
  /\ indexOf "<style></style>" emptyFirstBlockInput = Some 5
  /\ indexOf "<style>.a{fill:red;}</style>" emptyFirstBlockInput = Some 20.
Proof. repeat split; vm_compute; reflexivity. Qed.

(** C10, as amended.  The first style block of a text runs from the first
    opening tag to the first end tag behind it.  The fallback captures the
    content of that block alone, trimmed.  When this content is not empty,
    the fallback applies the class rules parsed from it and no others, and
    writes the text after a cleanup that deletes every style block, each
    from its opening tag to the first end tag behind it, so rules that
    stand only in later blocks are dropped without having been applied.
    When the content is empty the fallback takes the text to have no
    styles: it applies and deletes nothing, and the output is the input,
    renamed if renaming is on. *)
Theorem fallback_first_block_only {P : Platform} (reactNative : bool)
  (pre body rest : string) :
  indexOf "<style>" (pre ++ "<style>") = Some (String.length pre) ->
  indexOf "</style>" (body ++ "</style>") = Some (String.length body) ->
  let svgContent := (pre ++ "<style>" ++ body ++ "</style>" ++ rest)%string in
  let content := Js.trim body in
  execStyle svgContent = Some content
  /\ fallbackOutput reactNative svgContent
     = (if Css.nonEmpty content then
          match foldM rewriteClass (Css.rules content) svgContent with
          | Some rewritten =>
              let cleaned :=
                Js.replaceAll matchEmptyDefs
                  (Js.replaceAll matchStyleBlock rewritten) in
              Some (if reactNative then renameTagsInText cleaned else cleaned)
          | None => None
          end
        else Some (if reactNative then renameTagsInText svgContent
                   else svgContent))
  /\ (forall block after,
        indexOf "</style>" (block ++ "</style>") = Some (String.length block) ->
        Js.replaceAll matchStyleBlock
          ("<style>" ++ block ++ "</style>" ++ after)
        = Js.replaceAll matchStyleBlock after)
  /\ (forall c s,
        matchStyleBlock (String c s) = None ->
        Js.replaceAll matchStyleBlock (String c s)
        = String c (Js.replaceAll matchStyleBlock s)).
Proof.
  intros Hpre Hbody svgContent content.
  assert (X : execStyle svgContent = Some content).
  { unfold svgContent. rewrite (execStyle_skip pre _ Hpre).
    change ("<style>" ++ body ++ "</style>" ++ rest)%string
      with (String "<" ("style>" ++ body ++ "</style>" ++ rest))%string.
    cbn [execStyle].
    change (String "<" ("style>" ++ body ++ "</style>" ++ rest))%string
      with ("<style>" ++ body ++ "</style>" ++ rest)%string.
    rewrite stripPrefix_app, trimStart_then by reflexivity.
    now rewrite (lazyBody_trim rest _ (first_close_trimStart _ Hbody)). }
  split; [exact X|]. split; [|split].
  - unfold fallbackOutput. rewrite X. destruct content; reflexivity.
  - exact styleBlock_deleted.
  - intros c s H. unfold Js.replaceAll. cbn [Js.replaceFrom]. now rewrite H.
Qed.

(** C10, witness: a first block with one rule and white space around it,
    followed by a second block with another rule. *)
Lemma fallback_first_block_only_witness :
  indexOf "<style>" ("<svg>" ++ "<style>") = Some (String.length "<svg>")
  /\ indexOf "</style>" (" .a{fill:red;}  " ++ "</style>")
     = Some (String.length " .a{fill:red;}  ")
  /\ execStyle ("<svg>" ++ "<style>" ++ " .a{fill:red;}  "
                ++ "</style>" ++ twoBlocksRest)
     = Some ".a{fill:red;}"
  /\ fallbackOutput (P := referencePlatform) false
       ("<svg>" ++ "<style>" ++ " .a{fill:red;}  "
        ++ "</style>" ++ twoBlocksRest)
     = Some (Markup.q "<svg><path style='fill:red'/><path class='b'/></svg>").
Proof.
  split; [vm_compute; reflexivity|]. split; [vm_compute; reflexivity|].
  split.
  - rewrite (proj1 (fallback_first_block_only (P := referencePlatform) false
                      "<svg>" " .a{fill:red;}  " twoBlocksRest
                      ltac:(vm_compute; reflexivity)
                      ltac:(vm_compute; reflexivity))).
    vm_compute. reflexivity.
  - vm_compute. reflexivity.
Defined.

(* ================================================================== *)
(** ** Exceptions and files at the entry point *)
(* ================================================================== *)

(** The entry point never throws: an exception of the structured pipeline
    is caught and starts the fallback, an exception of the fallback is
    caught and logged. *)
Theorem entry_point_never_throws {P : Platform}
  (inputPath outputPath : string) (reactNative : bool) (w : World) :
  snd (convertSvgStylesToInline inputPath outputPath reactNative w) = Some tt.
Proof.
  unfold convertSvgStylesToInline, tryCatch.
  destruct (structured inputPath outputPath reactNative w) as [w1 [[]|]];
    [reflexivity|].
  unfold bind, log at 1.
  destruct (fallback inputPath outputPath reactNative _) as [w2 [[]|]];
    reflexivity.
Qed.

(** When the input file cannot be read, both pipelines throw at their
    first step: no file is written and the console shows the error of the
    structured pipeline, the start of the fallback and its failure. *)
Theorem unreadable_input {P : Platform}
  (inputPath outputPath : string) (reactNative : bool) (w : World) :
  lookupFile inputPath (files w) = None ->
  convertSvgStylesToInline inputPath outputPath reactNative w
  = ({| files := files w;
        console := (console w
                    ++ ["Error converting SVG:";
                        "Attempting fallback conversion method...";
                        "Fallback conversion also failed:"])%list |},
     Some tt).
Proof.
  intros L.
  unfold convertSvgStylesToInline, tryCatch, structured, fallback, bind,
    readFileSync, log.
  repeat (cbn [files console fst snd]; rewrite ?L).
  rewrite <- !app_assoc. reflexivity.
Qed.

(** Witness: a world without any file. *)
Lemma unreadable_input_witness :
  lookupFile "in.svg" (files {| files := []; console := [] |}) = None
  /\ files (fst (convertSvgStylesToInline (P := referencePlatform)
                   "in.svg" "out.svg" false {| files := []; console := [] |}))
     = [].
Proof.
  split; [reflexivity|].
  now rewrite (unreadable_input (P := referencePlatform)
                 "in.svg" "out.svg" false {| files := []; console := [] |} eq_refl).
Defined.

(** *** Only the output path is written *)

Lemma lookup_store_other path out data fs :
  path <> out -> lookupFile path (storeFile out data fs) = lookupFile path fs.
Proof.
  intros H. induction fs as [|[p old] fs IH]; simpl.
  - apply String.eqb_neq in H. now rewrite H.
  - destruct (String.eqb_spec out p) as [->|N]; simpl.
    + apply String.eqb_neq in H. now rewrite H.
    + now rewrite IH.
Qed.

Lemma lookup_store_same out data fs :
  lookupFile out (storeFile out data fs) = Some data.
Proof.
  induction fs as [|[p old] fs IH]; simpl.
  - now rewrite String.eqb_refl.
  - destruct (String.eqb_spec out p) as [->|N]; simpl.
    + now rewrite String.eqb_refl.
    + apply String.eqb_neq in N. now rewrite N.
Qed.

Lemma writesOnly_ret {A : Type} out (a : A) : writesOnly out (ret a).
Proof. intros w path _. reflexivity. Qed.

Lemma writesOnly_lift {A : Type} out (o : option A) : writesOnly out (lift o).
Proof. intros w path _. destruct o; reflexivity. Qed.

Lemma writesOnly_log out line : writesOnly out (log line).
Proof. intros w path _. reflexivity. Qed.

Lemma writesOnly_read out path : writesOnly out (readFileSync path).
Proof. intros w p _. reflexivity. Qed.

Lemma writesOnly_write out data : writesOnly out (writeFileSync out data).
Proof. intros w path H. simpl. now apply lookup_store_other. Qed.

Lemma writesOnly_bind {A B : Type} out (m : Eff A) (k : A -> Eff B) :
  writesOnly out m -> (forall a, writesOnly out (k a)) ->
  writesOnly out (bind m k).
Proof.
  intros Hm Hk w path H. unfold bind. specialize (Hm w path H).
  destruct (m w) as [w1 [a|]]; simpl in *; [|exact Hm].
  now rewrite (Hk a w1 path H).
Qed.

Lemma writesOnly_tryCatch {A : Type} out (m h : Eff A) :
  writesOnly out m -> writesOnly out h -> writesOnly out (tryCatch m h).
Proof.
  intros Hm Hh w path H. unfold tryCatch. specialize (Hm w path H).
  destruct (m w) as [w1 [a|]]; simpl in *; [exact Hm|].
  now rewrite (Hh w1 path H).
Qed.

Lemma writesOnly_copy out src : writesOnly out (copyFileSync src out).
Proof.
  apply writesOnly_bind; [apply writesOnly_read|].
  intros data. apply writesOnly_write.
Qed.

Lemma structured_writesOnly {P : Platform} inputPath outputPath reactNative :
  writesOnly outputPath (structured inputPath outputPath reactNative).
Proof.
  unfold structured.
  apply writesOnly_bind; [apply writesOnly_read|]. intros svg.
  apply writesOnly_bind; [apply writesOnly_lift|]. intros doc.
  assert (K : forall (pre : Eff unit) (styled : Eff Dom.Document),
            writesOnly outputPath pre -> writesOnly outputPath styled ->
            writesOnly outputPath
              (pre ;;;
               styledDocument <- styled ;;
               finalDocument <-
                 (if reactNative
                  then lift (convertToReactNativeSvg styledDocument)
                  else ret styledDocument) ;;
               writeFileSync outputPath (Markup.serialize finalDocument) ;;;
               log (successMessage reactNative outputPath))).
  { intros pre styled Hp Hs.
    apply writesOnly_bind; [exact Hp|]. intros _.
    apply writesOnly_bind; [exact Hs|]. intros d1.
    apply writesOnly_bind.
    - destruct reactNative; [apply writesOnly_lift|apply writesOnly_ret].
    - intros d2. apply writesOnly_bind; [apply writesOnly_write|].
      intros _. apply writesOnly_log. }
  destruct (first (Dom.byDescendant "defs" "style" doc)) as [el|].
  - destruct reactNative;
      (apply K; [apply writesOnly_ret|apply writesOnly_lift]).
  - destruct reactNative.
    + apply K; [apply writesOnly_log|apply writesOnly_ret].
    + apply writesOnly_log.
Qed.

Lemma fallback_writesOnly {P : Platform} inputPath outputPath reactNative :
  writesOnly outputPath (fallback inputPath outputPath reactNative).
Proof.
  unfold fallback.
  apply writesOnly_bind; [apply writesOnly_log|]. intros _.
  apply writesOnly_bind; [apply writesOnly_read|]. intros svg.
  assert (N : writesOnly outputPath
                (if reactNative
                 then writeFileSync outputPath (renameTagsInText svg) ;;;
                      log (fallbackMessage true outputPath)
                 else log noStyleInSvg ;;; copyFileSync inputPath outputPath)).
  { destruct reactNative.
    - apply writesOnly_bind; [apply writesOnly_write|].
      intros _. apply writesOnly_log.
    - apply writesOnly_bind; [apply writesOnly_log|].
      intros _. apply writesOnly_copy. }
  destruct (execStyle svg) as [[|c content]|]; try exact N.
  apply writesOnly_bind; [apply writesOnly_lift|]. intros text.
  apply writesOnly_bind; [apply writesOnly_write|]. intros _.
  apply writesOnly_log.
Qed.

(** Whatever happens, the program changes no file other than the output
    path: in particular the input file is intact whenever the two paths
    differ. *)
Theorem only_output_written {P : Platform}
  (inputPath outputPath : string) (reactNative : bool) (w : World)
  (path : string) :
  path <> outputPath ->
  lookupFile path
    (files (fst (convertSvgStylesToInline inputPath outputPath reactNative w)))
  = lookupFile path (files w).
Proof.
  revert w path. change (writesOnly outputPath
    (convertSvgStylesToInline inputPath outputPath reactNative)).
  unfold convertSvgStylesToInline.
  apply writesOnly_tryCatch; [apply structured_writesOnly|].
  apply writesOnly_bind; [apply writesOnly_log|]. intros _.
  apply writesOnly_tryCatch; [apply fallback_writesOnly|apply writesOnly_log].
Qed.

(** Witness: the input of scenario 1 is still in place after the run. *)
Lemma only_output_written_witness :
  "in.svg" <> "out.svg"
  /\ lookupFile "in.svg"
       (files (fst (convertSvgStylesToInline (P := referencePlatform)
                      "in.svg" "out.svg" false (inputOnly scenario1Input))))
     = Some scenario1Input.
Proof.
  split; [discriminate|].
  rewrite (only_output_written (P := referencePlatform)
             "in.svg" "out.svg" false (inputOnly scenario1Input) "in.svg");
    [reflexivity|discriminate].
Defined.

(* ================================================================== *)
(** ** More on the tag renamer *)
(* ================================================================== *)

Lemma foldM_nothing (ns : list string) (d : Dom.Document) :
  (forall n, In n ns -> Dom.byTagName n d = []) ->
  foldM renameTag ns d = Some d.
Proof.
  induction ns as [|n ns IH]; intros H; [reflexivity|].
  simpl. unfold renameTag at 1. rewrite (H n (or_introl eq_refl)). simpl.
  apply IH. intros m Hm. apply H. now right.
Qed.

Lemma byTagName_nil n d :
  (forall q t a k, view q d = Some (VElement t a k) -> String.eqb t n = false) ->
  Dom.byTagName n d = [].
Proof.
  intros H. destruct (Dom.byTagName n d) as [|q l] eqn:E; [reflexivity|].
  assert (I : In q (Dom.byTagName n d)) by (rewrite E; now left).
  apply in_byTagName in I as (t & a & k & V & T).
  rewrite (H q t a k V) in T. discriminate.
Qed.

(** Renaming is idempotent: the renamer finds nothing to do in its own
    result, because no capitalised name is in the vocabulary. *)
Theorem rename_idempotent (d : Dom.Document) :
  exists d',
    convertToReactNativeSvg d = Some d'
    /\ convertToReactNativeSvg d' = Some d'.
Proof.
  unfold convertToReactNativeSvg.
  destruct (renameTags_view svgElements d) as (d' & R & _ & Vw).
  exists d'. split; [exact R|].
  apply foldM_nothing. intros n Hn. apply byTagName_nil.
  intros q t a k V. rewrite Vw in V.
  destruct (view q d) as [[t0 a0 k0|s]|]; unfold option_map in V.
  - rewrite passes_element in V
      by (intros m Hm; now apply capitalized_not_in_vocabulary).
    destruct (Dom.mem t0 svgElements) eqn:M; injection V as <- _ _.
    + destruct (String.eqb_spec (Js.capitalize t0) n) as [E|_]; [|reflexivity].
      apply mem_In in M.
      pose proof (capitalized_not_in_vocabulary t0 M) as C.
      rewrite E in C. apply mem_false in C. contradiction.
    + destruct (String.eqb_spec t0 n) as [E|_]; [|reflexivity].
      apply mem_false in M. subst. contradiction.
  - rewrite passes_text in V. discriminate.
  - discriminate.
Qed.

(** With renaming requested, a document without a style element is still
    serialised: the structured pipeline logs that there is no style element,
    renames, writes the result and reports success. *)
Theorem rename_without_styles {P : Platform}
  (inputPath outputPath svgContent : string) (doc : Dom.Document) (w : World) :
  lookupFile inputPath (files w) = Some svgContent ->
  parseXml (sanitize svgContent) = Some doc ->
  Dom.byDescendant "defs" "style" doc = [] ->
  exists renamedDoc,
    convertToReactNativeSvg doc = Some renamedDoc
    /\ convertSvgStylesToInline inputPath outputPath true w
       = ({| files := storeFile outputPath (Markup.serialize renamedDoc) (files w);
             console := (console w
                         ++ [noStyleInDefs; successMessage true outputPath])%list |},
          Some tt).
Proof.
  intros L Hp Hs.
  destruct (renameTags_view svgElements doc) as (d' & R & _ & _).
  exists d'. split; [exact R|].
  unfold convertSvgStylesToInline, tryCatch, structured, bind, readFileSync, lift.
  rewrite L. cbv beta iota. rewrite Hp. unfold ret at 1. cbv beta iota.
  rewrite Hs. cbn [first]. cbv beta iota.
  unfold log at 1. cbv beta iota. unfold ret at 1. cbv beta iota.
  unfold convertToReactNativeSvg in *. rewrite R.
  unfold ret, writeFileSync, log. cbn [files console].
  rewrite <- app_assoc. reflexivity.
Qed.

(** Witness: scenario 3 of the specification. *)
Lemma rename_without_styles_witness :
  parseXml (Platform := referencePlatform) (sanitize plainInput)
  = Some [Dom.Element "svg" [] [Dom.Element "path" [("d", Dom.Plain "M0 0")] []]]
  /\ exists renamedDoc,
       convertToReactNativeSvg
         [Dom.Element "svg" [] [Dom.Element "path" [("d", Dom.Plain "M0 0")] []]]
       = Some renamedDoc
       /\ outputOf (P := referencePlatform) true plainInput
          = Some (Markup.serialize renamedDoc).
Proof.
  split; [vm_compute; reflexivity|].
  destruct (rename_without_styles (P := referencePlatform)
              "in.svg" "out.svg" plainInput
              [Dom.Element "svg" [] [Dom.Element "path" [("d", Dom.Plain "M0 0")] []]]
              (inputOnly plainInput)) as (d' & R & E);
    [vm_compute; reflexivity ..|].
  exists d'. split; [exact R|].
  unfold outputOf. rewrite E. cbn [fst files]. apply lookup_store_same.
Defined.

(* ================================================================== *)
(** ** Style blocks without rules *)
(* ================================================================== *)

Lemma upTo_absent stop s :
  allChars (fun c => negb (Ascii.eqb c stop)) s = true -> Js.upTo stop s = None.
Proof.
  induction s as [|c s IH]; simpl; intros H; [reflexivity|].
  apply andb_prop in H as [Hc Hs]. apply negb_true_iff in Hc.
  now rewrite Hc, IH.
Qed.

Lemma execRules_no_brace text : forall skip,
  allChars notOpenBrace text = true -> Css.execRules skip text = [].
Proof.
  induction text as [|c text IH]; intros skip H; [reflexivity|].
  simpl in H. apply andb_prop in H as [_ H].
  simpl. destruct skip; [|now apply IH].
  assert (M : Css.matchRule text = None).
  { unfold Css.matchRule. now rewrite (upTo_absent "{" text H). }
  rewrite M. destruct (Ascii.eqb c "."); now apply IH.
Qed.

(** A style text without an opening brace holds no rule: the class map is
    empty and the style applier returns the document as it is, on every
    platform. *)
Theorem no_brace_no_rules {P : Platform} (styleText : string)
  (d : Dom.Document) :
  allChars notOpenBrace styleText = true ->
  Css.rules styleText = []
  /\ Css.classStyles styleText = []
  /\ applyClassStyles (Css.classStyles styleText) d = Some d.
Proof.
  intros H.
  assert (R : Css.rules styleText = []).
  { unfold Css.rules. now rewrite execRules_no_brace. }
  assert (C : Css.classStyles styleText = []).
  { unfold Css.classStyles. now rewrite R. }
  split; [exact R|]. split; [exact C|]. now rewrite C.
Qed.

Lemma no_brace_no_rules_witness :
  allChars notOpenBrace "/* nothing here */ .a .b" = true
  /\ Css.rules "/* nothing here */ .a .b" = [].
Proof.
  split; [reflexivity|].
  exact (proj1 (no_brace_no_rules (P := referencePlatform)
                  "/* nothing here */ .a .b" [] eq_refl)).
Defined.

(* ================================================================== *)
(** ** Texts the sanitiser and the fallback leave alone *)
(* ================================================================== *)

Lemma indexOf_None needle c s :
  indexOf needle (String c s) = None ->
  Js.stripPrefix needle (String c s) = None /\ indexOf needle s = None.
Proof.
  destruct needle as [|d needle]; [discriminate|]. cbn [indexOf].
  destruct (Js.stripPrefix (String d needle) (String c s)); [discriminate|].
  destruct (indexOf (String d needle) s); [discriminate|]. auto.
Qed.

(** A text in which [data-name=] followed by a double quote does not occur
    goes to the loader unchanged. *)
Theorem sanitize_without_data_name (svgContent : string) :
  indexOf dataNameOpen svgContent = None -> sanitize svgContent = svgContent.
Proof.
  unfold sanitize, Js.replaceAll.
  induction svgContent as [|c s IH]; intros H; [reflexivity|].
  apply indexOf_None in H as [N H].
  cbn [Js.replaceFrom]. unfold matchDataName at 1. rewrite N.
  f_equal. now apply IH.
Qed.

Lemma sanitize_without_data_name_witness :
  indexOf dataNameOpen scenario1Input = None
  /\ sanitize scenario1Input = scenario1Input.
Proof.
  split; [vm_compute; reflexivity|].
  apply sanitize_without_data_name. vm_compute; reflexivity.
Defined.




(* ================================================================== *)
(** ** The earlier copy of the program *)
(* ================================================================== *)

(** On a text the sanitiser leaves alone, the structured pipeline of the
    earlier copy does exactly what the current one does; when that does not
    throw, so do the two entry points. *)
Theorem legacy_agrees {P : Platform}
  (inputPath outputPath svgContent : string) (reactNative : bool) (w : World) :
  lookupFile inputPath (files w) = Some svgContent ->
  sanitize svgContent = svgContent ->
  Legacy.structured inputPath outputPath reactNative w
  = structured inputPath outputPath reactNative w
  /\ (snd (structured inputPath outputPath reactNative w) = Some tt ->
      Legacy.convertSvgStylesToInline inputPath outputPath reactNative w
      = convertSvgStylesToInline inputPath outputPath reactNative w).
Proof.
  intros L E.
  assert (A : Legacy.structured inputPath outputPath reactNative w
              = structured inputPath outputPath reactNative w).
  { unfold Legacy.structured, structured, bind, readFileSync. rewrite L.
    cbv beta iota. now rewrite E. }
  split; [exact A|]. intros S.
  unfold Legacy.convertSvgStylesToInline, convertSvgStylesToInline, tryCatch.
  rewrite A.
  destruct (structured inputPath outputPath reactNative w) as [w1 [u|]];
    [reflexivity|discriminate].
Qed.

Lemma legacy_agrees_witness :
  sanitize plainInput = plainInput
  /\ snd (structured (P := referencePlatform) "in.svg" "out.svg" true
             (inputOnly plainInput)) = Some tt
  /\ lookupFile "out.svg"
       (files (fst (Legacy.convertSvgStylesToInline (P := referencePlatform)
                      "in.svg" "out.svg" true (inputOnly plainInput))))
     = Some (Markup.q "<Svg><Path d='M0 0'/></Svg>").
Proof.
  split; [vm_compute; reflexivity|]. split; [vm_compute; reflexivity|].
  rewrite (proj2 (legacy_agrees (P := referencePlatform)
                    "in.svg" "out.svg" plainInput true
                    (inputOnly plainInput) eq_refl
                    ltac:(vm_compute; reflexivity)));
    vm_compute; reflexivity.
Defined.

(** The earlier copy has no fallback: when its structured pipeline throws,
    it logs the error after whatever the pipeline had logged, returns
    normally and leaves every file as it was. *)
Theorem legacy_failure_writes_nothing {P : Platform}
  (inputPath outputPath : string) (reactNative : bool) (w : World) :
  snd (Legacy.structured inputPath outputPath reactNative w) = None ->
  files (fst (Legacy.convertSvgStylesToInline inputPath outputPath reactNative w))
  = files w
  /\ console (fst (Legacy.convertSvgStylesToInline inputPath outputPath
                     reactNative w))
     = (console (fst (Legacy.structured inputPath outputPath reactNative w))
        ++ ["Error converting SVG:"])%list
  /\ snd (Legacy.convertSvgStylesToInline inputPath outputPath reactNative w)
     = Some tt.
Proof.
  intros T.
  assert (F : files (fst (Legacy.structured inputPath outputPath reactNative w))
              = files w).
  { revert T.
    unfold Legacy.structured, bind, readFileSync, lift, ret, throw, log,
      writeFileSync.
    destruct (lookupFile inputPath (files w)) as [svg|]; [|reflexivity].
    destruct (parseXml svg) as [doc|]; [|reflexivity].
    destruct (first (Dom.byDescendant "defs" "style" doc)) as [el|];
      destruct reactNative; simpl;
      try destruct (inlineStyles el doc) as [d1|]; simpl;
      try destruct (convertToReactNativeSvg _) as [d2|]; simpl;
      try discriminate; reflexivity. }
  unfold Legacy.convertSvgStylesToInline, tryCatch.
  destruct (Legacy.structured inputPath outputPath reactNative w) as [w1 [u|]];
    [discriminate|]. simpl in *. auto.
Qed.

Lemma legacy_failure_writes_nothing_witness :
  let w := inputOnly twoClassInput in
  snd (Legacy.structured (P := referencePlatform) "in.svg" "out.svg" false w)
  = None
  /\ lookupFile "out.svg"
       (files (fst (Legacy.convertSvgStylesToInline (P := referencePlatform)
                      "in.svg" "out.svg" false w)))
     = None
  /\ console (fst (Legacy.convertSvgStylesToInline (P := referencePlatform)
                     "in.svg" "out.svg" false w))
     = ["Error converting SVG:"].
Proof.
  intros w.
  destruct (legacy_failure_writes_nothing (P := referencePlatform)
              "in.svg" "out.svg" false w ltac:(vm_compute; reflexivity))
    as (F & C & _).
  split; [vm_compute; reflexivity|]. split.
  - rewrite F. reflexivity.
  - rewrite C. vm_compute. reflexivity.
Defined.

(* ================================================================== *)
(** ** The command line *)
(* ================================================================== *)

Lemma spliceFlag_first a : forall b,
  ~ In reactNativeFlag a ->
  spliceFlag (a ++ reactNativeFlag :: b) = Some (a ++ b)%list.
Proof.
  induction a as [|x a IH]; intros b H; [reflexivity|].
  simpl. destruct (String.eqb_spec x reactNativeFlag) as [->|N].
  - exfalso. apply H. now left.
  - rewrite IH; [reflexivity|]. intros I. apply H. now right.
Qed.

(** Without an input path, alone or with the flag, [main] prints the two
    usage lines and touches no file. *)
Theorem main_usage {P : Platform} {N : PathModule} (argv : list string)
  (w : World) :
  argv = [] \/ argv = [reactNativeFlag] ->
  main argv w
  = ({| files := files w;
        console := (console w ++ [usageLine; usageFlagLine])%list |}, Some tt).
Proof.
  intros [->| ->]; unfold main, dispatch, bind, log; simpl;
    rewrite <- app_assoc; reflexivity.
Qed.

Lemma main_usage_witness :
  main (P := referencePlatform) (N := flatPaths) [reactNativeFlag]
       (inputOnly plainInput)
  = ({| files := [("in.svg", plainInput)];
        console := [usageLine; usageFlagLine] |}, Some tt).
Proof.
  exact (main_usage (P := referencePlatform) (N := flatPaths)
           [reactNativeFlag] (inputOnly plainInput) (or_intror eq_refl)).
Defined.

(** The flag may stand anywhere among the arguments; its first occurrence
    is taken out and the remaining arguments are the input path and, when
    present and not empty, the output path.  A second occurrence of the
    flag stays among the arguments and is read as a path. *)
Theorem main_flag_anywhere {P : Platform} {N : PathModule}
  (before after : list string) (inputPath outputPath : string)
  (more : list string) :
  ~ In reactNativeFlag before ->
  (before ++ after)%list = inputPath :: outputPath :: more ->
  outputPath <> EmptyString ->
  main (before ++ reactNativeFlag :: after)
  = convertSvgStylesToInline inputPath outputPath true.
Proof.
  intros H E O. unfold main. rewrite (spliceFlag_first before after H), E.
  unfold dispatch. destruct outputPath; [congruence|reflexivity].
Qed.

Lemma main_flag_anywhere_witness :
  main (P := referencePlatform) (N := flatPaths)
       ["in.svg"; reactNativeFlag; reactNativeFlag]
  = convertSvgStylesToInline (P := referencePlatform)
      "in.svg" reactNativeFlag true.
Proof.
  apply (main_flag_anywhere (P := referencePlatform) (N := flatPaths)
           ["in.svg"] [reactNativeFlag] "in.svg" reactNativeFlag []).
  - intros [E|[]]. discriminate.
  - reflexivity.
  - discriminate.
Defined.

(* ================================================================== *)
(** ** What the declaration parser hands out *)
(* ================================================================== *)

Lemma split_without sep s :
  Forall (fun p => allChars (fun c => negb (Ascii.eqb c sep)) p = true)
         (Js.split sep s).
Proof.
  induction s as [|c s IH]; simpl; [repeat constructor|].
  destruct (Ascii.eqb c sep) eqn:E.
  - constructor; [reflexivity|exact IH].
  - destruct (Js.split sep s) as [|piece pieces].
    + constructor; [simpl; now rewrite E|constructor].
    + inversion IH; subst. constructor; [simpl; rewrite E; simpl; auto|auto].
Qed.

Lemma split_all f sep s :
  allChars f s = true ->
  Forall (fun p => allChars f p = true) (Js.split sep s).
Proof.
  induction s as [|c s IH]; simpl; intros H; [repeat constructor|].
  apply andb_prop in H as [Hc Hs]. specialize (IH Hs).
  destruct (Ascii.eqb c sep).
  - constructor; [reflexivity|exact IH].
  - destruct (Js.split sep s) as [|piece pieces].
    + constructor; [simpl; now rewrite Hc|constructor].
    + inversion IH; subst. constructor; [simpl; rewrite Hc; simpl; auto|auto].
Qed.

Lemma trimStart_all f s :
  allChars f s = true -> allChars f (Js.trimStart s) = true.
Proof.
  induction s as [|c s IH]; simpl; intros H; [reflexivity|].
  apply andb_prop in H as [Hc Hs].
  destruct (Js.isSpace c); [auto|]. simpl. now rewrite Hc.
Qed.

Lemma trimEnd_all f s :
  allChars f s = true -> allChars f (Js.trimEnd s) = true.
Proof.
  induction s as [|c s IH]; simpl; intros H; [reflexivity|].
  apply andb_prop in H as [Hc Hs]. specialize (IH Hs).
  destruct (Js.trimEnd s) as [|d r].
  - destruct (Js.isSpace c); [reflexivity|]. simpl. now rewrite Hc.
  - simpl in *. now rewrite Hc.
Qed.

Lemma trim_all f s : allChars f s = true -> allChars f (Js.trim s) = true.
Proof. intros H. apply trimEnd_all, trimStart_all, H. Qed.

Lemma trimStart_head s :
  match Js.trimStart s with
  | String c _ => Js.isSpace c = false
  | EmptyString => True
  end.
Proof.
  induction s as [|c s IH]; simpl; [exact I|].
  destruct (Js.isSpace c) eqn:E; [exact IH|exact E].
Qed.

Lemma trimEnd_ends s :
  Js.trimEnd s = EmptyString \/ endsNotSpace (Js.trimEnd s) = true.
Proof.
  induction s as [|c s IH]; simpl; [now left|].
  destruct (Js.trimEnd s) as [|d r].
  - destruct (Js.isSpace c) eqn:E; [now left|right].
    simpl. unfold notSpace. now rewrite E.
  - right. destruct IH as [IH|IH]; [discriminate|exact IH].
Qed.

Lemma trimEnd_head c r :
  Js.isSpace c = false -> exists r', Js.trimEnd (String c r) = String c r'.
Proof.
  intros E. simpl. destruct (Js.trimEnd r); [rewrite E|]; eauto.
Qed.

(** [trim] leaves no white space at either end. *)
Lemma trim_trimmed s : isTrimmed (Js.trim s) = true.
Proof.
  unfold Js.trim. pose proof (trimStart_head s) as H.
  destruct (Js.trimStart s) as [|c r]; [reflexivity|].
  destruct (trimEnd_head c r H) as [r' E].
  pose proof (trimEnd_ends (String c r)) as [Z|Z]; rewrite E in *;
    [discriminate|].
  unfold isTrimmed. rewrite Z. unfold notSpace. now rewrite H.
Qed.

(** Every property name and every value the declaration parser yields is
    free of colons and semicolons and has no white space at either end; a
    value, in particular, never holds a colon. *)
Theorem declarations_clean (styleDeclaration : string) (name : string)
  (value : option string) :
  In (name, value) (Css.declarations styleDeclaration) ->
  (isTrimmed name = true /\ allChars notColon name = true
   /\ allChars notSemicolon name = true)
  /\ match value with
     | Some v => isTrimmed v = true /\ allChars notColon v = true
                 /\ allChars notSemicolon v = true
     | None => True
     end.
Proof.
  unfold Css.declarations, Css.styleProps. intros H.
  apply in_map_iff in H as (prop & E & H).
  apply filter_In in H as [H _].
  apply in_map_iff in H as (piece & <- & H).
  pose proof (split_without ";" styleDeclaration) as S.
  rewrite Forall_forall in S. specialize (S piece H).
  assert (Sp : allChars notSemicolon (Js.trim piece) = true)
    by (apply trim_all; exact S).
  clear H S. set (prop := Js.trim piece) in *.
  unfold Css.nameValue in E.
  pose proof (split_without ":" prop) as C.
  pose proof (split_all notSemicolon ":" prop Sp) as D.
  assert (K : forall x, In x (Js.split ":" prop) ->
              isTrimmed (Js.trim x) = true
              /\ allChars notColon (Js.trim x) = true
              /\ allChars notSemicolon (Js.trim x) = true).
  { intros x Hx. rewrite Forall_forall in C, D.
    split; [apply trim_trimmed|]. split; apply trim_all; auto. }
  destruct (Js.split ":" prop) as [|n [|v rest]]; simpl in E.
  - injection E as <- <-. repeat split; reflexivity.
  - injection E as <- <-. split; [apply K; now left|exact I].
  - injection E as <- <-. split; apply K; [now left|right; now left].
Qed.

Lemma declarations_clean_witness :
  In ("stroke", Some "a") (Css.declarations " fill : red ; stroke:a:b")
  /\ (isTrimmed "stroke" = true /\ allChars notColon "stroke" = true
      /\ allChars notSemicolon "stroke" = true)
  /\ isTrimmed "a" = true /\ allChars notColon "a" = true
  /\ allChars notSemicolon "a" = true.
Proof.
  assert (I : In ("stroke", Some "a")
                 (Css.declarations " fill : red ; stroke:a:b"))
    by (vm_compute; right; left; reflexivity).
  split; [exact I|].
  exact (declarations_clean " fill : red ; stroke:a:b" "stroke" (Some "a") I).
Defined.

(* ================================================================== *)
(** ** Class names that begin another class name, textual fallback *)
(* ================================================================== *)

Lemma sapp_longer c : forall x s, (c ++ String x s)%string <> c.
Proof.
  induction c as [|d c IH]; intros x s; simpl; [discriminate|].
  intros E. injection E as E. exact (IH x s E).
Qed.

Lemma substring_app a : forall b,
  String.substring 0 (String.length a) (a ++ b) = a.
Proof.
  induction a as [|c a IH]; intros b; simpl.
  - destruct b; reflexivity.
  - now rewrite IH.
Qed.

Lemma replaceWith_skip m cb x : forall y,
  replaceWith m cb (String.length x) (x ++ y) = replaceWith m cb 0 y.
Proof.
  induction x as [|c x IH]; intros y; simpl; [|apply IH].
  destruct y; reflexivity.
Qed.

Lemma replaceWith_match m cb c x y replacement :
  m (String c x ++ y)%string = Some (S (String.length x)) ->
  cb (String c x) = Some replacement ->
  replaceWith m cb 0 (String c x ++ y)
  = option_map (fun r => (replacement ++ r)%string) (replaceWith m cb 0 y).
Proof.
  intros M C.
  pose proof (substring_app (String c x) y) as Sub.
  change (String c x ++ y)%string with (String c (x ++ y)%string) in *.
  cbn [replaceWith]. rewrite M.
  change (String.length (String c x)) with (S (String.length x)) in Sub.
  rewrite Sub, C. cbn [Nat.pred]. rewrite replaceWith_skip.
  destruct (replaceWith m cb 0 y); reflexivity.
Qed.

Lemma wordChar_plain c : Js.isWordChar c = true -> isPlainChar c = true.
Proof. unfold isPlainChar. now intros ->. Qed.

Lemma plainChar_notQuote c : isPlainChar c = true -> notQuote c = true.
Proof. destruct c as [[] [] [] [] [] [] [] []]; vm_compute; congruence. Qed.

Lemma plainChar_notSpace c : isPlainChar c = true -> notSpace c = true.
Proof. destruct c as [[] [] [] [] [] [] [] []]; vm_compute; congruence. Qed.

Lemma allChars_impl (f g : ascii -> bool) s :
  (forall c, f c = true -> g c = true) ->
  allChars f s = true -> allChars g s = true.
Proof.
  intros I. induction s as [|c s IH]; simpl; [auto|].
  intros H. apply andb_prop in H as [Hc Hs]. now rewrite (I c Hc), IH.
Qed.

Lemma allChars_app f a b :
  allChars f (a ++ b) = allChars f a && allChars f b.
Proof.
  induction a as [|c a IH]; simpl; [reflexivity|].
  now rewrite IH, andb_assoc.
Qed.

Lemma allChars_forallb f s :
  allChars f s = forallb f (list_ascii_of_string s).
Proof. induction s as [|c s IH]; simpl; [reflexivity|now rewrite IH]. Qed.

Lemma splitSpaces_one t :
  allChars notSpace t = true -> splitSpaces t = [t].
Proof.
  induction t as [|c t IH]; simpl; intros H; [reflexivity|].
  apply andb_prop in H as [Hc Ht]. unfold notSpace in Hc.
  apply negb_true_iff in Hc. now rewrite Hc, (IH Ht).
Qed.

Lemma lastIsWord_word c : forall prev,
  isWordName c = true -> lastIsWord prev c = true.
Proof.
  unfold isWordName. induction c as [|x c IH]; intros prev H; [discriminate|].
  simpl in H. apply andb_prop in H as [Hx Hc]. simpl.
  destruct c as [|y c']; [exact Hx|]. apply IH. exact Hc.
Qed.

Lemma wordOccurs_here name prev s :
  match Js.stripPrefix name s with
  | Some rest =>
      xorb prev (isWordStart s)
      && xorb (lastIsWord prev name) (isWordStart rest)
  | None => false
  end = true ->
  wordOccurs name prev s = true.
Proof.
  intros H. destruct s as [|ch r].
  - exact H.
  - assert (G : wordOccurs name prev (String ch r)
                = (let here :=
                     match Js.stripPrefix name (String ch r) with
                     | Some rest =>
                         xorb prev (isWordStart (String ch r))
                         && xorb (lastIsWord prev name) (isWordStart rest)
                     | None => false
                     end in
                   if Ascii.eqb ch Markup.dq then here
                   else here || wordOccurs name (Js.isWordChar ch) r))
      by reflexivity.
    rewrite G. cbv zeta. rewrite H. destruct (Ascii.eqb ch Markup.dq); reflexivity.
Qed.

(** The class-attribute expression built for [c] also matches a class
    attribute whose only token is [c], a hyphen and more. *)
Lemma classAttrMatch_hyphen c suffix rest :
  isWordName c = true -> allChars isPlainChar suffix = true ->
  classAttrMatch c
    (classOpen ++ (c ++ "-" ++ suffix) ++ String Markup.dq rest)
  = Some (String.length (c ++ "-" ++ suffix) + 8).
Proof.
  intros Wc Ps. unfold classAttrMatch.
  change (Markup.q "class='") with classOpen.
  rewrite stripPrefix_app.
  assert (Q : allChars notQuote (c ++ "-" ++ suffix) = true).
  { rewrite !allChars_app. unfold isWordName in Wc.
    apply andb_prop in Wc as [_ W].
    rewrite (allChars_impl Js.isWordChar notQuote c
               (fun ch H => plainChar_notQuote ch (wordChar_plain ch H)) W).
    rewrite (allChars_impl isPlainChar notQuote suffix plainChar_notQuote Ps).
    reflexivity. }
  rewrite (upTo_app Markup.dq _ rest Q).
  assert (O : wordOccurs c false
                ((c ++ "-" ++ suffix) ++ String Markup.dq rest) = true).
  { rewrite sapp_assoc. apply wordOccurs_here.
    rewrite stripPrefix_app, (lastIsWord_word c false Wc).
    destruct c as [|x c']; [discriminate|].
    unfold isWordName in Wc. simpl in Wc. apply andb_prop in Wc as [Hx _].
    simpl. now rewrite Hx. }
  now rewrite O.
Qed.

(** In the fallback, the pass for a class [c] made of word characters also
    takes an element whose class token is [c], a hyphen and more (such as
    [cls] and [cls-1]): it gives that element the style of [c] and keeps the
    token, because a word boundary stands before the hyphen.  The scan then
    goes on behind the attribute. *)
Theorem fallback_hyphen_prefix_clash {P : Platform}
  (c suffix styleDeclaration rest : string) :
  isWordName c = true -> allChars isPlainChar suffix = true ->
  let quote := String Markup.dq EmptyString in
  let attr := (classOpen ++ (c ++ "-" ++ suffix) ++ quote)%string in
  rewriteClass (attr ++ rest) (c, styleDeclaration)
  = option_map
      (fun r => (attr ++ " style=" ++ quote
                 ++ Css.inlineStyle styleDeclaration ++ quote ++ r)%string)
      (rewriteClass rest (c, styleDeclaration)).
Proof.
  intros Wc Ps quote attr.
  assert (Pc : isPlainName c = true).
  { unfold isPlainName, isWordName in *. apply andb_prop in Wc as [N W].
    rewrite N. simpl. rewrite <- allChars_forallb.
    apply (allChars_impl Js.isWordChar isPlainChar c wordChar_plain W). }
  unfold rewriteClass. cbn [fst snd].
  destruct (classAttrRegExp_plain c Pc) as (m & -> & Hm).
  set (tok := (c ++ "-" ++ suffix)%string) in *.
  set (x := (String.substring 1 6 classOpen ++ tok ++ quote)%string).
  assert (T : (attr ++ rest)%string = (String "c" x ++ rest)%string).
  { unfold attr, x. change classOpen
      with (String "c" (String.substring 1 6 classOpen)) at 1.
    reflexivity. }
  assert (A : attr = String "c" x) by reflexivity.
  assert (L : S (String.length x) = String.length tok + 8).
  { unfold x, quote. rewrite !slength_app. simpl. lia. }
  assert (M : m (String "c" x ++ rest)%string = Some (S (String.length x))).
  { rewrite Hm, <- T, L. unfold attr, quote.
    rewrite !sapp_assoc. simpl. apply classAttrMatch_hyphen; assumption. }
  assert (Ts : allChars notSpace tok = true).
  { unfold tok. rewrite !allChars_app. unfold isWordName in Wc.
    apply andb_prop in Wc as [_ W].
    rewrite (allChars_impl Js.isWordChar notSpace c
               (fun ch H => plainChar_notSpace ch (wordChar_plain ch H)) W).
    rewrite (allChars_impl isPlainChar notSpace suffix plainChar_notSpace Ps).
    reflexivity. }
  assert (Tq : allChars notQuote tok = true).
  { unfold tok. rewrite !allChars_app. unfold isWordName in Wc.
    apply andb_prop in Wc as [_ W].
    rewrite (allChars_impl Js.isWordChar notQuote c
               (fun ch H => plainChar_notQuote ch (wordChar_plain ch H)) W).
    rewrite (allChars_impl isPlainChar notQuote suffix plainChar_notQuote Ps).
    reflexivity. }
  assert (C : rewriteClassAttr c (Css.inlineStyle styleDeclaration) (String "c" x)
              = Some (attr ++ " style=" ++ quote
                      ++ Css.inlineStyle styleDeclaration ++ quote)%string).
  { unfold rewriteClassAttr. rewrite <- A.
    assert (K : classCapture attr = Some tok).
    { rewrite A. cbn [classCapture]. rewrite <- A. unfold attr.
      rewrite stripPrefix_app. unfold quote.
      now rewrite (upTo_app Markup.dq tok EmptyString Tq). }
    rewrite K, (splitSpaces_one tok Ts). cbn [filter].
    assert (N : String.eqb tok c = false).
    { apply String.eqb_neq. unfold tok. apply sapp_longer. }
    rewrite N. cbn [negb Js.join String.concat].
    assert (Ne : Css.nonEmpty tok = true).
    { unfold tok. destruct c; [discriminate|reflexivity]. }
    rewrite Ne. unfold attr. fold quote. now rewrite !sapp_assoc. }
  rewrite T, (replaceWith_match m _ "c" x rest _ M C).
  destruct (replaceWith m _ 0 rest); cbn [option_map]; [|reflexivity].
  now rewrite !sapp_assoc.
Qed.

(** Witness: the pass for [cls] on an element of class [cls-1]. *)
Lemma fallback_hyphen_prefix_clash_witness :
  isWordName "cls" = true
  /\ rewriteClass (P := referencePlatform)
       (Markup.q "class='cls-1' d='M0 0'/>") ("cls", "fill:red;")
     = Some (Markup.q "class='cls-1' style='fill:red' d='M0 0'/>").
Proof.
  split; [reflexivity|].
  pose proof (fallback_hyphen_prefix_clash (P := referencePlatform)
                "cls" "1" "fill:red;" (Markup.q " d='M0 0'/>")
                eq_refl eq_refl) as H.
  cbv zeta in H.
  assert (E : (Markup.q "class='cls-1' d='M0 0'/>")
              = ((classOpen ++ ("cls" ++ "-" ++ "1") ++ String Markup.dq EmptyString)
                 ++ Markup.q " d='M0 0'/>")%string)
    by (vm_compute; reflexivity).
  rewrite E, H. vm_compute. reflexivity.
Defined.

(** With an argument other than the flag, [main] runs the conversion on an
    input path taken from the arguments; it prints the usage only when no
    such argument is left. *)
Theorem main_converts {P : Platform} {N : PathModule} (argv : list string) :
  argv <> [] -> argv <> [reactNativeFlag] ->
  exists inputPath outputPath reactNative,
    In inputPath argv
    /\ main argv = convertSvgStylesToInline inputPath outputPath reactNative.
Proof.
  intros H1 H2. unfold main.
  destruct (spliceFlag argv) as [args|] eqn:E.
  - assert (I : forall x, In x args -> In x argv).
    { clear -E. revert args E.
      induction argv as [|a r IH]; intros args E; [discriminate|].
      simpl in E. destruct (String.eqb a reactNativeFlag).
      - injection E as <-. intros x Hx. now right.
      - destruct (spliceFlag r) as [r'|]; [|discriminate].
        injection E as <-. intros x [<-|Hx]; [now left|right].
        now apply (IH r'). }
    destruct args as [|inputPath more].
    + exfalso. apply H2. clear -E.
      destruct argv as [|a r]; [discriminate|]. simpl in E.
      destruct (String.eqb_spec a reactNativeFlag) as [->|_].
      * now injection E as ->.
      * destruct (spliceFlag r); discriminate.
    + unfold dispatch. eexists inputPath, _, true.
      split; [apply I; now left|reflexivity].
  - destruct argv as [|inputPath more]; [congruence|].
    unfold dispatch. eexists inputPath, _, false.
    split; [now left|reflexivity].
Qed.

Lemma main_converts_witness :
  exists inputPath outputPath reactNative,
    In inputPath ["a.svg"; "b.svg"; reactNativeFlag]
    /\ main (P := referencePlatform) (N := flatPaths)
            ["a.svg"; "b.svg"; reactNativeFlag]
       = convertSvgStylesToInline (P := referencePlatform)
           inputPath outputPath reactNative.
Proof.
  apply (main_converts (P := referencePlatform) (N := flatPaths));
    discriminate.
Defined.

(* ================================================================== *)
(** ** What the style applier leaves alone *)
(* ================================================================== *)

Lemma sameButClassStyle_refl v : sameButClassStyle v v.
Proof. destruct v as [[t a k|s]|]; simpl; auto. Qed.

Lemma sameButClassStyle_trans v1 v2 v3 :
  sameButClassStyle v1 v2 -> sameButClassStyle v2 v3 -> sameButClassStyle v1 v3.
Proof.
  destruct v1 as [[t1 a1 k1|s1]|], v2 as [[t2 a2 k2|s2]|],
    v3 as [[t3 a3 k3|s3]|]; simpl; try tauto; try congruence.
  intros (-> & -> & E1) (-> & -> & E2). repeat split. congruence.
Qed.

Lemma forEach_frame {P : Platform} cs c (ps : list Dom.Path) : forall d d',
  foldM (fun d' e =>
           Dom.updateAt (applyToElement (styleObject e d') cs c) e d') ps d
  = Some d' ->
  forall q, sameButClassStyle (view q d) (view q d').
Proof.
  induction ps as [|p ps IH]; intros d d' H q; simpl in H.
  - injection H as <-. apply sameButClassStyle_refl.
  - destruct (Dom.updateAt _ p d) as [d1|] eqn:U; [|discriminate].
    apply sameButClassStyle_trans with (view q d1); [|now apply (IH d1)].
    destruct (list_eq_dec Nat.eq_dec q p) as [->|N].
    + destruct (updateAt_view_same _ _ _ _ U)
        as (t & a & k & t' & a' & V & F & V').
      rewrite V, V'. simpl.
      destruct (applyToElement_frame _ _ _ _ _ _ _ F). auto.
    + rewrite (updateAt_view_other _ _ _ _ _ U N). apply sameButClassStyle_refl.
Qed.

(** Whenever the style applier returns, on any platform and for any class
    names, every element has kept its tag, its number of children and all
    its attributes other than [class] and [style], in their order, and
    every text node is unchanged. *)
Theorem applier_frame {P : Platform} (classStyles : Obj.t)
  (d d' : Dom.Document) :
  applyClassStyles classStyles d = Some d' ->
  forall q, sameButClassStyle (view q d) (view q d').
Proof.
  unfold applyClassStyles. generalize (Obj.keys classStyles) as ks.
  intros ks. revert d. induction ks as [|c ks IH]; intros d H q; simpl in H.
  - injection H as <-. apply sameButClassStyle_refl.
  - destruct (applyClass classStyles d c) as [d1|] eqn:A; [|discriminate].
    apply sameButClassStyle_trans with (view q d1); [|now apply (IH d1)].
    unfold applyClass in A. destruct (selectClass c d); [|discriminate].
    now apply (forEach_frame classStyles c l d d1).
Qed.

Lemma applier_frame_witness :
  applyClassStyles (P := referencePlatform)
    (Css.classStyles ".a{fill:red;}") (svgPathWithClass "a b")
  = Some [Dom.Element "svg" [("xmlns", Dom.Plain Dom.svgNamespace)]
            [Dom.Element "path"
               [("class", Dom.Plain "b"); ("d", Dom.Plain "M0 0");
                ("style", Dom.Block [("fill", "red")])] []]]
  /\ sameButClassStyle
       (view [0; 0] (svgPathWithClass "a b"))
       (Some (VElement "path"
                [("class", Dom.Plain "b"); ("d", Dom.Plain "M0 0");
                 ("style", Dom.Block [("fill", "red")])] 0)).
Proof.
  assert (A : applyClassStyles (P := referencePlatform)
                (Css.classStyles ".a{fill:red;}") (svgPathWithClass "a b")
              = Some [Dom.Element "svg" [("xmlns", Dom.Plain Dom.svgNamespace)]
                        [Dom.Element "path"
                           [("class", Dom.Plain "b"); ("d", Dom.Plain "M0 0");
                            ("style", Dom.Block [("fill", "red")])] []]])
    by (vm_compute; reflexivity).
  split; [exact A|].
  exact (applier_frame (P := referencePlatform) _ _ _ A [0; 0]).
Defined.

(* ================================================================== *)
(** ** The replacer of the fallback *)
(* ================================================================== *)

Lemma isToken_inv t :
  isToken t = true ->
  Css.nonEmpty t = true /\ allChars notSpace t = true
  /\ allChars notQuote t = true.
Proof.
  unfold isToken. intros H. apply andb_prop in H as [H Q].
  apply andb_prop in H as [N S]. auto.
Qed.

Lemma splitSpaces_then_space t rest :
  allChars notSpace t = true -> spaceRun rest = 0 -> rest <> EmptyString ->
  splitSpaces (t ++ String " " rest) = t :: splitSpaces rest.
Proof.
  intros Ht Hr Ne. induction t as [|c t IH].
  - simpl. destruct rest as [|d rest']; [congruence|].
    simpl in Hr. destruct (Js.isSpace d); [discriminate|reflexivity].
  - simpl in Ht. apply andb_prop in Ht as [Hc Ht].
    unfold notSpace in Hc. apply negb_true_iff in Hc.
    change (String c t ++ String " " rest)%string
      with (String c (t ++ String " " rest)%string).
    cbn [splitSpaces]. rewrite Hc, (IH Ht). reflexivity.
Qed.

Lemma join_cons t u l :
  Js.join " " (t :: u :: l) = (t ++ String " " (Js.join " " (u :: l)))%string.
Proof. reflexivity. Qed.

Lemma join_tokens_head l :
  Forall (fun t => isToken t = true) l -> l <> [] ->
  spaceRun (Js.join " " l) = 0 /\ Js.join " " l <> EmptyString.
Proof.
  intros F Ne. destruct l as [|t l]; [congruence|].
  inversion F as [|? ? Ht _]; subst.
  destruct (isToken_inv t Ht) as (N & S & _).
  destruct t as [|c t']; [discriminate|].
  simpl in S. apply andb_prop in S as [Sc _].
  unfold notSpace in Sc. apply negb_true_iff in Sc.
  destruct l; simpl; rewrite ?Sc; split; auto; discriminate.
Qed.

Lemma splitSpaces_join l :
  Forall (fun t => isToken t = true) l -> l <> [] ->
  splitSpaces (Js.join " " l) = l.
Proof.
  induction l as [|t l IH]; intros F Ne; [congruence|].
  inversion F as [|? ? Ht Fl]; subst.
  destruct (isToken_inv t Ht) as (_ & S & _).
  destruct l as [|u l].
  - simpl. now apply splitSpaces_one.
  - rewrite join_cons.
    destruct (join_tokens_head (u :: l) Fl) as [H0 H1]; [discriminate|].
    rewrite splitSpaces_then_space by assumption.
    f_equal. apply IH; [exact Fl|discriminate].
Qed.

Lemma join_tokens_notQuote l :
  Forall (fun t => isToken t = true) l ->
  allChars notQuote (Js.join " " l) = true.
Proof.
  induction l as [|t l IH]; intros F; [reflexivity|].
  inversion F as [|? ? Ht Fl]; subst.
  destruct (isToken_inv t Ht) as (_ & _ & Q).
  destruct l as [|u l]; [exact Q|].
  rewrite join_cons, allChars_app, Q. simpl. now apply IH.
Qed.

(** On a class attribute whose tokens are separated by single spaces, the
    replacer of the fallback drops exactly the tokens equal to the class
    name, keeps the others in their order and appends the style attribute;
    when no token is left it emits the style attribute alone. *)
Theorem replacer_keeps_other_classes
  (className inlineStyle : string) (tokens : list string) :
  tokens <> [] -> forallb isToken tokens = true ->
  let quote := String Markup.dq EmptyString in
  let others := filter (fun c => negb (String.eqb c className)) tokens in
  rewriteClassAttr className inlineStyle
    (classOpen ++ Js.join " " tokens ++ quote)
  = Some (match others with
          | [] => ("style=" ++ quote ++ inlineStyle ++ quote)%string
          | _ :: _ =>
              (classOpen ++ Js.join " " others ++ quote
               ++ " style=" ++ quote ++ inlineStyle ++ quote)%string
          end).
Proof.
  intros Ne F quote others. rewrite forallb_forall in F.
  assert (FA : Forall (fun t => isToken t = true) tokens)
    by (apply Forall_forall; exact F).
  unfold rewriteClassAttr.
  assert (K : classCapture (classOpen ++ Js.join " " tokens ++ quote)
              = Some (Js.join " " tokens)).
  { change (classOpen ++ Js.join " " tokens ++ quote)%string
      with (String "c" (String.substring 1 6 classOpen
                        ++ Js.join " " tokens ++ quote)%string).
    cbn [classCapture].
    change (String "c" (String.substring 1 6 classOpen
                        ++ Js.join " " tokens ++ quote)%string)
      with (classOpen ++ Js.join " " tokens ++ quote)%string.
    rewrite stripPrefix_app. unfold quote.
    now rewrite (upTo_app Markup.dq _ EmptyString (join_tokens_notQuote _ FA)). }
  rewrite K, (splitSpaces_join tokens FA Ne). fold others. fold quote.
  assert (FO : Forall (fun t => isToken t = true) others).
  { apply Forall_forall. intros x Hx. apply filter_In in Hx as [Hx _]. auto. }
  destruct others as [|o os] eqn:Eo; [reflexivity|].
  destruct (join_tokens_head (o :: os) FO) as [_ H1]; [discriminate|].
  destruct (Js.join " " (o :: os)) eqn:J; [congruence|]. reflexivity.
Qed.

Lemma replacer_keeps_other_classes_witness :
  forallb isToken ["x"; "a"; "y"; "a"] = true
  /\ rewriteClassAttr "a" "fill:red" (Markup.q "class='x a y a'")
     = Some (Markup.q "class='x y' style='fill:red'").
Proof.
  split; [reflexivity|].
  assert (E : Markup.q "class='x a y a'"
              = (classOpen ++ Js.join " " ["x"; "a"; "y"; "a"]
                 ++ String Markup.dq EmptyString)%string)
    by (vm_compute; reflexivity).
  rewrite E.
  rewrite (replacer_keeps_other_classes "a" "fill:red" ["x"; "a"; "y"; "a"]);
    [vm_compute; reflexivity|discriminate|reflexivity].
Defined.

(* ================================================================== *)
(** ** Rules with an empty body *)
(* ================================================================== *)

Lemma matchRule_empty_body sel rest :
  allChars notOpenBrace sel = true ->
  Css.matchRule (sel ++ "{}" ++ rest) = None.
Proof.
  intros H. unfold Css.matchRule.
  change (sel ++ "{}" ++ rest)%string
    with (sel ++ String "{" (String "}" rest))%string.
  rewrite (upTo_app "{" sel _ H).
  destruct sel; reflexivity.
Qed.

Lemma execRules_empty_body name rest :
  allChars notOpenBrace name = true ->
  Css.execRules 0 (name ++ "{}" ++ rest) = Css.execRules 0 rest.
Proof.
  induction name as [|c name IH]; intros H.
  - simpl. destruct rest; reflexivity.
  - simpl in H. apply andb_prop in H as [_ H].
    change (String c name ++ "{}" ++ rest)%string
      with (String c (name ++ "{}" ++ rest)%string).
    cbn [Css.execRules]. rewrite (matchRule_empty_body name rest H).
    destruct (Ascii.eqb c "."); now apply IH.
Qed.

(** A rule whose braces hold nothing is not a rule for the parser: the
    scan passes over it, so the class keeps its attribute on the elements
    and no declaration is recorded for it. *)
Theorem empty_body_is_no_rule (name rest : string) :
  allChars notOpenBrace name = true ->
  Css.rules ("." ++ name ++ "{}" ++ rest) = Css.rules rest.
Proof.
  intros H. unfold Css.rules. f_equal.
  change ("." ++ name ++ "{}" ++ rest)%string
    with (String "." name ++ "{}" ++ rest)%string.
  apply execRules_empty_body. simpl. exact H.
Qed.

Lemma empty_body_is_no_rule_witness :
  allChars notOpenBrace "a" = true
  /\ Css.rules ".a{}.b{fill:red;}" = [("b", "fill:red;")].
Proof.
  split; [reflexivity|].
  change ".a{}.b{fill:red;}" with ("." ++ "a" ++ "{}" ++ ".b{fill:red;}")%string.
  rewrite (empty_body_is_no_rule "a" ".b{fill:red;}" eq_refl).
  vm_compute. reflexivity.
Defined.

(* ================================================================== *)
(** ** Which elements the structured pipeline removes *)
(* ================================================================== *)

Lemma tagsOf_erase (n : Dom.Node) : tagsOf (erase n) = tagsOf n.
Proof.
  induction n as [s|t a kids IH] using Node_forall_ind; [reflexivity|].
  cbn [erase tagsOf]. f_equal.
  induction IH as [|k kids Hk _ IHk]; [reflexivity|].
  cbn [map flat_map]. now rewrite Hk, IHk.
Qed.

Lemma tagList_erase (d : Dom.Document) : tagList (map erase d) = tagList d.
Proof.
  unfold tagList. induction d as [|n d IH]; [reflexivity|].
  cbn [map flat_map]. now rewrite tagsOf_erase, IH.
Qed.

Lemma replaceNth_erase (x n : Dom.Node) : forall (d : list Dom.Node) i,
  nth_error d i = Some n -> erase x = erase n ->
  map erase (Dom.replaceNth i x d) = map erase d.
Proof.
  induction d as [|m d IH]; intros [|i] H E; simpl in *; try discriminate.
  - injection H as ->. now rewrite E.
  - now rewrite (IH i H E).
Qed.

Lemma updateAt_erase f (Hf : forall t a t' a', f t a = Some (t', a') -> t' = t)
  (p : Dom.Path) : forall d d',
  Dom.updateAt f p d = Some d' -> map erase d' = map erase d.
Proof.
  induction p as [|i q IH]; intros d d' H; [discriminate|].
  cbn [Dom.updateAt] in H.
  destruct (nth_error d i) as [[t a kids|s]|] eqn:E; try discriminate.
  destruct q as [|j q].
  - destruct (f t a) as [[t' a']|] eqn:F; [|discriminate].
    injection H as <-. apply (replaceNth_erase _ _ _ _ E).
    now rewrite (Hf _ _ _ _ F).
  - destruct (Dom.updateAt f (j :: q) kids) as [kids'|] eqn:U; [|discriminate].
    injection H as <-. apply (replaceNth_erase _ _ _ _ E).
    cbn [erase]. now rewrite (IH kids kids' U).
Qed.

Lemma applier_erase {P : Platform} (classStyles : Obj.t) :
  forall d d', applyClassStyles classStyles d = Some d' ->
  map erase d' = map erase d.
Proof.
  unfold applyClassStyles. generalize (Obj.keys classStyles) as ks.
  induction ks as [|c ks IH]; intros d d' H; simpl in H.
  - now injection H as <-.
  - destruct (applyClass classStyles d c) as [d1|] eqn:A; [|discriminate].
    rewrite (IH d1 d' H). clear H IH.
    unfold applyClass in A. destruct (selectClass c d) as [ps|]; [|discriminate].
    revert d A. induction ps as [|p ps IHp]; intros d A; simpl in A.
    + now injection A as <-.
    + destruct (Dom.updateAt _ p d) as [d0|] eqn:U; [|discriminate].
      rewrite (IHp d0 A). apply (updateAt_erase _) in U; [exact U|].
      intros t a t' a' F. now destruct (applyToElement_frame _ _ _ _ _ _ _ F).
Qed.

Lemma getNode_erase (p : Dom.Path) : forall d,
  Dom.getNode p (map erase d) = option_map erase (Dom.getNode p d).
Proof.
  induction p as [|i q IH]; intros d; [reflexivity|].
  cbn [Dom.getNode]. rewrite nth_error_map.
  destruct (nth_error d i) as [n|]; [|reflexivity]. cbn [option_map].
  destruct q as [|j q]; [reflexivity|].
  destruct n as [t a kids|s]; [|reflexivity].
  cbn [erase]. apply IH.
Qed.

Lemma removeNth_app {A : Type} (x : A) (l r : list A) :
  Dom.removeNth (List.length l) (l ++ x :: r) = (l ++ r)%list.
Proof. induction l as [|y l IH]; simpl; [reflexivity|now rewrite IH]. Qed.

Lemma replaceNth_app {A : Type} (x y : A) (l r : list A) :
  Dom.replaceNth (List.length l) y (l ++ x :: r) = (l ++ y :: r)%list.
Proof. induction l as [|z l IH]; simpl; [reflexivity|now rewrite IH]. Qed.

Lemma tagList_app (l r : Dom.Document) :
  tagList (l ++ r)%list = (tagList l ++ tagList r)%list.
Proof. apply flat_map_app. Qed.

(** Removing a node takes its tags, and nothing else, out of the sequence
    of tags. *)
Lemma removeAt_tags (p : Dom.Path) : forall d n,
  Dom.getNode p d = Some n ->
  exists pre post,
    tagList d = (pre ++ tagsOf n ++ post)%list
    /\ tagList (Dom.removeAt p d) = (pre ++ post)%list.
Proof.
  induction p as [|i q IH]; intros d n H; [discriminate|].
  cbn [Dom.getNode] in H. cbn [Dom.removeAt].
  destruct (nth_error d i) as [m|] eqn:E; [|discriminate].
  destruct (nth_error_split _ _ E) as (l & r & -> & L). subst i.
  clear E.
  destruct q as [|j q].
  - injection H as ->. exists (tagList l), (tagList r).
    rewrite removeNth_app, !tagList_app. split; reflexivity.
  - destruct m as [t a kids|s]; [|discriminate].
    destruct (IH kids n H) as (pre & post & T & R).
    exists (tagList l ++ t :: pre)%list, (post ++ tagList r)%list.
    rewrite replaceNth_app, !tagList_app.
    change (tagList (Dom.Element t a kids :: r))
      with (t :: tagList kids ++ tagList r)%list.
    change (tagList (Dom.Element t a (Dom.removeAt (j :: q) kids) :: r))
      with (t :: tagList (Dom.removeAt (j :: q) kids) ++ tagList r)%list.
    rewrite T, R. split.
    + repeat (rewrite <- app_assoc || rewrite <- app_comm_cons). reflexivity.
    + repeat (rewrite <- app_assoc || rewrite <- app_comm_cons). reflexivity.
Qed.

Lemma childless_tags t a kids :
  Dom.childElementCount (Dom.Element t a kids) = 0 ->
  tagsOf (Dom.Element t a kids) = [t].
Proof.
  cbn [Dom.childElementCount tagsOf]. intros H. f_equal.
  induction kids as [|[t' a' k'|s] kids IH]; [reflexivity|discriminate|].
  apply IH. exact H.
Qed.

Lemma first_byTagName name d q :
  first (Dom.byTagName name d) = Some q ->
  exists a kids, Dom.getNode q d = Some (Dom.Element name a kids).
Proof.
  unfold first. destruct (Dom.byTagName name d) as [|q' l] eqn:B; [discriminate|].
  intros H. injection H as ->.
  assert (I : In q (Dom.byTagName name d)) by (rewrite B; now left).
  unfold Dom.byTagName in I. apply filter_In in I as [_ T].
  unfold Dom.tagIs, Dom.getElement in T.
  destruct (Dom.getNode q d) as [[t a kids|s]|]; try discriminate.
  apply String.eqb_eq in T as ->. eauto.
Qed.

(** The structured pipeline drops the style element with what it holds
    and, at most, one [defs] element; every other element of the input is
    in the output, with its tag, in the same document order, and no
    element is added. *)
Theorem inlineStyles_elements {P : Platform} (styleElement : Dom.Path)
  (d d' : Dom.Document) (node : Dom.Node) :
  Dom.getNode styleElement d = Some node ->
  inlineStyles styleElement d = Some d' ->
  exists pre post,
    tagList d = (pre ++ tagsOf node ++ post)%list
    /\ (tagList d' = (pre ++ post)%list
        \/ exists l r, (pre ++ post = l ++ "defs" :: r)%list
                       /\ tagList d' = (l ++ r)%list).
Proof.
  intros G H. unfold inlineStyles in H. rewrite G in H.
  destruct (applyClassStyles _ d) as [d1|] eqn:A; [|discriminate].
  apply applier_erase in A.
  assert (G1 : exists n1, Dom.getNode styleElement d1 = Some n1
                          /\ tagsOf n1 = tagsOf node).
  { pose proof (getNode_erase styleElement d1) as E1.
    rewrite A, getNode_erase, G in E1.
    destruct (Dom.getNode styleElement d1) as [n1|]; [|discriminate].
    injection E1 as E1. exists n1. split; [reflexivity|].
    now rewrite <- (tagsOf_erase n1), <- E1, tagsOf_erase. }
  destruct G1 as (n1 & G1 & T1).
  destruct (removeAt_tags _ _ _ G1) as (pre & post & T & R).
  exists pre, post.
  rewrite <- (tagList_erase d), <- A, tagList_erase, <- T1. split; [exact T|].
  cbv zeta in H.
  destruct (first _) as [q|] eqn:F; [|injection H as <-; now left].
  destruct (first_byTagName _ _ _ F) as (a & kids & Gq). rewrite Gq in H.
  destruct (Dom.childElementCount _ =? 0)%nat eqn:C;
    [|injection H as <-; now left].
  injection H as <-. apply Nat.eqb_eq in C.
  destruct (removeAt_tags _ _ _ Gq) as (l & r & Tq & Rq).
  rewrite (childless_tags _ _ _ C) in Tq.
  right. exists l, r. split; [now rewrite <- R, Tq|exact Rq].
Qed.

Lemma inlineStyles_elements_witness :
  exists pre post,
    tagList styleInDefs = (pre ++ ["style"] ++ post)%list
    /\ (tagList [Dom.Element "svg" [("xmlns", Dom.Plain Dom.svgNamespace)]
                   [Dom.Element "path"
                      [("style", Dom.Block [("fill", "red")])] []]]
        = (pre ++ post)%list
        \/ exists l r, (pre ++ post = l ++ "defs" :: r)%list
                       /\ tagList [Dom.Element "svg"
                                     [("xmlns", Dom.Plain Dom.svgNamespace)]
                                     [Dom.Element "path"
                                        [("style", Dom.Block [("fill", "red")])]
                                        []]]
                          = (l ++ r)%list).
Proof.
  refine (inlineStyles_elements (P := referencePlatform) [0; 0; 0] styleInDefs
            [Dom.Element "svg" [("xmlns", Dom.Plain Dom.svgNamespace)]
               [Dom.Element "path" [("style", Dom.Block [("fill", "red")])] []]]
            (Dom.Element "style" [] [Dom.Text ".a{fill:red;}"]) _ _);
    vm_compute; reflexivity.
Defined.

(* ================================================================== *)
(** ** C9: data-name values *)
(* ================================================================== *)

(** *** What is read off the elements *)

Lemma labels_app {X : Type} (g : string -> Dom.Attrs -> list X)
  (l r : Dom.Document) :
  labels g (l ++ r)%list = (labels g l ++ labels g r)%list.
Proof. apply flat_map_app. Qed.

Lemma labels_replaceNth {X : Type} (g : string -> Dom.Attrs -> list X)
  (x n : Dom.Node) : forall (d : list Dom.Node) i,
  nth_error d i = Some n -> labelsOf g x = labelsOf g n ->
  labels g (Dom.replaceNth i x d) = labels g d.
Proof.
  unfold labels.
  induction d as [|m d IH]; intros [|i] H E; simpl in *; try discriminate.
  - injection H as ->. now rewrite E.
  - now rewrite (IH i H E).
Qed.

(** A change of one element that keeps what [g] reads keeps what [g] reads
    off the document. *)
Lemma updateAt_labels {X : Type} (g : string -> Dom.Attrs -> list X) f
  (Hf : forall t a t' a', f t a = Some (t', a') -> g t' a' = g t a)
  (p : Dom.Path) : forall d d',
  Dom.updateAt f p d = Some d' -> labels g d' = labels g d.
Proof.
  induction p as [|i q IH]; intros d d' H; [discriminate|].
  cbn [Dom.updateAt] in H.
  destruct (nth_error d i) as [[t a kids|s]|] eqn:E; try discriminate.
  destruct q as [|j q].
  - destruct (f t a) as [[t' a']|] eqn:F; [|discriminate].
    injection H as <-. apply (labels_replaceNth _ _ _ _ _ E).
    cbn [labelsOf]. now rewrite (Hf _ _ _ _ F).
  - destruct (Dom.updateAt f (j :: q) kids) as [kids'|] eqn:U; [|discriminate].
    injection H as <-. apply (labels_replaceNth _ _ _ _ _ E).
    cbn [labelsOf]. f_equal. exact (IH kids kids' U).
Qed.

(** Removing a node takes what [g] reads off it, and nothing else, out of
    what [g] reads off the document. *)
Lemma removeAt_labels {X : Type} (g : string -> Dom.Attrs -> list X)
  (p : Dom.Path) : forall d n,
  Dom.getNode p d = Some n ->
  exists pre post,
    labels g d = (pre ++ labelsOf g n ++ post)%list
    /\ labels g (Dom.removeAt p d) = (pre ++ post)%list.
Proof.
  induction p as [|i q IH]; intros d n H; [discriminate|].
  cbn [Dom.getNode] in H. cbn [Dom.removeAt].
  destruct (nth_error d i) as [m|] eqn:E; [|discriminate].
  destruct (nth_error_split _ _ E) as (l & r & -> & L). subst i.
  clear E.
  destruct q as [|j q].
  - injection H as ->. exists (labels g l), (labels g r).
    rewrite removeNth_app, !labels_app. split; reflexivity.
  - destruct m as [t a kids|s]; [|discriminate].
    destruct (IH kids n H) as (pre & post & T & R).
    exists (labels g l ++ g t a ++ pre)%list, (post ++ labels g r)%list.
    rewrite replaceNth_app, !labels_app.
    change (labels g (Dom.Element t a kids :: r))
      with ((g t a ++ labels g kids) ++ labels g r)%list.
    change (labels g (Dom.Element t a (Dom.removeAt (j :: q) kids) :: r))
      with ((g t a ++ labels g (Dom.removeAt (j :: q) kids))
            ++ labels g r)%list.
    rewrite T, R. split; now rewrite <- !app_assoc.
Qed.

(** What [g] reads off an element of the document is among what it reads
    off the document. *)
Lemma view_labels {X : Type} (g : string -> Dom.Attrs -> list X)
  (q : Dom.Path) : forall d t a k x,
  view q d = Some (VElement t a k) -> In x (g t a) -> In x (labels g d).
Proof.
  induction q as [|i q IH]; intros d t a k x V Hx; [discriminate|].
  rewrite view_cons in V.
  destruct (nth_error d i) as [n|] eqn:E; [|discriminate].
  destruct (nth_error_split _ _ E) as (l & r & -> & _).
  rewrite labels_app. apply in_or_app. right.
  change (labels g (n :: r)) with (labelsOf g n ++ labels g r)%list.
  apply in_or_app. left.
  destruct q as [|j q].
  - destruct n as [t0 a0 kids|s]; [|discriminate].
    simpl in V. injection V as <- <- _. cbn [labelsOf].
    apply in_or_app. now left.
  - destruct n as [t0 a0 kids|s]; [|discriminate].
    cbn [labelsOf]. apply in_or_app. right.
    exact (IH kids t a k x V Hx).
Qed.

Lemma labels_mono {X : Type} (g g' : string -> Dom.Attrs -> list X)
  (H : forall t a x, In x (g t a) -> In x (g' t a)) (n : Dom.Node) :
  forall x, In x (labelsOf g n) -> In x (labelsOf g' n).
Proof.
  induction n as [s|t a kids IH] using Node_forall_ind; intros x Hx;
    [exact Hx|].
  cbn [labelsOf] in *. apply in_app_or in Hx as [Hx|Hx]; apply in_or_app.
  - left. now apply H.
  - right. apply in_flat_map in Hx as (k & Hk & Hx). apply in_flat_map.
    exists k. split; [exact Hk|].
    rewrite Forall_forall in IH. now apply (IH k Hk).
Qed.

(** A node that holds no element gives [g] nothing to read below it. *)
Lemma labels_text_only {X : Type} (g : string -> Dom.Attrs -> list X) kids :
  Forall (fun k => Markup.isElement k = false) kids ->
  flat_map (labelsOf g) kids = [].
Proof.
  induction 1 as [|k kids Hk _ IH]; [reflexivity|].
  simpl. rewrite IH. destruct k; [discriminate|reflexivity].
Qed.

Lemma childless_text_only t a kids :
  Dom.childElementCount (Dom.Element t a kids) = 0 ->
  Forall (fun k => Markup.isElement k = false) kids.
Proof.
  cbn [Dom.childElementCount].
  induction kids as [|[t' a' k'|s] kids IH]; intros H; [constructor| |].
  - discriminate.
  - constructor; [reflexivity|]. now apply IH.
Qed.

Lemma erase_text_only kids : forall kids',
  map erase kids' = map erase kids ->
  Forall (fun k => Markup.isElement k = false) kids ->
  Forall (fun k => Markup.isElement k = false) kids'.
Proof.
  induction kids as [|k kids IH]; intros [|k' kids'] E F; try discriminate;
    [constructor|].
  simpl in E. injection E as Ek E. inversion F as [|? ? Hk F']; subst.
  constructor; [|now apply IH].
  destruct k as [|s]; [discriminate|]. destruct k'; [discriminate|reflexivity].
Qed.

(** *** Layer names through the pipeline *)

Lemma getAttribute_other key l :
  isOther key = true ->
  Dom.getAttribute key l = Dom.getAttribute key (otherAttrs l).
Proof.
  intros K. induction l as [|[n v] l IH]; [reflexivity|].
  rewrite otherAttrs_cons. cbn [Dom.getAttribute].
  destruct (String.eqb_spec key n) as [<-|N].
  - rewrite K. cbn [Dom.getAttribute]. now rewrite String.eqb_refl.
  - destruct (isOther n); [|exact IH].
    cbn [Dom.getAttribute]. apply String.eqb_neq in N. now rewrite N.
Qed.

Lemma layerName_other keep t a a' :
  otherAttrs a' = otherAttrs a -> layerName keep t a' = layerName keep t a.
Proof.
  intros E. unfold layerName, lastAttribute.
  rewrite (getAttribute_other "data-name" (rev a')) by reflexivity.
  rewrite (getAttribute_other "data-name" (rev a)) by reflexivity.
  unfold otherAttrs in *. now rewrite !filter_rev, E.
Qed.

(** The style applier changes no layer name. *)
Lemma applier_labels {P : Platform} keep (classStyles : Obj.t) :
  forall d d', applyClassStyles classStyles d = Some d' ->
  labels (layerName keep) d' = labels (layerName keep) d.
Proof.
  unfold applyClassStyles. generalize (Obj.keys classStyles) as ks.
  induction ks as [|c ks IH]; intros d d' H; simpl in H.
  - now injection H as <-.
  - destruct (applyClass classStyles d c) as [d1|] eqn:A; [|discriminate].
    rewrite (IH d1 d' H). clear H IH.
    unfold applyClass in A. destruct (selectClass c d) as [ps|]; [|discriminate].
    revert d A. induction ps as [|p ps IHp]; intros d A; simpl in A.
    + now injection A as <-.
    + destruct (Dom.updateAt _ p d) as [d0|] eqn:U; [|discriminate].
      rewrite (IHp d0 A). apply (updateAt_labels (layerName keep)) in U;
        [exact U|].
      intros t a t' a' F.
      destruct (applyToElement_frame _ _ _ _ _ _ _ F) as [-> E].
      now apply layerName_other.
Qed.

Lemma first_byDescendant anc desc d q :
  first (Dom.byDescendant anc desc d) = Some q ->
  exists a kids, Dom.getNode q d = Some (Dom.Element desc a kids).
Proof.
  unfold first. destruct (Dom.byDescendant anc desc d) as [|q' l] eqn:B;
    [discriminate|].
  intros H. injection H as ->.
  assert (I : In q (Dom.byDescendant anc desc d)) by (rewrite B; now left).
  unfold Dom.byDescendant in I. apply filter_In in I as [_ T].
  apply andb_prop in T as [T _].
  unfold Dom.tagIs, Dom.getElement in T.
  destruct (Dom.getNode q d) as [[t a kids|s]|]; try discriminate.
  apply String.eqb_eq in T as ->. eauto.
Qed.

(** Inlining the styles removes a style element that holds no element and,
    at most, a [defs] element without element children: the layer names of
    the other elements stay, in their order. *)
Lemma inlineStyles_labels {P : Platform} el d d' sa skids :
  Dom.getNode el d = Some (Dom.Element "style" sa skids) ->
  Dom.childElementCount (Dom.Element "style" sa skids) = 0 ->
  inlineStyles el d = Some d' ->
  labels (layerName notContainer) d' = labels (layerName notContainer) d.
Proof.
  intros G C H. unfold inlineStyles in H. rewrite G in H.
  destruct (applyClassStyles _ d) as [d1|] eqn:A; [|discriminate].
  pose proof (applier_labels notContainer _ _ _ A) as L1.
  apply applier_erase in A.
  assert (G1 : exists a1 k1,
             Dom.getNode el d1 = Some (Dom.Element "style" a1 k1)
             /\ Forall (fun k => Markup.isElement k = false) k1).
  { pose proof (getNode_erase el d1) as E1.
    rewrite A, getNode_erase, G in E1.
    destruct (Dom.getNode el d1) as [[t1 a1 k1|s]|]; try discriminate.
    cbn [option_map erase] in E1. injection E1 as Ek Et. subst t1.
    exists a1, k1. split; [reflexivity|].
    apply (erase_text_only skids); [now symmetry|].
    now apply (childless_text_only "style" sa). }
  destruct G1 as (a1 & k1 & G1 & T1).
  destruct (removeAt_labels (layerName notContainer) _ _ _ G1)
    as (pre & post & T & R).
  cbn [labelsOf] in T. rewrite (labels_text_only _ _ T1) in T.
  change (layerName notContainer "style" a1) with (@nil string) in T.
  cbn [app] in T.
  assert (L2 : labels (layerName notContainer) (Dom.removeAt el d1)
               = labels (layerName notContainer) d) by congruence.
  cbv zeta in H.
  destruct (first _) as [q|] eqn:F; [|injection H as <-; exact L2].
  destruct (first_byTagName _ _ _ F) as (a & kids & Gq). rewrite Gq in H.
  destruct (Dom.childElementCount _ =? 0)%nat eqn:Cq;
    [|injection H as <-; exact L2].
  injection H as <-. apply Nat.eqb_eq in Cq.
  destruct (removeAt_labels (layerName notContainer) _ _ _ Gq)
    as (l & r & Tq & Rq).
  cbn [labelsOf] in Tq.
  rewrite (labels_text_only _ _ (childless_text_only _ _ _ Cq)) in Tq.
  change (layerName notContainer "defs" a) with (@nil string) in Tq.
  cbn [app] in Tq. congruence.
Qed.

(** *** Renaming *)

Lemma distinct_setAttribute n v a :
  distinct (map fst a) = true ->
  distinct (map fst (Dom.setAttribute n v a)) = true.
Proof.
  intros D. destruct (Dom.mem n (map fst a)) eqn:M.
  - assert (E : map fst (Dom.setAttribute n v a) = map fst a).
    { clear D. induction a as [|[m w] a IH]; [discriminate|].
      simpl in *. destruct (String.eqb n m); [reflexivity|].
      simpl in M. simpl. f_equal. now apply IH. }
    now rewrite E.
  - rewrite (setAttribute_fresh n v a M), map_app.
    clear -D M. induction a as [|[m w] a IH]; [reflexivity|].
    simpl in *. apply andb_prop in D as [Dm Da].
    apply orb_false_iff in M as [Nm M].
    rewrite (IH Da M), andb_true_r, mem_app. simpl.
    apply negb_true_iff in Dm. rewrite Dm. simpl.
    rewrite String.eqb_sym, Nm. reflexivity.
Qed.

Lemma getAttribute_app n l r :
  Dom.getAttribute n (l ++ r)%list
  = match Dom.getAttribute n l with
    | Some v => Some v
    | None => Dom.getAttribute n r
    end.
Proof.
  induction l as [|[m w] l IH]; [reflexivity|].
  simpl. destruct (String.eqb n m); [reflexivity|exact IH].
Qed.

Lemma getAttribute_absent n a :
  Dom.mem n (map fst a) = false -> Dom.getAttribute n a = None.
Proof.
  induction a as [|[m w] a IH]; [reflexivity|].
  simpl. intros H. apply orb_false_iff in H as [E H]. rewrite E. now apply IH.
Qed.

(** In a list with one entry per name the last attribute of a name is the
    first. *)
Lemma getAttribute_rev n a :
  distinct (map fst a) = true ->
  Dom.getAttribute n (rev a) = Dom.getAttribute n a.
Proof.
  induction a as [|[m w] a IH]; [reflexivity|].
  simpl. intros D. apply andb_prop in D as [Dm Da].
  apply negb_true_iff in Dm.
  rewrite getAttribute_app, (IH Da). simpl.
  destruct (String.eqb_spec n m) as [->|N]; [|now destruct (Dom.getAttribute n a)].
  now rewrite (getAttribute_absent m a Dm).
Qed.

Lemma copy_get n a : forall acc,
  Dom.getAttribute n
    (fold_left (fun acc nv =>
                  Dom.setAttribute (fst nv) (Dom.Plain (Dom.attrText (snd nv))) acc)
               a acc)
  = match Dom.getAttribute n (rev a) with
    | Some v => Some (Dom.Plain (Dom.attrText v))
    | None => Dom.getAttribute n acc
    end.
Proof.
  induction a as [|[m w] a IH]; intros acc; [reflexivity|].
  simpl. rewrite IH, getAttribute_app.
  destruct (Dom.getAttribute n (rev a)); [reflexivity|].
  simpl. destruct (String.eqb_spec n m) as [->|N].
  - apply getAttribute_setAttribute_same.
  - now apply getAttribute_setAttribute_other.
Qed.

Lemma copy_distinct a : forall acc,
  distinct (map fst acc) = true ->
  distinct (map fst
    (fold_left (fun acc nv =>
                  Dom.setAttribute (fst nv) (Dom.Plain (Dom.attrText (snd nv))) acc)
               a acc)) = true.
Proof.
  induction a as [|[m w] a IH]; intros acc D; [exact D|].
  simpl. apply IH. now apply distinct_setAttribute.
Qed.

(** Copying the attributes keeps the layer name. *)
Lemma layerName_copy keep t a :
  layerName keep t (copyAttributes a) = layerName keep t a.
Proof.
  unfold layerName, lastAttribute, copyAttributes.
  rewrite getAttribute_rev by (apply copy_distinct; reflexivity).
  rewrite copy_get. destruct (Dom.getAttribute "data-name" (rev a));
    reflexivity.
Qed.

(** The renamer changes no layer name. *)
Lemma rename_labels d d' :
  convertToReactNativeSvg d = Some d' ->
  labels (layerName (fun _ => true)) d' = labels (layerName (fun _ => true)) d.
Proof.
  unfold convertToReactNativeSvg. generalize svgElements as ns.
  intros ns. revert d. induction ns as [|n ns IH]; intros d H; simpl in H.
  - now injection H as <-.
  - destruct (renameTag d n) as [d1|] eqn:R; [|discriminate].
    rewrite (IH d1 H). clear H IH. unfold renameTag in R.
    revert R. generalize (Dom.byTagName n d) as ps. intros ps. revert d.
    induction ps as [|p ps IHp]; intros d0 R; simpl in R.
    + now injection R as <-.
    + destruct (Dom.updateAt (renamed n) p d0) as [d2|] eqn:U; [|discriminate].
      rewrite (IHp d2 R).
      apply (updateAt_labels (layerName (fun _ => true))) in U; [exact U|].
      intros t a t' a' F. unfold renamed in F. injection F as <- <-.
      transitivity (layerName (fun _ => true) t (copyAttributes a));
        [reflexivity|apply layerName_copy].
Qed.

(** *** The serializer *)

Lemma sapp_empty (s : string) : (s ++ "")%string = s.
Proof. induction s as [|c s IH]; simpl; [reflexivity|now rewrite IH]. Qed.

Lemma occursIn_app_l x a b : occursIn x a -> occursIn x (a ++ b).
Proof.
  intros (pre & post & ->). exists pre, (post ++ b)%string.
  now rewrite !sapp_assoc.
Qed.

Lemma occursIn_app_r x a b : occursIn x b -> occursIn x (a ++ b).
Proof.
  intros (pre & post & ->). exists (a ++ pre)%string, post.
  now rewrite !sapp_assoc.
Qed.

Lemma occursIn_concat x s l :
  In s l -> occursIn x s -> occursIn x (String.concat "" l).
Proof.
  induction l as [|y l IH]; [intros []|]. intros [<-|H] O.
  - destruct l; [exact O|]. simpl. now apply occursIn_app_l.
  - destruct l as [|z l]; [destruct H|].
    change (String.concat "" (y :: z :: l))
      with (y ++ "" ++ String.concat "" (z :: l))%string.
    apply occursIn_app_r. now apply IH.
Qed.

Lemma getAttribute_In n v a : Dom.getAttribute n a = Some v -> In (n, v) a.
Proof.
  induction a as [|[m w] a IH]; [discriminate|].
  simpl. destruct (String.eqb_spec n m) as [->|N].
  - intros E. injection E as ->. now left.
  - intros E. right. now apply IH.
Qed.

Lemma serializeAttrs_occurs v a :
  In v (layerName (fun _ => true) EmptyString a) ->
  occursIn (dataNameAttribute v) (Markup.serializeAttrs a).
Proof.
  unfold layerName, lastAttribute. cbv beta iota.
  destruct (Dom.getAttribute "data-name" (rev a)) as [w|] eqn:G; [|intros []].
  intros [<-|[]]. apply getAttribute_In, in_rev in G.
  unfold Markup.serializeAttrs.
  apply (occursIn_concat _ (" " ++ dataNameAttribute (Dom.attrText w))).
  - apply in_map_iff. exists ("data-name", w). split; [reflexivity|exact G].
  - exists " ", EmptyString. now rewrite sapp_empty.
Qed.

Lemma serializeNode_occurs v (n : Dom.Node) :
  In v (labelsOf (layerName (fun _ => true)) n) ->
  occursIn (dataNameAttribute v) (Markup.serializeNode n).
Proof.
  induction n as [s|t a kids IH] using Node_forall_ind; [intros []|].
  cbn [labelsOf]. intros H. apply in_app_or in H as [H|H].
  - apply (serializeAttrs_occurs v a) in H.
    cbn [Markup.serializeNode]. destruct kids.
    + apply occursIn_app_r, occursIn_app_r. now apply occursIn_app_l.
    + apply occursIn_app_r, occursIn_app_r. now apply occursIn_app_l.
  - apply in_flat_map in H as (k & Hk & H).
    rewrite Forall_forall in IH. apply (IH k Hk) in H.
    cbn [Markup.serializeNode]. destruct kids as [|k0 kids]; [destruct Hk|].
    do 4 apply occursIn_app_r. apply occursIn_app_l.
    apply (occursIn_concat _ (Markup.serializeNode k)); [|exact H].
    now apply in_map.
Qed.

(** Every layer name of a tree is in its serialization. *)
Lemma serialize_occurs v d :
  In v (labels (layerName (fun _ => true)) d) ->
  occursIn (dataNameAttribute v) (Markup.serialize d).
Proof.
  intros H. apply in_flat_map in H as (n & Hn & H).
  apply (occursIn_concat _ (Markup.serializeNode n)).
  - now apply in_map.
  - now apply serializeNode_occurs.
Qed.

(** What the structured pipeline writes when it runs to its end. *)
Lemma structured_layer_names {P : Platform}
  (inputPath outputPath : string) (reactNative : bool)
  (svgContent : string) (doc : Dom.Document) (w : World) :
  lookupFile inputPath (files w) = Some svgContent ->
  parseXml (sanitize svgContent) = Some doc ->
  styleHoldsText doc = true ->
  reachesWrite reactNative doc = true ->
  snd (structured inputPath outputPath reactNative w) = Some tt ->
  exists final,
    lookupFile outputPath
      (files (fst (structured inputPath outputPath reactNative w)))
    = Some (Markup.serialize final)
    /\ forall v, In v (labels (layerName notContainer) doc) ->
                 In v (labels (layerName (fun _ => true)) final).
Proof.
  intros L Hp Hs Hw.
  assert (M : forall d v, In v (labels (layerName notContainer) d) ->
              In v (labels (layerName (fun _ => true)) d)).
  { intros d v H. apply in_flat_map in H as (n & Hn & H). apply in_flat_map.
    exists n. split; [exact Hn|]. revert v H. apply labels_mono.
    intros t a x. unfold layerName. now destruct (notContainer t). }
  unfold structured, bind, readFileSync, lift, ret, throw, log, writeFileSync.
  rewrite L. cbv beta iota. rewrite Hp. cbv beta iota.
  unfold styleHoldsText in Hs. unfold reachesWrite in Hw.
  destruct (first (Dom.byDescendant "defs" "style" doc)) as [el|] eqn:F.
  - destruct (first_byDescendant _ _ _ _ F) as (sa & skids & G).
    rewrite G in Hs. apply Nat.eqb_eq in Hs.
    assert (K : forall d1, inlineStyles el doc = Some d1 ->
                labels (layerName notContainer) d1
                = labels (layerName notContainer) doc)
      by (intros d1; apply (inlineStyles_labels el doc d1 sa skids G Hs)).
    destruct (inlineStyles el doc) as [d1|]; [|destruct reactNative; discriminate].
    specialize (K d1 eq_refl).
    destruct reactNative; cbv beta iota.
    + destruct (convertToReactNativeSvg d1) as [d2|] eqn:R; [|discriminate].
      intros _. exists d2. cbn [fst files]. split; [apply lookup_store_same|].
      intros v Hv. rewrite (rename_labels d1 d2 R). apply M. now rewrite K.
    + intros _. exists d1. cbn [fst files]. split; [apply lookup_store_same|].
      intros v Hv. apply M. now rewrite K.
  - destruct reactNative; [|discriminate]. cbv beta iota.
    destruct (convertToReactNativeSvg doc) as [d2|] eqn:R; [|discriminate].
    intros _. exists d2. cbn [fst files]. split; [apply lookup_store_same|].
    intros v Hv. rewrite (rename_labels doc d2 R). now apply M.
Qed.

(** C9, counterexample.  The [data-name] attribute of the input is spelt
    with a space before the equals sign.  The sanitiser does not find it,
    the loader reads it, and the structured pipeline, which completes,
    writes the value with its white space. *)
Lemma data_name_counterexample :
  sanitize spacedNameInput = spacedNameInput
  /\ snd (structured (P := referencePlatform) "in.svg" "out.svg" true
            (inputOnly spacedNameInput)) = Some tt
  /\ outputOf (P := referencePlatform) true spacedNameInput
     = Some (Markup.q "<Svg><title data-name='Layer 1'>x</title><Path d='M0 0'/></Svg>").
Proof. repeat split; vm_compute; reflexivity. Qed.

(** C9, as amended.  Before the loader runs, every occurrence of
    [data-name=], a double quote, a non-empty value and a double quote is
    rewritten, its value with every run of white space replaced by one
    underscore, and the scan goes on behind it; any other text, a
    [data-name] attribute in another spelling included, is passed on as it
    is; the rewritten value holds no white space.  The loader reads the
    rewritten text.  When the structured pipeline then runs to its end and
    writes (the tree has one attribute per name, its style element holds no
    element), the written text holds, for every element of the loaded tree
    other than [defs] and [style] elements, the [data-name] attribute with
    the value the loader read, whether or not a transform touched the
    element. *)
Theorem data_name_sanitized {P : Platform} :
  (forall v rest,
     Css.nonEmpty v = true -> allChars notQuote v = true ->
     sanitize (dataNameOpen ++ v ++ String Markup.dq rest)
     = (dataNameOpen ++ underscoreSpaces v
        ++ String Markup.dq (sanitize rest))%string)
  /\ (forall c rest,
        matchDataName (String c rest) = None ->
        sanitize (String c rest) = String c (sanitize rest))
  /\ (forall v, allChars notSpace (underscoreSpaces v) = true)
  /\ (forall x w y,
        allChars notSpace x = true ->
        Css.nonEmpty w = true -> allChars Js.isSpace w = true ->
        spaceRun y = 0 ->
        underscoreSpaces (x ++ w ++ y) = (x ++ "_" ++ underscoreSpaces y)%string)
  /\ (forall inputPath outputPath reactNative svgContent doc w,
        lookupFile inputPath (files w) = Some svgContent ->
        parseXml (sanitize svgContent) = Some doc ->
        distinctAttrs doc = true ->
        styleHoldsText doc = true ->
        reachesWrite reactNative doc = true ->
        snd (structured inputPath outputPath reactNative w) = Some tt ->
        exists text,
          lookupFile outputPath
            (files (fst (structured inputPath outputPath reactNative w)))
          = Some text
          /\ forall q t a k v,
               view q doc = Some (VElement t a k) ->
               notContainer t = true ->
               Dom.getAttribute "data-name" a = Some v ->
               occursIn (dataNameAttribute (Dom.attrText v)) text).
Proof.
  split; [exact sanitize_match|].
  split.
  { intros c rest H. unfold sanitize, Js.replaceAll. cbn [Js.replaceFrom].
    now rewrite H. }
  split; [intros v; apply underscore_no_space|].
  split.
  { intros x w y Hx Nw Hw Hy. rewrite underscore_keep by exact Hx.
    now rewrite underscore_run. }
  intros ip op rn svg doc w L Hp D Hs Hw S.
  destruct (structured_layer_names ip op rn svg doc w L Hp Hs Hw S)
    as (final & O & K).
  exists (Markup.serialize final). split; [exact O|].
  intros q t a k v V N G. apply serialize_occurs, K.
  apply (view_labels _ q doc t a k _ V).
  unfold layerName, lastAttribute. rewrite N.
  unfold distinctAttrs in D. rewrite forallb_forall in D.
  assert (Hq : In q (Dom.elementPaths doc))
    by (apply in_elementPaths; red; eauto).
  specialize (D q Hq). rewrite getElement_view, V in D.
  rewrite (getAttribute_rev _ _ D), G. now left.
Qed.

(** C9, witness: a layer name with white space on an element outside the
    vocabulary, in a drawing without styles, with renaming on; the written
    text shows the name with underscores. *)
Lemma data_name_sanitized_witness :
  sanitize layerNameInput
  = Markup.q "<svg><title data-name='Layer_1_copy'>x</title><path d='M0 0'/></svg>"
  /\ outputOf (P := referencePlatform) true layerNameInput
     = Some (Markup.q "<Svg><title data-name='Layer_1_copy'>x</title><Path d='M0 0'/></Svg>")
  /\ exists text,
       outputOf (P := referencePlatform) true layerNameInput = Some text
       /\ occursIn (dataNameAttribute "Layer_1_copy") text.
Proof.
  split; [vm_compute; reflexivity|]. split; [vm_compute; reflexivity|].
  destruct (proj2 (proj2 (proj2 (proj2
              (data_name_sanitized (P := referencePlatform)))))
              "in.svg" "out.svg" true layerNameInput
              [Dom.Element "svg" []
                 [Dom.Element "title"
                    [("data-name", Dom.Plain "Layer_1_copy")] [Dom.Text "x"];
                  Dom.Element "path" [("d", Dom.Plain "M0 0")] []]]
              (inputOnly layerNameInput))
    as (text & O & K); try (vm_compute; reflexivity).
  exists text. split.
  - unfold outputOf, convertSvgStylesToInline, tryCatch.
    assert (S : snd (structured (P := referencePlatform) "in.svg" "out.svg" true
                       (inputOnly layerNameInput)) = Some tt)
      by (vm_compute; reflexivity).
    destruct (structured "in.svg" "out.svg" true (inputOnly layerNameInput))
      as [w1 [u|]]; [exact O|discriminate].
  - exact (K [0; 0] "title" [("data-name", Dom.Plain "Layer_1_copy")] 1
             (Dom.Plain "Layer_1_copy") eq_refl eq_refl eq_refl).
Defined.
